(** * oneinfra: the cluster aggregate and its VPN address allocator

    A shallow embedding of [internal/pkg/cluster/cluster.go] (package
    [cluster]) together with the parts of the Go standard library it calls
    ([math/big], [net], as of the Go 1.14 toolchain the project was built
    with), and the properties of the cluster aggregate stated in the
    design document.

    Conventions of the embedding.
    - A Go [[]byte] is a [list byte]; the nil slice and the empty slice are
      both [[]] (the code below only ever asks for their length).
    - A Go [string] is a [string]; a Go [int] is a [Z] (with the 64-bit
      wrap-around written out where the source converts).
    - A Go pointer that the source leaves nil at some point is an [option].
    - A Go function returning [(T, error)] returns a pair whose second
      component is an [option error]; a run that panics is [Panicked].
    - A method with a pointer receiver is a function from the receiver to the
      result and the receiver after the call (type [Method]). *)

From Stdlib Require Import ZArith String Ascii List Bool Lia.
From Stdlib.Strings Require Byte.
Import ListNotations.

Local Open Scope Z_scope.

Abbreviation byte := Init.Byte.byte.

(** ** Bytes as numbers *)

Definition b2z (b : byte) : Z := Z.of_N (Byte.to_N b).

(** The Go conversion [byte(n)]: the low eight bits. *)
Definition z2b (z : Z) : byte :=
  match Byte.of_N (Z.to_N (z mod 256)) with
  | Some b => b
  | None => Byte.x00
  end.

Definition byte_and (a b : byte) : byte := z2b (Z.land (b2z a) (b2z b)).

(** [int64(x)] and the wrap-around of 64-bit [int] arithmetic. *)
Definition int64 (z : Z) : Z := (z + 2 ^ 63) mod 2 ^ 64 - 2 ^ 63.

Definition maxInt : Z := 2 ^ 63 - 1.

(** ** Outcomes of a run *)

Inductive exec (A : Type) : Type :=
| Normal (a : A)
| Panicked.
Arguments Normal {A} a.
Arguments Panicked {A}.

(** ** Errors

    An [error] value is kept as the data it was built from rather than as
    its rendered message: [Errorf format operand] is
    [errors.Errorf(format, v)] for a format with a single [%q] verb, where
    [operand] is the text [%q] quotes (the string itself, or [v.String()]
    for a [Stringer]); [ParseError] is [*net.ParseError]; [External] is an
    error handed back by a library that is not modelled further. *)

Inductive error : Type :=
| Errorf (format operand : string)
| ParseError (Type_ Text : string)
| External (message : string).

(** ** Strings as Go indexes them *)

Module gostring.

Local Open Scope string_scope.

(** [s[n:]] for [n <= len(s)]. *)
Fixpoint drop (n : nat) (s : string) : string :=
  match n, s with
  | O, _ => s
  | S n', String _ s' => drop n' s'
  | S _, EmptyString => EmptyString
  end.

(** [s[:n]] for [n <= len(s)]. *)
Fixpoint take (n : nat) (s : string) : string :=
  match n, s with
  | O, _ => EmptyString
  | S n', String c s' => String c (take n' s')
  | S _, EmptyString => EmptyString
  end.

(** [bytealg.IndexByteString(s, c)]; [None] stands for [-1]. *)
Fixpoint IndexByteString (s : string) (c : ascii) : option nat :=
  match s with
  | EmptyString => None
  | String a s' =>
      if Ascii.eqb a c then Some O
      else match IndexByteString s' c with
           | Some i => Some (S i)
           | None => None
           end
  end.

Infix "+++" := String.append (right associativity, at level 60).

Definition code (c : ascii) : Z := Z.of_N (N_of_ascii c).
Definition chr (z : Z) : ascii := ascii_of_N (Z.to_N z).

Definition isDigit (c : ascii) : bool :=
  ((code "0"%char <=? code c) && (code c <=? code "9"%char))%Z.

End gostring.

(** ** math/big *)

Module big.

Definition Int := Z.

Definition NewInt (x : Z) : Int := x.

(** [z.SetBytes(buf)]: [buf] read as a big-endian unsigned integer. *)
Definition SetBytes (buf : list byte) : Int :=
  fold_left (fun acc b => acc * 256 + b2z b) buf 0.

Definition Add (x y : Int) : Int := x + y.

(** Little-endian base-256 digits of a non-negative number; [fuel]
    bounds the number of digits. *)
Fixpoint digits_le (fuel : nat) (x : Z) : list byte :=
  match fuel with
  | O => []
  | S fuel' =>
      if x =? 0 then []
      else z2b (x mod 256) :: digits_le fuel' (x / 256)
  end.

(** [x.Bytes()]: the absolute value of [x] as a big-endian byte slice
    without leading zeros. *)
Definition Bytes (x : Int) : list byte :=
  rev (digits_le (S (Z.to_nat (Z.log2 (Z.abs x)))) (Z.abs x)).

End big.

(** ** net: addresses, masks and networks *)

Module net.

Import gostring.

Definition IP := list byte.
Definition IPMask := list byte.

Record IPNet : Type := mkIPNet { IPNet_IP : IP; IPNet_Mask : IPMask }.

Definition IPv4len : nat := 4.
Definition IPv6len : nat := 16.

Definition v4InV6Prefix : list byte :=
  [Byte.x00; Byte.x00; Byte.x00; Byte.x00; Byte.x00; Byte.x00;
   Byte.x00; Byte.x00; Byte.x00; Byte.x00; Byte.xff; Byte.xff].

Definition bytes_eqb (a b : list byte) : bool :=
  (length a =? length b)%nat && forallb (fun p => Byte.eqb (fst p) (snd p)) (combine a b).

(** [IPv4(a, b, c, d)]: the 16-byte form of an IPv4 address. *)
Definition IPv4 (a b c d : byte) : IP := v4InV6Prefix ++ [a; b; c; d].

Definition isZeros (p : list byte) : bool := forallb (Byte.eqb Byte.x00) p.
Definition allFF (p : list byte) : bool := forallb (Byte.eqb Byte.xff) p.

Definition at_ (p : list byte) (i : nat) : byte := nth i p Byte.x00.

Definition To4 (ip : IP) : IP :=
  if (length ip =? IPv4len)%nat then ip
  else if (length ip =? IPv6len)%nat && isZeros (firstn 10 ip)
          && Byte.eqb (at_ ip 10) Byte.xff && Byte.eqb (at_ ip 11) Byte.xff
  then firstn 4 (skipn 12 ip)
  else [].

Definition To16 (ip : IP) : IP :=
  if (length ip =? IPv4len)%nat
  then IPv4 (at_ ip 0) (at_ ip 1) (at_ ip 2) (at_ ip 3)
  else if (length ip =? IPv6len)%nat then ip
  else [].

(** The loop of [CIDRMask] over the [l] bytes of the mask, [n] one bits
    still to write. *)
Fixpoint CIDRMask_loop (l : nat) (n : Z) : IPMask :=
  match l with
  | O => []
  | S l' =>
      if 8 <=? n then Byte.xff :: CIDRMask_loop l' (n - 8)
      else z2b (Z.lxor (Z.shiftr 255 n) 255) :: CIDRMask_loop l' 0
  end.

Definition CIDRMask (ones bits : Z) : IPMask :=
  if negb (bits =? 8 * Z.of_nat IPv4len) && negb (bits =? 8 * Z.of_nat IPv6len) then []
  else if (ones <? 0) || (bits <? ones) then []
  else CIDRMask_loop (Z.to_nat (bits / 8)) ones.

(** [ip.Mask(mask)] *)
Definition Mask (ip : IP) (mask : IPMask) : IP :=
  let mask :=
    if (length mask =? IPv6len)%nat && (length ip =? IPv4len)%nat && allFF (firstn 12 mask)
    then skipn 12 mask else mask in
  let ip :=
    if (length mask =? IPv4len)%nat && (length ip =? IPv6len)%nat
       && bytes_eqb (firstn 12 ip) v4InV6Prefix
    then skipn 12 ip else ip in
  if negb (length ip =? length mask)%nat then []
  else map (fun p => byte_and (fst p) (snd p)) (combine ip mask).

Definition networkNumberAndMask (n : IPNet) : IP * IPMask :=
  let checkMask (ip : IP) : IP * IPMask :=
    let m := IPNet_Mask n in
    if (length m =? IPv4len)%nat then
      if negb (length ip =? IPv4len)%nat then ([], []) else (ip, m)
    else if (length m =? IPv6len)%nat then
      if (length ip =? IPv4len)%nat then (ip, skipn 12 m) else (ip, m)
    else ([], []) in
  match To4 (IPNet_IP n) with
  | [] =>
      if negb (length (IPNet_IP n) =? IPv6len)%nat then ([], [])
      else checkMask (IPNet_IP n)
  | ip => checkMask ip
  end.

(** [n.Contains(ip)] *)
Definition Contains (n : IPNet) (ip : IP) : bool :=
  let (nn, m) := networkNumberAndMask n in
  let ip := match To4 ip with [] => ip | x => x end in
  if negb (length ip =? length nn)%nat then false
  else forallb (fun i => Byte.eqb (byte_and (at_ nn i) (at_ m i))
                                  (byte_and (at_ ip i) (at_ m i)))
               (seq 0 (length ip)).

(** The scan of [simpleMaskLength] once a byte other than 0xff is met:
    count its leading one bits. *)
Fixpoint leadingOnes (fuel : nat) (v : Z) (n : Z) : Z * Z :=
  match fuel with
  | O => (v, n)
  | S fuel' =>
      if negb (Z.land v 128 =? 0) then leadingOnes fuel' ((v * 2) mod 256) (n + 1)
      else (v, n)
  end.

Fixpoint simpleMaskLength_loop (mask : list byte) (n : Z) : Z :=
  match mask with
  | [] => n
  | v :: rest =>
      if Byte.eqb v Byte.xff then simpleMaskLength_loop rest (n + 8)
      else
        let (v', n') := leadingOnes 8 (b2z v) n in
        if negb (v' =? 0) then -1
        else if negb (isZeros rest) then -1
        else n'
  end.

Definition simpleMaskLength (mask : IPMask) : Z := simpleMaskLength_loop mask 0.

(** *** Rendering *)

Definition hexDigit (v : Z) : ascii :=
  match String.get (Z.to_nat v) "0123456789abcdef" with
  | Some c => c
  | None => "0"%char
  end.

Definition digit (v : Z) : ascii := chr (code "0"%char + v).

Definition str1 (c : ascii) : string := String c EmptyString.

(** [ubtoa]: the decimal digits of a byte. *)
Definition ubtoa (b : byte) : string :=
  let v := b2z b in
  if v <? 10 then str1 (digit v)
  else if v <? 100 then String (digit (v / 10)) (str1 (digit (v mod 10)))
  else String (digit (v / 100))
         (String (digit ((v / 10) mod 10)) (str1 (digit (v mod 10)))).

Fixpoint uitoa_loop (fuel : nat) (val : Z) (buf : string) : string :=
  match fuel with
  | O => buf
  | S fuel' =>
      if 10 <=? val then
        let q := val / 10 in
        uitoa_loop fuel' q (String (digit (val - q * 10)) buf)
      else String (digit val) buf
  end.

(** [uitoa]: an unsigned integer in decimal; the buffer holds 20 digits. *)
Definition uitoa (val : Z) : string :=
  if val =? 0 then "0"%string else uitoa_loop 20 val EmptyString.

Fixpoint hexString (b : list byte) : string :=
  match b with
  | [] => EmptyString
  | tn :: rest =>
      String (hexDigit (Z.shiftr (b2z tn) 4))
        (String (hexDigit (Z.land (b2z tn) 15)) (hexString rest))
  end.

(** [appendHex]: a 32-bit value in hexadecimal without leading zeros
    (the text appended to the destination). *)
Definition appendHex (i : Z) : string :=
  if i =? 0 then "0"%string
  else
    String.concat EmptyString
      (map (fun j => let v := Z.shiftr i (j * 4) in
                     if 0 <? v then str1 (hexDigit (Z.land v 15)) else EmptyString)
           [7; 6; 5; 4; 3; 2; 1; 0]).

Definition atZ (p : list byte) (i : Z) : byte := at_ p (Z.to_nat i).

(** [uint32(hi)<<8 | uint32(lo)] *)
Definition group16 (hi lo : byte) : Z := Z.lor (Z.shiftl (b2z hi) 8) (b2z lo).

(** The 16-bit group of [p] that starts at byte [i]. *)
Definition group (p : list byte) (i : Z) : Z := group16 (atZ p i) (atZ p (i + 1)).

(** [p[j] == 0 && p[j+1] == 0] *)
Definition zeroGroup (p : list byte) (j : Z) : bool :=
  Byte.eqb (atZ p j) Byte.x00 && Byte.eqb (atZ p (j + 1)) Byte.x00.

(** Inner loop of the search for the longest run of zero groups. *)
Fixpoint zeroRun (fuel : nat) (p : list byte) (j : Z) : Z :=
  match fuel with
  | O => j
  | S fuel' =>
      if (j <? 16) && zeroGroup p j then zeroRun fuel' p (j + 2) else j
  end.

(** Outer loop: [(e0, e1)] is the longest run found so far. *)
Fixpoint longestRun (fuel : nat) (p : list byte) (i e0 e1 : Z) : Z * Z :=
  match fuel with
  | O => (e0, e1)
  | S fuel' =>
      if i <? 16 then
        let j := zeroRun 8 p i in
        if (i <? j) && (e1 - e0 <? j - i) then longestRun fuel' p (j + 2) i j
        else longestRun fuel' p (i + 2) e0 e1
      else (e0, e1)
  end.

(** The printing loop, [::] standing for the groups from [e0] to [e1]. *)
Fixpoint printGroups (fuel : nat) (p : list byte) (i e0 e1 : Z) : string :=
  match fuel with
  | O => EmptyString
  | S fuel' =>
      if i <? 16 then
        if i =? e0 then
          if 16 <=? e1 then "::"%string
          else "::" +++ appendHex (group p e1) +++ printGroups fuel' p (e1 + 2) e0 e1
        else if 0 <? i then
          ":" +++ appendHex (group p i) +++ printGroups fuel' p (i + 2) e0 e1
        else appendHex (group p i) +++ printGroups fuel' p (i + 2) e0 e1
      else EmptyString
  end.

(** [ip.String()] *)
Definition IP_String (ip : IP) : string :=
  if (length ip =? 0)%nat then "<nil>"%string
  else
    let p4 := To4 ip in
    if (length p4 =? IPv4len)%nat then
      ubtoa (at_ p4 0) +++ "." +++ ubtoa (at_ p4 1) +++ "."
        +++ ubtoa (at_ p4 2) +++ "." +++ ubtoa (at_ p4 3)
    else if negb (length ip =? IPv6len)%nat then "?" +++ hexString ip
    else
      let '(e0, e1) := longestRun 8 ip 0 (-1) (-1) in
      let '(e0, e1) := if e1 - e0 <=? 2 then (-1, -1) else (e0, e1) in
      printGroups 8 ip 0 e0 e1.

(** [m.String()] *)
Definition IPMask_String (m : IPMask) : string :=
  if (length m =? 0)%nat then "<nil>"%string else hexString m.

(** [n.String()] for a non-nil [n]. *)
Definition IPNet_String (n : IPNet) : string :=
  let (nn, m) := networkNumberAndMask n in
  match nn, m with
  | [], _ | _, [] => "<nil>"%string
  | _, _ =>
      let l := simpleMaskLength m in
      if l =? -1 then IP_String nn +++ "/" +++ IPMask_String m
      else IP_String nn +++ "/" +++ uitoa l
  end.

(** [n.String()] through a pointer [n]: a nil [n] is answered with
    ["<nil>"] (the check at the head of the method in current toolchains);
    for any other pointer the method is the one above. *)
Definition IPNet_String_ptr (n : option IPNet) : string :=
  match n with
  | Some n => IPNet_String n
  | None => "<nil>"
  end.

(** *** Parsing *)

(** Bigger than we need, not too big to worry about overflow. *)
Definition big : Z := 16777215.

Definition slen (s : string) : Z := Z.of_nat (String.length s).

(** [dtoi]: a decimal number at the start of [s]; the result is the
    number, the count of characters consumed and success. *)
Fixpoint dtoi_loop (s : string) (n : Z) (i : nat) : Z * nat * bool :=
  let stop := if (i =? 0)%nat then (0, O, false) else (n, i, true) in
  match s with
  | EmptyString => stop
  | String c s' =>
      if isDigit c then
        let n' := n * 10 + (code c - code "0"%char) in
        if big <=? n' then (big, i, false)
        else dtoi_loop s' n' (S i)
      else stop
  end.

Definition dtoi (s : string) : Z * nat * bool := dtoi_loop s 0 O.

Definition inRange (lo hi c : ascii) : bool :=
  (code lo <=? code c) && (code c <=? code hi).

Definition isHex (c : ascii) : bool :=
  inRange "0" "9" c || inRange "a" "f" c || inRange "A" "F" c.

(** [xtoi]: the same for a hexadecimal number. *)
Fixpoint xtoi_loop (s : string) (n : Z) (i : nat) : Z * nat * bool :=
  let stop := if (i =? 0)%nat then (0, i, false) else (n, i, true) in
  match s with
  | EmptyString => stop
  | String c s' =>
      let next (n' : Z) :=
        if big <=? n' then (0, i, false) else xtoi_loop s' n' (S i) in
      if inRange "0" "9" c then next (n * 16 + (code c - code "0"%char))
      else if inRange "a" "f" c then next (n * 16 + (code c - code "a"%char + 10))
      else if inRange "A" "F" c then next (n * 16 + (code c - code "A"%char + 10))
      else stop
  end.

Definition xtoi (s : string) : Z * nat * bool := xtoi_loop s 0 O.

(** The loop of [parseIPv4] over the octets still [todo]; [p] holds
    the [i] octets read so far.  [None] is the early [return nil]. *)
Fixpoint parseIPv4_loop (todo : nat) (i : nat) (s : string) (p : list byte)
  : option (list byte * string) :=
  match todo with
  | O => Some (p, s)
  | S todo' =>
      if slen s =? 0 then None
      else
        let after_dot :=
          if (0 <? i)%nat then
            match s with
            | String c s' => if Ascii.eqb c "."%char then Some s' else None
            | EmptyString => None
            end
          else Some s in
        match after_dot with
        | None => None
        | Some s =>
            let '(n, c, ok) := dtoi s in
            if negb ok || (255 <? n) then None
            else parseIPv4_loop todo' (S i) (drop c s) (p ++ [z2b n])
        end
  end.

Definition parseIPv4 (s : string) : IP :=
  match parseIPv4_loop IPv4len 0 s [] with
  | Some (p, rest) =>
      if negb (slen rest =? 0) then []
      else IPv4 (at_ p 0) (at_ p 1) (at_ p 2) (at_ p 3)
  | None => []
  end.

(** The main loop of [parseIPv6].  The array [ip] is written from left to
    right, so the state keeps the bytes written so far ([i] is their
    number) and the position of the ellipsis ([-1] while there is none).
    [None] is the early [return nil]; otherwise the loop ends with the
    bytes, the ellipsis and the text left. *)
Fixpoint parseIPv6_loop (fuel : nat) (s : string) (ip : list byte) (ellipsis : Z)
  : option (list byte * Z * string) :=
  match fuel with
  | O => Some (ip, ellipsis, s)
  | S fuel' =>
      let i := length ip in
      if negb (i <? IPv6len)%nat then Some (ip, ellipsis, s)
      else
        let '(n, c, ok) := xtoi s in
        if negb ok || (65535 <? n) then None
        else if (Z.of_nat c <? slen s)
                && match String.get c s with
                   | Some d => Ascii.eqb d "."%char
                   | None => false
                   end
        then
          if (ellipsis <? 0) && negb (i =? IPv6len - IPv4len)%nat then None
          else if (IPv6len <? i + IPv4len)%nat then None
          else
            match parseIPv4 s with
            | [] => None
            | ip4 =>
                Some (ip ++ [at_ ip4 12; at_ ip4 13; at_ ip4 14; at_ ip4 15],
                      ellipsis, EmptyString)
            end
        else
          let ip := ip ++ [z2b (Z.shiftr n 8); z2b n] in
          let i := length ip in
          let s := drop c s in
          if slen s =? 0 then Some (ip, ellipsis, s)
          else
            match s with
            | EmptyString => None
            | String c0 s1 =>
                if negb (Ascii.eqb c0 ":"%char) || (slen s =? 1) then None
                else
                  match s1 with
                  | String c1 s2 =>
                      if Ascii.eqb c1 ":"%char then
                        if 0 <=? ellipsis then None
                        else if slen s2 =? 0 then Some (ip, Z.of_nat i, s2)
                        else parseIPv6_loop fuel' s2 ip (Z.of_nat i)
                      else parseIPv6_loop fuel' s1 ip ellipsis
                  | EmptyString => None
                  end
            end
  end.

(** What follows the loop: the whole text must be used, and an ellipsis
    stands for the groups that are missing.  The two copying loops move the
    bytes from the ellipsis on to the end of the array and zero the gap. *)
Definition parseIPv6_finish (r : option (list byte * Z * string)) : IP :=
  match r with
  | None => []
  | Some (ip, ellipsis, s) =>
      if negb (slen s =? 0) then []
      else
        let i := length ip in
        if (i <? IPv6len)%nat then
          if ellipsis <? 0 then []
          else
            let e := Z.to_nat ellipsis in
            firstn e ip ++ repeat Byte.x00 (IPv6len - i) ++ skipn e ip
        else if 0 <=? ellipsis then []
        else ip
  end.

Definition parseIPv6 (s : string) : IP :=
  let noEllipsis := parseIPv6_finish (parseIPv6_loop 8 s [] (-1)) in
  match s with
  | String c0 (String c1 s') =>
      if Ascii.eqb c0 ":"%char && Ascii.eqb c1 ":"%char then
        (* leading ellipsis *)
        if slen s' =? 0 then repeat Byte.x00 IPv6len
        else parseIPv6_finish (parseIPv6_loop 8 s' [] 0)
      else noEllipsis
  | _ => noEllipsis
  end.

Fixpoint ParseIP_scan (s rest : string) : IP :=
  match rest with
  | EmptyString => []
  | String c rest' =>
      if Ascii.eqb c "."%char then parseIPv4 s
      else if Ascii.eqb c ":"%char then parseIPv6 s
      else ParseIP_scan s rest'
  end.

(** [ParseIP(s)] *)
Definition ParseIP (s : string) : IP := ParseIP_scan s s.

(** [ParseCIDR(s)] *)
Definition ParseCIDR (s : string) : IP * option IPNet * option error :=
  let fail := ([], None, Some (ParseError "CIDR address" s)) in
  match IndexByteString s "/"%char with
  | None => fail
  | Some i =>
      let addr := take i s in
      let mask := drop (S i) s in
      let ip4 := parseIPv4 addr in
      let iplen := match ip4 with [] => IPv6len | _ => IPv4len end in
      let ip := match ip4 with [] => parseIPv6 addr | _ => ip4 end in
      let '(n, i, ok) := dtoi mask in
      if match ip with [] => true | _ => false end
         || negb ok || negb (Z.of_nat i =? slen mask) || (n <? 0)
         || (8 * Z.of_nat iplen <? n)
      then fail
      else
        let m := CIDRMask n (8 * Z.of_nat iplen) in
        (ip, Some (mkIPNet (Mask ip m) m), None)
  end.

End net.

(** ** The versioned (wire) schema

    Modelled from the spec: the type declarations of
    [apis/cluster/v1alpha1] are not part of the sources at hand; the
    records below have the fields [Export] writes and
    [NewClusterFromv1alpha1] reads, which are the fields of the versioned
    cluster representation listed under the external interfaces.  Of
    [metav1.ObjectMeta] only [Name] is kept, the one field the code sets.
    The two [CA] fields are pointers in the source; [Export] always sets
    them, and they are modelled by the certificate they point to. *)

Module clusterv1alpha1.

Record Certificate : Type := mkCertificate
  { Certificate_Certificate : string;
    Certificate_PrivateKey : string }.

Record CertificateAuthorities : Type := mkCertificateAuthorities
  { APIServerClient : Certificate;
    CertificateSigner : Certificate;
    Kubelet : Certificate;
    EtcdClient : Certificate;
    EtcdPeer : Certificate }.

Record KeyPair : Type := mkKeyPair
  { KeyPair_PublicKey : string;
    KeyPair_PrivateKey : string }.

Record KubeAPIServer : Type := mkKubeAPIServer
  { KubeAPIServer_CA : Certificate;
    KubeAPIServer_TLSCert : string;
    KubeAPIServer_TLSPrivateKey : string;
    KubeAPIServer_ServiceAccount : KeyPair;
    KubeAPIServer_ExtraSANs : list string }.

Record EtcdServer : Type := mkEtcdServer
  { EtcdServer_CA : Certificate;
    EtcdServer_TLSCert : string;
    EtcdServer_TLSPrivateKey : string;
    EtcdServer_ExtraSANs : list string }.

Record VPNPeer : Type := mkVPNPeer
  { VPNPeer_Name : string;
    VPNPeer_Address : string;
    VPNPeer_PrivateKey : string;
    VPNPeer_PublicKey : string }.

Record ClusterSpec : Type := mkClusterSpec
  { Spec_CertificateAuthorities : CertificateAuthorities;
    Spec_APIServer : KubeAPIServer;
    Spec_EtcdServer : EtcdServer;
    Spec_VPNCIDR : string }.

Record ClusterStatus : Type := mkClusterStatus
  { Status_StorageClientEndpoints : list string;
    Status_StoragePeerEndpoints : list string;
    Status_VPNPeers : list VPNPeer }.

Record ObjectMeta : Type := mkObjectMeta { ObjectMeta_Name : string }.

Record Cluster : Type := mkCluster
  { Cluster_ObjectMeta : ObjectMeta;
    Cluster_Spec : ClusterSpec;
    Cluster_Status : ClusterStatus }.

End clusterv1alpha1.

(** ** Package [certificates]

    Modelled from the spec: [internal/pkg/certificates] is not part of
    the sources at hand.  A certificate is a certificate and its private
    key, the two fields [Export] reads; the import of a versioned
    certificate copies them. *)

Module certificates.

Record Certificate : Type := mkCertificate
  { Certificate_Certificate : string;
    Certificate_PrivateKey : string }.

Definition NewCertificateFromv1alpha1 (certificate : clusterv1alpha1.Certificate)
  : Certificate :=
  {| Certificate_Certificate := clusterv1alpha1.Certificate_Certificate certificate;
     Certificate_PrivateKey := clusterv1alpha1.Certificate_PrivateKey certificate |}.

End certificates.

(** ** Package [wgtypes]: a WireGuard key is 32 bytes. *)

Module wgtypes.
Definition Key : Type := list byte.
End wgtypes.

(** ** Package [cluster] *)

Module cluster.

Import gostring.

(** The structs of the package.  [CertificateAuthorities], [EtcdServer],
    [KubeAPIServer], [VPNPeer] and [VPNPeerList] are declared in files of
    the package that are not at hand; their fields are the ones
    [cluster.go] reads and writes.  The certificates they point to are
    allocated by every constructor of these structs and are modelled by
    value.  The four pointers of [Cluster] are nil in the literal
    [NewCluster] starts from, hence options. *)

Record CertificateAuthorities : Type := mkCertificateAuthorities
  { APIServerClient : certificates.Certificate;
    CertificateSigner : certificates.Certificate;
    Kubelet : certificates.Certificate;
    EtcdClient : certificates.Certificate;
    EtcdPeer : certificates.Certificate }.

Record EtcdServer : Type := mkEtcdServer
  { EtcdServer_CA : certificates.Certificate;
    EtcdServer_TLSCert : string;
    EtcdServer_TLSPrivateKey : string;
    EtcdServer_ExtraSANs : list string }.

Record KubeAPIServer : Type := mkKubeAPIServer
  { KubeAPIServer_CA : certificates.Certificate;
    KubeAPIServer_TLSCert : string;
    KubeAPIServer_TLSPrivateKey : string;
    KubeAPIServer_ServiceAccountPublicKey : string;
    KubeAPIServer_ServiceAccountPrivateKey : string;
    KubeAPIServer_ExtraSANs : list string }.

Record VPNPeer : Type := mkVPNPeer
  { VPNPeer_Name : string;
    VPNPeer_Address : string;
    VPNPeer_PrivateKey : string;
    VPNPeer_PublicKey : string }.

Definition VPNPeerList : Type := list VPNPeer.

Record Cluster : Type := mkCluster
  { Name : string;
    CertificateAuthorities_ : option CertificateAuthorities;
    EtcdServer_ : option EtcdServer;
    APIServer : option KubeAPIServer;
    StorageClientEndpoints : list string;
    StoragePeerEndpoints : list string;
    VPNCIDR : option net.IPNet;
    VPNPeers : VPNPeerList }.

(** [Map]: the entries of the map in the order a [range] statement visits
    them, an order Go leaves unspecified. *)
Definition Map : Type := list (string * Cluster).

(** *** Methods on [*Cluster] *)

Definition Method (A : Type) : Type := Cluster -> exec (A * Cluster).

Definition ret {A : Type} (a : A) : Method A := fun c => Normal (a, c).

Definition bind {A B : Type} (m : Method A) (k : A -> Method B) : Method B :=
  fun c => match m c with
           | Normal (a, c') => k a c'
           | Panicked => Panicked
           end.

Definition panic {A : Type} : Method A := fun _ => Panicked.

Definition receiver : Method Cluster := fun c => Normal (c, c).

Definition assign (f : Cluster -> Cluster) : Method unit :=
  fun c => Normal (tt, f c).

Notation "x <- m ;; k" := (bind m (fun x => k))
  (at level 61, m at next level, right associativity).
Notation "' p <- m ;; k" := (bind m (fun x => let 'p := x in k))
  (at level 61, p pattern, m at next level, right associativity).

Definition set_CertificateAuthorities (v : option CertificateAuthorities) (c : Cluster) :=
  mkCluster (Name c) v (EtcdServer_ c) (APIServer c) (StorageClientEndpoints c)
    (StoragePeerEndpoints c) (VPNCIDR c) (VPNPeers c).

Definition set_EtcdServer (v : option EtcdServer) (c : Cluster) :=
  mkCluster (Name c) (CertificateAuthorities_ c) v (APIServer c) (StorageClientEndpoints c)
    (StoragePeerEndpoints c) (VPNCIDR c) (VPNPeers c).

Definition set_APIServer (v : option KubeAPIServer) (c : Cluster) :=
  mkCluster (Name c) (CertificateAuthorities_ c) (EtcdServer_ c) v (StorageClientEndpoints c)
    (StoragePeerEndpoints c) (VPNCIDR c) (VPNPeers c).

Definition set_VPNPeers (v : VPNPeerList) (c : Cluster) :=
  mkCluster (Name c) (CertificateAuthorities_ c) (EtcdServer_ c) (APIServer c)
    (StorageClientEndpoints c) (StoragePeerEndpoints c) (VPNCIDR c) v.

(** [append(s, x)]: the runtime panics when the new length overflows [int]. *)
Definition append {A : Type} (s : list A) (x : A) : exec (list A) :=
  if maxInt <=? Z.of_nat (length s) then Panicked else Normal (s ++ [x]).

(** [requestVPNIP] requests a VPN address from the VPN CIDR. *)
Definition requestVPNIP : Method (string * option error) :=
  cluster <- receiver ;;
  let assignedIP := big.NewInt (int64 (Z.of_nat (length (VPNPeers cluster)) + 1)) in
  match VPNCIDR cluster with
  | None => panic
  | Some cidr =>
      let vpnNetwork := big.SetBytes (net.To16 (net.IPNet_IP cidr)) in
      let vpnAssignedIP := big.Add vpnNetwork assignedIP in
      if (length (big.Bytes vpnAssignedIP) <? 2)%nat then panic
      else
        let vpnAssignedIPSlice := skipn 2 (big.Bytes vpnAssignedIP) in
        let vpnAssignedIPSlice :=
          if (length (big.Bytes vpnAssignedIP) =? net.IPv6len)%nat
          then big.Bytes vpnAssignedIP else vpnAssignedIPSlice in
        if negb (net.Contains cidr vpnAssignedIPSlice) then
          ret (EmptyString,
               Some (Errorf "not enough IP addresses to assign in the %q CIDR"
                            (net.IPNet_String cidr)))
        else ret (net.IP_String vpnAssignedIPSlice, None)
  end.

(** [VPNPeer] returns the VPN peer with the provided name. *)
Fixpoint VPNPeer_range (peers : VPNPeerList) (name : string) : option VPNPeer :=
  match peers with
  | [] => None
  | peer :: rest =>
      if String.eqb (VPNPeer_Name peer) name then Some peer
      else VPNPeer_range rest name
  end.

Definition Cluster_VPNPeer (name : string) : Method (option VPNPeer * option error) :=
  cluster <- receiver ;;
  match VPNPeer_range (VPNPeers cluster) name with
  | Some peer => ret (Some peer, None)
  | None => ret (None, Some (Errorf "vpn peer %q not found" name))
  end.

(** *** The VPN part of the versioned projection

    Modelled from the spec: [VPNPeerList.Export], [newVPNPeersFromv1alpha1]
    and [newVPNCIDRFromv1alpha1] live in a file of the package that is not
    at hand.  The peer list is exported and imported peer by peer, field by
    field, in order; the CIDR is exported in its string form and imported
    by parsing that string with the parser [NewCluster] uses (a string that
    does not parse leaves the pointer nil). *)

Definition VPNPeerList_Export (vpnPeerList : VPNPeerList) : list clusterv1alpha1.VPNPeer :=
  map (fun peer =>
         {| clusterv1alpha1.VPNPeer_Name := VPNPeer_Name peer;
            clusterv1alpha1.VPNPeer_Address := VPNPeer_Address peer;
            clusterv1alpha1.VPNPeer_PrivateKey := VPNPeer_PrivateKey peer;
            clusterv1alpha1.VPNPeer_PublicKey := VPNPeer_PublicKey peer |})
      vpnPeerList.

Definition newVPNPeersFromv1alpha1 (peers : list clusterv1alpha1.VPNPeer) : VPNPeerList :=
  map (fun peer =>
         {| VPNPeer_Name := clusterv1alpha1.VPNPeer_Name peer;
            VPNPeer_Address := clusterv1alpha1.VPNPeer_Address peer;
            VPNPeer_PrivateKey := clusterv1alpha1.VPNPeer_PrivateKey peer;
            VPNPeer_PublicKey := clusterv1alpha1.VPNPeer_PublicKey peer |})
      peers.

Definition newVPNCIDRFromv1alpha1 (vpnCIDR : string) : option net.IPNet :=
  let '(_, vpnCIDRNet, _) := net.ParseCIDR vpnCIDR in vpnCIDRNet.

(** [NewClusterFromv1alpha1] returns a cluster based on a versioned cluster. *)
Definition NewClusterFromv1alpha1 (cluster : clusterv1alpha1.Cluster)
  : option Cluster * option error :=
  let spec := clusterv1alpha1.Cluster_Spec cluster in
  let status := clusterv1alpha1.Cluster_Status cluster in
  let cas := clusterv1alpha1.Spec_CertificateAuthorities spec in
  let apiServer := clusterv1alpha1.Spec_APIServer spec in
  let etcdServer := clusterv1alpha1.Spec_EtcdServer spec in
  let res :=
    {| Name := clusterv1alpha1.ObjectMeta_Name (clusterv1alpha1.Cluster_ObjectMeta cluster);
       CertificateAuthorities_ := Some
         {| APIServerClient :=
              certificates.NewCertificateFromv1alpha1 (clusterv1alpha1.APIServerClient cas);
            CertificateSigner :=
              certificates.NewCertificateFromv1alpha1 (clusterv1alpha1.CertificateSigner cas);
            Kubelet :=
              certificates.NewCertificateFromv1alpha1 (clusterv1alpha1.Kubelet cas);
            EtcdClient :=
              certificates.NewCertificateFromv1alpha1 (clusterv1alpha1.EtcdClient cas);
            EtcdPeer :=
              certificates.NewCertificateFromv1alpha1 (clusterv1alpha1.EtcdPeer cas) |};
       APIServer := Some
         {| KubeAPIServer_CA :=
              certificates.NewCertificateFromv1alpha1
                (clusterv1alpha1.KubeAPIServer_CA apiServer);
            KubeAPIServer_TLSCert := clusterv1alpha1.KubeAPIServer_TLSCert apiServer;
            KubeAPIServer_TLSPrivateKey :=
              clusterv1alpha1.KubeAPIServer_TLSPrivateKey apiServer;
            KubeAPIServer_ServiceAccountPublicKey :=
              clusterv1alpha1.KeyPair_PublicKey
                (clusterv1alpha1.KubeAPIServer_ServiceAccount apiServer);
            KubeAPIServer_ServiceAccountPrivateKey :=
              clusterv1alpha1.KeyPair_PrivateKey
                (clusterv1alpha1.KubeAPIServer_ServiceAccount apiServer);
            KubeAPIServer_ExtraSANs := clusterv1alpha1.KubeAPIServer_ExtraSANs apiServer |};
       EtcdServer_ := Some
         {| EtcdServer_CA :=
              certificates.NewCertificateFromv1alpha1
                (clusterv1alpha1.EtcdServer_CA etcdServer);
            EtcdServer_TLSCert := clusterv1alpha1.EtcdServer_TLSCert etcdServer;
            EtcdServer_TLSPrivateKey := clusterv1alpha1.EtcdServer_TLSPrivateKey etcdServer;
            EtcdServer_ExtraSANs := clusterv1alpha1.EtcdServer_ExtraSANs etcdServer |};
       StorageClientEndpoints := clusterv1alpha1.Status_StorageClientEndpoints status;
       StoragePeerEndpoints := clusterv1alpha1.Status_StoragePeerEndpoints status;
       VPNCIDR := newVPNCIDRFromv1alpha1 (clusterv1alpha1.Spec_VPNCIDR spec);
       VPNPeers := newVPNPeersFromv1alpha1 (clusterv1alpha1.Status_VPNPeers status) |} in
  (Some res, None).

Definition exportCertificate (c : certificates.Certificate) : clusterv1alpha1.Certificate :=
  {| clusterv1alpha1.Certificate_Certificate := certificates.Certificate_Certificate c;
     clusterv1alpha1.Certificate_PrivateKey := certificates.Certificate_PrivateKey c |}.

(** [Export] exports the cluster to a versioned cluster.  The pointers to
    the certificate authorities, the API server and the etcd server are
    dereferenced, so a nil one makes the call panic; on the pointer to the
    network only the [String] method is called, which answers for a nil
    pointer too. *)
Definition Export : Method clusterv1alpha1.Cluster :=
  cluster <- receiver ;;
  match CertificateAuthorities_ cluster, APIServer cluster, EtcdServer_ cluster with
  | Some cas, Some apiServer, Some etcdServer =>
      ret
        {| clusterv1alpha1.Cluster_ObjectMeta :=
             {| clusterv1alpha1.ObjectMeta_Name := Name cluster |};
           clusterv1alpha1.Cluster_Spec :=
             {| clusterv1alpha1.Spec_CertificateAuthorities :=
                  {| clusterv1alpha1.APIServerClient := exportCertificate (APIServerClient cas);
                     clusterv1alpha1.CertificateSigner :=
                       exportCertificate (CertificateSigner cas);
                     clusterv1alpha1.Kubelet := exportCertificate (Kubelet cas);
                     clusterv1alpha1.EtcdClient := exportCertificate (EtcdClient cas);
                     clusterv1alpha1.EtcdPeer := exportCertificate (EtcdPeer cas) |};
                clusterv1alpha1.Spec_APIServer :=
                  {| clusterv1alpha1.KubeAPIServer_CA :=
                       exportCertificate (KubeAPIServer_CA apiServer);
                     clusterv1alpha1.KubeAPIServer_TLSCert := KubeAPIServer_TLSCert apiServer;
                     clusterv1alpha1.KubeAPIServer_TLSPrivateKey :=
                       KubeAPIServer_TLSPrivateKey apiServer;
                     clusterv1alpha1.KubeAPIServer_ServiceAccount :=
                       {| clusterv1alpha1.KeyPair_PublicKey :=
                            KubeAPIServer_ServiceAccountPublicKey apiServer;
                          clusterv1alpha1.KeyPair_PrivateKey :=
                            KubeAPIServer_ServiceAccountPrivateKey apiServer |};
                     clusterv1alpha1.KubeAPIServer_ExtraSANs :=
                       KubeAPIServer_ExtraSANs apiServer |};
                clusterv1alpha1.Spec_EtcdServer :=
                  {| clusterv1alpha1.EtcdServer_CA :=
                       exportCertificate (EtcdServer_CA etcdServer);
                     clusterv1alpha1.EtcdServer_TLSCert := EtcdServer_TLSCert etcdServer;
                     clusterv1alpha1.EtcdServer_TLSPrivateKey :=
                       EtcdServer_TLSPrivateKey etcdServer;
                     clusterv1alpha1.EtcdServer_ExtraSANs := EtcdServer_ExtraSANs etcdServer |};
                clusterv1alpha1.Spec_VPNCIDR := net.IPNet_String_ptr (VPNCIDR cluster) |};
           clusterv1alpha1.Cluster_Status :=
             {| clusterv1alpha1.Status_StorageClientEndpoints := StorageClientEndpoints cluster;
                clusterv1alpha1.Status_StoragePeerEndpoints := StoragePeerEndpoints cluster;
                clusterv1alpha1.Status_VPNPeers := VPNPeerList_Export (VPNPeers cluster) |} |}
  | _, _, _ => panic
  end.

Section Environment.

(** What the package takes from code that is not modelled further.

    Modelled from the spec: [newCertificateAuthorities], [newEtcdServer]
    and [newKubeAPIServer] (files of the package that are not at hand)
    either produce the complete value or fail with an error; nothing is
    assumed about the certificates they generate. *)
Variable newCertificateAuthorities : CertificateAuthorities + error.
Variable newEtcdServer : list string -> EtcdServer + error.
Variable newKubeAPIServer : list string -> KubeAPIServer + error.

(** [Key.String] (base64) and [Key.PublicKey] (Curve25519) of [wgtypes]. *)
Variable Key_String : wgtypes.Key -> string.
Variable Key_PublicKey : wgtypes.Key -> wgtypes.Key.

(** The result of [clusterv1alpha1.AddToScheme(scheme)] on a fresh scheme,
    and [runtime.Encode] with the YAML encoder built from that scheme. *)
Variable AddToScheme : option error.
Variable Encode : clusterv1alpha1.Cluster -> string * option error.

Definition pointer_and_error {A : Type} (r : A + error) : option A * option error :=
  match r with
  | inl a => (Some a, None)
  | inr err => (None, Some err)
  end.

Definition generateCertificates (etcdServerExtraSANs apiServerExtraSANs : list string)
  : Method (option error) :=
  let '(certificateAuthorities, err) := pointer_and_error newCertificateAuthorities in
  match err with
  | Some err => ret (Some err)
  | None =>
      _ <- assign (set_CertificateAuthorities certificateAuthorities) ;;
      let '(etcdServer, err) := pointer_and_error (newEtcdServer etcdServerExtraSANs) in
      match err with
      | Some err => ret (Some err)
      | None =>
          _ <- assign (set_EtcdServer etcdServer) ;;
          let '(kubeAPIServer, err) :=
            pointer_and_error (newKubeAPIServer apiServerExtraSANs) in
          match err with
          | Some err => ret (Some err)
          | None =>
              _ <- assign (set_APIServer kubeAPIServer) ;;
              ret None
          end
      end
  end.

(** [GenerateVPNPeer] generates a new VPN peer with name [peerName];
    [generated] is what [wgtypes.GeneratePrivateKey()] returns in this call. *)
Definition GenerateVPNPeer (peerName : string) (generated : wgtypes.Key * option error)
  : Method (option error) :=
  '(controlPlaneIngressVPNIP, err) <- requestVPNIP ;;
  match err with
  | Some err => ret (Some err)
  | None =>
      let '(privateKey, err) := generated in
      match err with
      | Some err => ret (Some err)
      | None =>
          let ipAddress := net.ParseIP controlPlaneIngressVPNIP in
          let ipAddressNet :=
            if (length ipAddress =? net.IPv6len)%nat
            then net.mkIPNet ipAddress (net.CIDRMask 128 128)
            else net.mkIPNet ipAddress (net.CIDRMask 32 32) in
          cluster <- receiver ;;
          match append (VPNPeers cluster)
                  {| VPNPeer_Name := peerName;
                     VPNPeer_Address := net.IPNet_String ipAddressNet;
                     VPNPeer_PrivateKey := Key_String privateKey;
                     VPNPeer_PublicKey := Key_String (Key_PublicKey privateKey) |} with
          | Panicked => panic
          | Normal peers =>
              _ <- assign (set_VPNPeers peers) ;;
              ret None
          end
      end
  end.

(** [NewCluster] returns a cluster with name [clusterName]; [generated] is
    the key generated for the first peer. *)
Definition NewCluster (clusterName vpnCIDR : string)
    (etcdServerExtraSANs apiServerExtraSANs : list string)
    (generated : wgtypes.Key * option error)
  : exec (option Cluster * option error) :=
  let '(_, vpnCIDRNet, err) := net.ParseCIDR vpnCIDR in
  match err with
  | Some err => Normal (None, Some err)
  | None =>
      let res := {| Name := clusterName; CertificateAuthorities_ := None;
                    EtcdServer_ := None; APIServer := None;
                    StorageClientEndpoints := []; StoragePeerEndpoints := [];
                    VPNCIDR := vpnCIDRNet; VPNPeers := [] |} in
      match generateCertificates etcdServerExtraSANs apiServerExtraSANs res with
      | Panicked => Panicked
      | Normal (Some err, _) => Normal (None, Some err)
      | Normal (None, res) =>
          match GenerateVPNPeer "control-plane-ingress" generated res with
          | Panicked => Panicked
          | Normal (Some err, _) => Normal (None, Some err)
          | Normal (None, res) => Normal (Some res, None)
          end
      end
  end.

(** [Specs] returns the versioned specs of this cluster. *)
Definition Specs : Method (string * option error) :=
  match AddToScheme with
  | Some err => ret (EmptyString, Some err)
  | None =>
      clusterObject <- Export ;;
      cluster <- receiver ;;
      let '(encodedCluster, err) := Encode clusterObject in
      match err with
      | None => ret (encodedCluster, None)
      | Some _ =>
          ret (EmptyString, Some (Errorf "could not encode cluster %q" (Name cluster)))
      end
  end.

Definition newline : string := String "010"%char EmptyString.

(** [Map.Specs] returns the versioned specs of all clusters in this map. *)
Fixpoint Map_Specs_range (clusterMap : Map) (res : string) : exec (string * option error) :=
  match clusterMap with
  | [] => Normal (res, None)
  | (_, cluster) :: rest =>
      match Specs cluster with
      | Panicked => Panicked
      | Normal ((clusterSpec, err), _) =>
          match err with
          | Some _ => Map_Specs_range rest res
          | None => Map_Specs_range rest (res +++ "---" +++ newline +++ clusterSpec)
          end
      end
  end.

Definition Map_Specs (clusterMap : Map) : exec (string * option error) :=
  Map_Specs_range clusterMap EmptyString.

End Environment.

End cluster.

(** ** Vocabulary of the properties *)

Module props.

Import gostring cluster.

(** [contains needle hay]: [needle] occurs in [hay]. *)
Fixpoint contains (needle hay : string) : bool :=
  match hay with
  | EmptyString => String.prefix needle hay
  | String _ hay' => String.prefix needle hay || contains needle hay'
  end.

(** The text an error carries besides its fixed wording. *)
Definition error_text (e : error) : string :=
  match e with
  | Errorf _ operand => operand
  | ParseError _ text => text
  | External message => message
  end.

(** The error names [s]: [s] occurs in the text it carries. *)
Definition error_names (e : error) (s : string) : bool := contains s (error_text e).

(** [p] holds of the [count] integers from [from] on. *)
Fixpoint all_from (count : nat) (from : Z) (p : Z -> bool) : bool :=
  match count with
  | O => true
  | S count' => p from && all_from count' (from + 1) p
  end.

Fixpoint all_chars (p : ascii -> bool) (s : string) : bool :=
  match s with
  | EmptyString => true
  | String c s' => p c && all_chars p s'
  end.

(** The text [s] is over, or goes on with a character outside [p]. *)
Definition stops (p : ascii -> bool) (s : string) : bool :=
  match s with
  | EmptyString => true
  | String c _ => negb (p c)
  end.

(** A byte slice is canonical when it does not start with a zero byte. *)
Definition canonical (l : list byte) : Prop :=
  match l with
  | [] => True
  | x :: _ => x <> Byte.x00
  end.

(** The exhaustion error of [requestVPNIP] for a CIDR. *)
Definition exhausted (cidr : net.IPNet) : error :=
  Errorf "not enough IP addresses to assign in the %q CIDR" (net.IPNet_String cidr).

Definition document (clusterSpec : string) : string :=
  "---" +++ newline +++ clusterSpec.

Section Environment.

Variable AddToScheme : option error.
Variable Encode : clusterv1alpha1.Cluster -> string * option error.

(** The documents of the members of a map that serialize, in the order of
    the map; [None] when the serialization of a member panics. *)
Fixpoint documents (clusterMap : Map) : option (list string) :=
  match clusterMap with
  | [] => Some []
  | (_, member) :: rest =>
      match Specs AddToScheme Encode member, documents rest with
      | Normal ((clusterSpec, None), _), Some docs => Some (document clusterSpec :: docs)
      | Normal ((_, Some _), _), Some docs => Some docs
      | _, _ => None
      end
  end.

End Environment.

(** *** Text of addresses *)

(** The dotted decimal text of a 4-byte address. *)
Definition dotted (a b c d : byte) : string :=
  net.ubtoa a +++ "." +++ net.ubtoa b +++ "." +++ net.ubtoa c +++ "." +++ net.ubtoa d.

Definition isSep (c : ascii) : bool := Ascii.eqb c "." || Ascii.eqb c ":".

Definition isHexOrColon (c : ascii) : bool := net.isHex c || Ascii.eqb c ":".

Definition notSlash (c : ascii) : bool := negb (Ascii.eqb c "/").

Fixpoint has_char (c : ascii) (s : string) : bool :=
  match s with
  | EmptyString => false
  | String x s' => Ascii.eqb x c || has_char c s'
  end.

(** Checks that are run over a whole range of numbers: a 16-bit group is
    printed in hexadecimal digits and read back; two bytes make a group
    that gives them back; masking twice is masking once; a prefix length is
    read back from its mask and from its decimal text. *)
Definition hex_ok (g : Z) : bool :=
  let s := net.appendHex g in
  let '(n, c, ok) := net.xtoi s in
  all_chars net.isHex s && (n =? g) && (c =? String.length s)%nat && ok
  && (0 <? net.slen s) && (g <? 65536).

Definition group16_ok (x y : Z) : bool :=
  let g := net.group16 (z2b x) (z2b y) in
  (0 <=? g) && (g <? 65536)
  && (b2z (z2b (Z.shiftr g 8)) =? x) && (b2z (z2b g) =? y).

Definition byte_and_ok (x y : Z) : bool :=
  Byte.eqb (byte_and (byte_and (z2b x) (z2b y)) (z2b y)) (byte_and (z2b x) (z2b y)).

Definition mask_ok (bits : Z) (n : Z) : bool :=
  (net.simpleMaskLength (net.CIDRMask n bits) =? n)
  && (let '(v, i, ok) := net.dtoi (net.uitoa n) in
      (v =? n) && (i =? String.length (net.uitoa n))%nat && ok).

(** The groups of [p] from [e0] up to [e1] are zero. *)
Definition zero_between (p : list byte) (e0 e1 : Z) : Prop :=
  forall j, e0 <= j < e1 -> Z.even j = true -> net.zeroGroup p j = true.

(** What the search for the longest run of zero groups keeps. *)
Definition run_ok (p : list byte) (e : Z * Z) : Prop :=
  let (e0, e1) := e in
  (e0 = -1 /\ e1 = -1)
  \/ (0 <= e0 /\ e0 < e1 <= 16 /\ Z.even e0 = true /\ Z.even e1 = true
      /\ zero_between p e0 e1).

(** The run that is printed as [::]: none, or at least two groups. *)
Definition shape_ok (p : list byte) (e0 e1 : Z) : Prop :=
  (e0 = -1 /\ e1 = -1)
  \/ ((e0 = 0 \/ e0 = 2 \/ e0 = 4 \/ e0 = 6 \/ e0 = 8 \/ e0 = 10 \/ e0 = 12)
      /\ (e1 = 4 \/ e1 = 6 \/ e1 = 8 \/ e1 = 10 \/ e1 = 12 \/ e1 = 14 \/ e1 = 16)
      /\ e0 + 4 <= e1 /\ zero_between p e0 e1).

(** *** Networks and the addresses taken from them *)

(** Address and mask are both 4 or both 16 bytes long. *)
Definition wellFormed (cidr : net.IPNet) : Prop :=
  (length (net.IPNet_IP cidr) = 4%nat /\ length (net.IPNet_Mask cidr) = 4%nat)
  \/ (length (net.IPNet_IP cidr) = 16%nat /\ length (net.IPNet_Mask cidr) = 16%nat).

(** The two kinds of network [ParseCIDR] returns: the address it parsed,
    masked by a prefix mask of its family. *)
Definition parsedNetwork (ip : net.IP) (cidr : option net.IPNet) : Prop :=
  exists n,
    ((exists a b c d, ip = net.IPv4 a b c d) /\ 0 <= n <= 32
     /\ cidr = Some (net.mkIPNet (net.Mask ip (net.CIDRMask n 32)) (net.CIDRMask n 32)))
    \/ (length ip = 16%nat /\ 0 <= n <= 128
        /\ cidr = Some (net.mkIPNet (net.Mask ip (net.CIDRMask n 128)) (net.CIDRMask n 128))).

(** The slice [requestVPNIP] computes and accepts when the cluster has
    [count] peers: the expressions of its body, without the receiver. *)
Definition assignedSlice (cidr : net.IPNet) (count : nat) : option net.IP :=
  let assignedIP := big.NewInt (int64 (Z.of_nat count + 1)) in
  let vpnNetwork := big.SetBytes (net.To16 (net.IPNet_IP cidr)) in
  let vpnAssignedIP := big.Add vpnNetwork assignedIP in
  if (length (big.Bytes vpnAssignedIP) <? 2)%nat then None
  else
    let vpnAssignedIPSlice :=
      if (length (big.Bytes vpnAssignedIP) =? net.IPv6len)%nat
      then big.Bytes vpnAssignedIP else skipn 2 (big.Bytes vpnAssignedIP) in
    if net.Contains cidr vpnAssignedIPSlice then Some vpnAssignedIPSlice else None.

(** The [Address] that [GenerateVPNPeer] stores for such a slice. *)
Definition peerAddress (ip : net.IP) : string :=
  let ipAddress := net.ParseIP (net.IP_String ip) in
  net.IPNet_String
    (if (length ipAddress =? net.IPv6len)%nat
     then net.mkIPNet ipAddress (net.CIDRMask 128 128)
     else net.mkIPNet ipAddress (net.CIDRMask 32 32)).

(** The [len]-byte big-endian form of [x]. *)
Fixpoint be_bytes (len : nat) (x : Z) : list byte :=
  match len with
  | O => []
  | S len' => z2b (x / 256 ^ Z.of_nat len') :: be_bytes len' x
  end.

(** The network address of [cidr] plus [k], as an address of the same
    length. *)
Definition networkPlus (cidr : net.IPNet) (k : Z) : net.IP :=
  be_bytes (length (net.IPNet_IP cidr)) (big.SetBytes (net.IPNet_IP cidr) + k).

(** That address is still one of the family and lies in the network. *)
Definition inNetwork (cidr : net.IPNet) (k : Z) : bool :=
  (big.SetBytes (net.IPNet_IP cidr) + k <? 256 ^ Z.of_nat (length (net.IPNet_IP cidr)))
  && net.Contains cidr (networkPlus cidr k).

(** *** Clusters *)

(** A cluster all of whose pointers are set. *)
Definition complete (c : Cluster) : Prop :=
  exists cas etcd api cidr,
    CertificateAuthorities_ c = Some cas /\ EtcdServer_ c = Some etcd
    /\ APIServer c = Some api /\ VPNCIDR c = Some cidr.

(** One of the pointers that [Export] dereferences is nil. *)
Definition nilPointer (c : Cluster) : Prop :=
  CertificateAuthorities_ c = None \/ EtcdServer_ c = None \/ APIServer c = None.

(** What holds of the peers of a cluster that was built: the peer at
    index [i] has the address assigned when there were [i] peers. *)
Definition peers_assigned (names : list string) (c : Cluster) : Prop :=
  exists cidr,
    VPNCIDR c = Some cidr /\ wellFormed cidr
    /\ Z.of_nat (length (VPNPeers c)) <= maxInt
    /\ map VPNPeer_Name (VPNPeers c) = "control-plane-ingress"%string :: names
    /\ forall i peer, nth_error (VPNPeers c) i = Some peer ->
         exists ip, assignedSlice cidr i = Some ip /\ VPNPeer_Address peer = peerAddress ip.

Section Built.

Variable newCertificateAuthorities : CertificateAuthorities + error.
Variable newEtcdServer : list string -> EtcdServer + error.
Variable newKubeAPIServer : list string -> KubeAPIServer + error.
Variable Key_String : wgtypes.Key -> string.
Variable Key_PublicKey : wgtypes.Key -> wgtypes.Key.

(** [built names c]: [c] was returned by a successful [NewCluster] and then
    went through successful calls of [GenerateVPNPeer], one for each of
    [names], in order. *)
Inductive built : list string -> Cluster -> Prop :=
| built_new clusterName vpnCIDR sans1 sans2 generated c :
    NewCluster newCertificateAuthorities newEtcdServer newKubeAPIServer
      Key_String Key_PublicKey clusterName vpnCIDR sans1 sans2 generated
    = Normal (Some c, None) ->
    built [] c
| built_peer names c peerName generated c' :
    built names c ->
    GenerateVPNPeer Key_String Key_PublicKey peerName generated c = Normal (None, c') ->
    built (names ++ [peerName]) c'.

End Built.

(** *** Prefix masks and the size of a network *)

(** One byte of a prefix mask, [n] one bits still to write. *)
Definition maskByte (n : Z) : byte :=
  if 8 <=? n then Byte.xff else z2b (Z.lxor (Z.shiftr 255 n) 255).

(** Masking a byte with a mask byte clears its low bits (a check that is
    run over all bytes and all mask bytes). *)
Definition maskByte_ok (n x : Z) : bool :=
  b2z (byte_and (z2b x) (maskByte n)) =? x / 2 ^ (8 - n) * 2 ^ (8 - n).

(** The number of addresses of a network: two to the number of bits that
    its mask leaves free. *)
Definition networkSize (cidr : net.IPNet) : Z :=
  2 ^ (8 * Z.of_nat (length (net.IPNet_IP cidr)) - net.simpleMaskLength (net.IPNet_Mask cidr)).

(** The prefix length [GenerateVPNPeer] prints after the address of a peer. *)
Definition hostSuffix (cidr : net.IPNet) : string :=
  if (length (net.IPNet_IP cidr) =? 4)%nat then "/32"%string else "/128"%string.

(** What a network fixes of the peers of a cluster: the peer at index [i]
    has the address of the network plus [i + 1], and the peers are fewer
    than the addresses of the network. *)
Definition peers_numbered (cidr : net.IPNet) (c : Cluster) : Prop :=
  VPNCIDR c = Some cidr
  /\ (forall i peer, nth_error (VPNPeers c) i = Some peer ->
        VPNPeer_Address peer
        = net.IP_String (networkPlus cidr (Z.of_nat i + 1)) +++ hostSuffix cidr)
  /\ (VPNPeers c = [] \/ Z.of_nat (length (VPNPeers c)) < networkSize cidr).

Section Grown.

Variable Key_String : wgtypes.Key -> string.
Variable Key_PublicKey : wgtypes.Key -> wgtypes.Key.

(** The peer [GenerateVPNPeer] appends when the cluster has [n] peers. *)
Definition nextPeer (cidr : net.IPNet) (n : Z) (peerName : string) (privateKey : wgtypes.Key)
  : VPNPeer :=
  mkVPNPeer peerName (net.IP_String (networkPlus cidr (n + 1)) +++ hostSuffix cidr)
    (Key_String privateKey) (Key_String (Key_PublicKey privateKey)).

(** [grown c0 names c]: [c] is [c0] after successful calls of
    [GenerateVPNPeer], one for each of [names], in order. *)
Inductive grown : Cluster -> list string -> Cluster -> Prop :=
| grown_nil c : grown c [] c
| grown_snoc c0 names c peerName generated c' :
    grown c0 names c ->
    GenerateVPNPeer Key_String Key_PublicKey peerName generated c = Normal (None, c') ->
    grown c0 (names ++ [peerName]) c'.

End Grown.

(** A concrete environment, for running the model: generation succeeds,
    keys print as their length, the scheme registers, and the encoder is
    told what to answer. *)
Definition someCertificate : certificates.Certificate :=
  certificates.mkCertificate "certificate" "private key".

Definition someAuthorities : CertificateAuthorities :=
  mkCertificateAuthorities someCertificate someCertificate someCertificate
    someCertificate someCertificate.

Definition someEtcdServer (extraSANs : list string) : EtcdServer + error :=
  inl (mkEtcdServer someCertificate "cert" "key" extraSANs).

Definition someKubeAPIServer (extraSANs : list string) : KubeAPIServer + error :=
  inl (mkKubeAPIServer someCertificate "cert" "key" "public" "private" extraSANs).

Definition printKey (k : wgtypes.Key) : string := net.uitoa (Z.of_nat (length k)).

Definition publicKey (k : wgtypes.Key) : wgtypes.Key := Byte.x01 :: k.

Definition someKey : wgtypes.Key * option error := ([Byte.x2a], None).

Definition newDemoCluster (vpnCIDR : string) : exec (option Cluster * option error) :=
  NewCluster (inl someAuthorities) someEtcdServer someKubeAPIServer printKey publicKey
    "demo" vpnCIDR [] [] someKey.

Definition encodeName (c : clusterv1alpha1.Cluster) : string * option error :=
  let name := clusterv1alpha1.ObjectMeta_Name (clusterv1alpha1.Cluster_ObjectMeta c) in
  if String.eqb name "broken" then (EmptyString, Some (External "yaml: unsupported"))
  else (name, None).

Definition clusterOn (vpnCIDR name : string) (peers : VPNPeerList) : Cluster :=
  {| Name := name; CertificateAuthorities_ := Some someAuthorities;
     EtcdServer_ := match someEtcdServer [] with inl e => Some e | inr _ => None end;
     APIServer := match someKubeAPIServer [] with inl a => Some a | inr _ => None end;
     StorageClientEndpoints := []; StoragePeerEndpoints := [];
     VPNCIDR := snd (fst (net.ParseCIDR vpnCIDR)); VPNPeers := peers |}.

Definition emptyCluster : string -> VPNPeerList -> Cluster := clusterOn "10.0.0.0/30".

Definition threePeers : Cluster :=
  emptyCluster "demo"
    [mkVPNPeer "a" "1" "" ""; mkVPNPeer "b" "2" "" ""; mkVPNPeer "b" "3" "" ""].

End props.

(** * Properties *)

Import gostring cluster props.

(** ** Lookup of a peer by name *)

Lemma VPNPeer_range_first (peers : VPNPeerList) (name : string) :
  (exists q, In q peers /\ VPNPeer_Name q = name) ->
  exists l1 p l2,
    peers = l1 ++ p :: l2 /\ VPNPeer_Name p = name
    /\ (forall q, In q l1 -> VPNPeer_Name q <> name)
    /\ VPNPeer_range peers name = Some p.
Proof.
  induction peers as [|a peers IH]; intros [q [Hin Hq]].
  - destruct Hin.
  - simpl. destruct (String.eqb (VPNPeer_Name a) name) eqn:E.
    + apply String.eqb_eq in E.
      exists [], a, peers. repeat split; auto.
    + apply String.eqb_neq in E.
      destruct Hin as [-> | Hin]; [contradiction|].
      destruct IH as (l1 & p & l2 & -> & Hp & Hl1 & Hr); [eauto|].
      exists (a :: l1), p, l2. repeat split; auto.
      intros q' [<- | Hq']; auto.
Qed.

Lemma VPNPeer_range_none (peers : VPNPeerList) (name : string) :
  (forall q, In q peers -> VPNPeer_Name q <> name) ->
  VPNPeer_range peers name = None.
Proof.
  induction peers as [|a peers IH]; intros H; simpl; [reflexivity|].
  destruct (String.eqb (VPNPeer_Name a) name) eqn:E.
  - apply String.eqb_eq in E. exfalso. apply (H a); simpl; auto.
  - apply IH. intros q Hq. apply H. simpl; auto.
Qed.

(** C9. [VPNPeer(name)] returns the first peer of the list that has the
    name, with a nil error, when there is one; it returns nil and the
    not-found error when there is none; the cluster is the same after the
    call in both cases. *)
Theorem VPNPeer_lookup (c : Cluster) (name : string) :
  ((exists q, In q (VPNPeers c) /\ VPNPeer_Name q = name) ->
   exists l1 p l2,
     VPNPeers c = l1 ++ p :: l2 /\ VPNPeer_Name p = name
     /\ (forall q, In q l1 -> VPNPeer_Name q <> name)
     /\ Cluster_VPNPeer name c = Normal ((Some p, None), c))
  /\
  ((forall q, In q (VPNPeers c) -> VPNPeer_Name q <> name) ->
   Cluster_VPNPeer name c
   = Normal ((None, Some (Errorf "vpn peer %q not found" name)), c)).
Proof.
  split.
  - intros H. destruct (VPNPeer_range_first _ _ H) as (l1 & p & l2 & E & Hp & Hl & Hr).
    exists l1, p, l2. repeat split; auto.
    unfold Cluster_VPNPeer, bind, receiver, ret. now rewrite Hr.
  - intros H. unfold Cluster_VPNPeer, bind, receiver, ret.
    now rewrite (VPNPeer_range_none _ _ H).
Qed.

Lemma VPNPeer_lookup_witness :
  (exists l1 p l2,
     VPNPeers threePeers = l1 ++ p :: l2 /\ VPNPeer_Name p = "b"%string
     /\ (forall q, In q l1 -> VPNPeer_Name q <> "b"%string)
     /\ Cluster_VPNPeer "b" threePeers = Normal ((Some p, None), threePeers))
  /\
  Cluster_VPNPeer "z" threePeers
  = Normal ((None, Some (Errorf "vpn peer %q not found" "z")), threePeers).
Proof.
  split.
  - apply (proj1 (VPNPeer_lookup threePeers "b")).
    exists (mkVPNPeer "b" "3" "" ""). simpl. auto.
  - apply (proj2 (VPNPeer_lookup threePeers "z")).
    intros q [<- | [<- | [<- | []]]]; discriminate.
Defined.

(** ** Facts about strings *)

Lemma sapp_assoc (a b c : string) : (a +++ b) +++ c = a +++ b +++ c.
Proof. induction a as [|x a IH]; simpl; [reflexivity | now rewrite IH]. Qed.

Lemma sapp_nil_r (a : string) : a +++ EmptyString = a.
Proof. induction a as [|x a IH]; simpl; [reflexivity | now rewrite IH]. Qed.

Lemma slength_app (a b : string) :
  String.length (a +++ b) = (String.length a + String.length b)%nat.
Proof. induction a as [|x a IH]; simpl; [reflexivity | now rewrite IH]. Qed.

Lemma prefix_refl (s : string) : String.prefix s s = true.
Proof.
  induction s as [|x s IH]; simpl; [reflexivity|].
  destruct (ascii_dec x x); [assumption | contradiction].
Qed.

Lemma contains_refl (s : string) : contains s s = true.
Proof.
  destruct s as [|x s]; [reflexivity|].
  change (String.prefix (String x s) (String x s) || contains (String x s) s = true).
  now rewrite prefix_refl.
Qed.

(** ** The frame of [GenerateVPNPeer] *)

Section Peers.

Variable Key_String : wgtypes.Key -> string.
Variable Key_PublicKey : wgtypes.Key -> wgtypes.Key.

Local Abbreviation GenerateVPNPeer := (cluster.GenerateVPNPeer Key_String Key_PublicKey).

Lemma requestVPNIP_reads (c : Cluster) (r : string * option error) (c' : Cluster) :
  requestVPNIP c = Normal (r, c') -> c' = c.
Proof.
  unfold requestVPNIP, bind, receiver, ret, panic.
  destruct (VPNCIDR c); [|discriminate].
  repeat match goal with
         | |- context [if ?b then _ else _] => destruct b
         end; try discriminate; now intros [= _ ->].
Qed.

(** C10. [GenerateVPNPeer] changes nothing but the peer list: when it
    succeeds the list is the old one with one peer of the given name added
    at the end, and every other field is as before; when it returns an
    error the cluster is as before. *)
Theorem GenerateVPNPeer_frame (peerName : string)
    (generated : wgtypes.Key * option error) (c : Cluster) :
  match GenerateVPNPeer peerName generated c with
  | Normal (None, c') =>
      (exists peer, VPNPeers c' = VPNPeers c ++ [peer] /\ VPNPeer_Name peer = peerName)
      /\ Name c' = Name c
      /\ CertificateAuthorities_ c' = CertificateAuthorities_ c
      /\ EtcdServer_ c' = EtcdServer_ c
      /\ APIServer c' = APIServer c
      /\ StorageClientEndpoints c' = StorageClientEndpoints c
      /\ StoragePeerEndpoints c' = StoragePeerEndpoints c
      /\ VPNCIDR c' = VPNCIDR c
  | Normal (Some _, c') => c' = c
  | Panicked => True
  end.
Proof.
  unfold cluster.GenerateVPNPeer, bind.
  destruct (requestVPNIP c) as [[[ip err] c1]|] eqn:R; [|exact I].
  apply requestVPNIP_reads in R. subst c1.
  destruct err as [err|]; [reflexivity|].
  destruct generated as [privateKey [err|]]; [reflexivity|].
  unfold receiver, append.
  destruct (maxInt <=? Z.of_nat (length (VPNPeers c))); [exact I|].
  cbn. repeat split. eexists. split; reflexivity.
Qed.

End Peers.

(** ** Construction *)

Section Construction.

Variable newCertificateAuthorities : CertificateAuthorities + error.
Variable newEtcdServer : list string -> EtcdServer + error.
Variable newKubeAPIServer : list string -> KubeAPIServer + error.
Variable Key_String : wgtypes.Key -> string.
Variable Key_PublicKey : wgtypes.Key -> wgtypes.Key.

Local Abbreviation NewCluster :=
  (cluster.NewCluster newCertificateAuthorities newEtcdServer newKubeAPIServer
     Key_String Key_PublicKey).
Local Abbreviation GenerateVPNPeer := (cluster.GenerateVPNPeer Key_String Key_PublicKey).

(** What a successful [NewCluster] went through. *)
Lemma NewCluster_success (clusterName vpnCIDR : string) (sans1 sans2 : list string)
    (generated : wgtypes.Key * option error) (c : Cluster) (e : option error) :
  NewCluster clusterName vpnCIDR sans1 sans2 generated = Normal (Some c, e) ->
  exists ip cidr cas etcd api,
    net.ParseCIDR vpnCIDR = (ip, cidr, None)
    /\ newCertificateAuthorities = inl cas
    /\ newEtcdServer sans1 = inl etcd
    /\ newKubeAPIServer sans2 = inl api
    /\ e = None
    /\ GenerateVPNPeer "control-plane-ingress" generated
         (mkCluster clusterName (Some cas) (Some etcd) (Some api) [] [] cidr [])
       = Normal (None, c).
Proof.
  unfold cluster.NewCluster.
  destruct (net.ParseCIDR vpnCIDR) as [[ip cidr] [err|]]; [discriminate|].
  unfold generateCertificates.
  destruct newCertificateAuthorities as [cas|err]; [|discriminate].
  cbn [pointer_and_error bind assign].
  destruct (newEtcdServer sans1) as [etcd|err]; [|discriminate].
  cbn [pointer_and_error bind assign].
  destruct (newKubeAPIServer sans2) as [api|err]; [|discriminate].
  cbn [pointer_and_error bind assign ret set_CertificateAuthorities set_EtcdServer
       set_APIServer Name CertificateAuthorities_ EtcdServer_ APIServer
       StorageClientEndpoints StoragePeerEndpoints VPNCIDR VPNPeers].
  destruct (cluster.GenerateVPNPeer _ _ _ _ _) as [[[err|] c']|] eqn:G; try discriminate.
  intros [= -> <-]. exists ip, cidr, cas, etcd, api. repeat split. exact G.
Qed.

End Construction.

(** ** Serialization *)

Lemma concat_cons (d : string) (docs : list string) :
  String.concat EmptyString (d :: docs) = d +++ String.concat EmptyString docs.
Proof. destruct docs; simpl; [now rewrite sapp_nil_r | reflexivity]. Qed.

Section Serialization.

Variable AddToScheme : option error.
Variable Encode : clusterv1alpha1.Cluster -> string * option error.

Local Abbreviation Specs := (cluster.Specs AddToScheme Encode).
Local Abbreviation Map_Specs := (cluster.Map_Specs AddToScheme Encode).
Local Abbreviation documents := (props.documents AddToScheme Encode).

Lemma Map_Specs_range_documents (clusterMap : Map) (res : string) :
  Map_Specs_range AddToScheme Encode clusterMap res
  = match documents clusterMap with
    | Some docs => Normal (res +++ String.concat EmptyString docs, None)
    | None => Panicked
    end.
Proof.
  revert res. induction clusterMap as [|[key member] rest IH]; intros res.
  - simpl. now rewrite sapp_nil_r.
  - cbn [Map_Specs_range props.documents].
    destruct (Specs member) as [[[clusterSpec [err|]] c']|].
    + rewrite IH. destruct (documents rest); reflexivity.
    + rewrite IH. destruct (documents rest) as [docs|]; [|reflexivity].
      now rewrite concat_cons, sapp_assoc.
    + reflexivity.
Qed.

(** C7. [Map.Specs] returns, with a nil error, the concatenation of the
    documents of the members that serialize, each the separator line
    [---] followed by the member's specs; a member whose [Specs] returns
    an error contributes nothing and does not stop the loop.  (The call
    panics exactly when the serialization of a member panics.) *)
Theorem Map_Specs_concatenates (clusterMap : Map) :
  Map_Specs clusterMap
  = match documents clusterMap with
    | Some docs => Normal (String.concat EmptyString docs, None)
    | None => Panicked
    end.
Proof. unfold cluster.Map_Specs. now rewrite Map_Specs_range_documents. Qed.

Lemma Specs_returns (c : Cluster) (s : string) (e : option error) (c' : Cluster) :
  Specs c = Normal ((s, e), c') ->
  c' = c
  /\ (AddToScheme = e /\ e <> None /\ s = EmptyString
      \/ AddToScheme = None
         /\ exists clusterObject,
              Export c = Normal (clusterObject, c)
              /\ (Encode clusterObject = (s, None) /\ e = None
                  \/ (exists s' e', Encode clusterObject = (s', Some e'))
                     /\ s = EmptyString
                     /\ e = Some (Errorf "could not encode cluster %q" (Name c)))).
Proof.
  unfold cluster.Specs. destruct AddToScheme as [err|].
  - intros [= <- <- <-]. split; [reflexivity|]. left. repeat split. discriminate.
  - cbv beta iota delta [Export bind receiver ret panic].
    destruct (CertificateAuthorities_ c) eqn:E1; [|discriminate].
    destruct (APIServer c) eqn:E2; [|discriminate].
    destruct (EtcdServer_ c) eqn:E3; [|discriminate].
    match goal with |- context [Encode ?o] => set (obj := o) end.
    destruct (Encode obj) as [s' [e'|]] eqn:En; intros [= <- <- <-];
      (split; [reflexivity|]); right; (split; [reflexivity|]); exists obj;
      (split; [reflexivity|]).
    + right. repeat split. eauto.
    + left. split; [exact En | reflexivity].
Qed.

(** C8, as the code has it.  When [Specs] returns an error, either the
    registration of the types in the scheme failed and the error is that
    failure, returned as it is, or the encoding failed and the error is the
    encoding error, which names the cluster. *)
Theorem Specs_error (c : Cluster) (s : string) (e : error) (c' : Cluster) :
  Specs c = Normal ((s, Some e), c') ->
  AddToScheme = Some e
  \/ AddToScheme = None
     /\ e = Errorf "could not encode cluster %q" (Name c)
     /\ error_names e (Name c) = true.
Proof.
  intros H. apply Specs_returns in H. destruct H as [_ [[H _] | [H1 [obj [_ H2]]]]].
  - now left.
  - right. split; [assumption|].
    destruct H2 as [[_ H2] | [_ [_ H2]]]; [discriminate|].
    injection H2 as ->. split; [reflexivity|]. apply contains_refl.
Qed.

End Serialization.

(** C8, as stated, fails: an error of the scheme registration is returned
    as it is and need not name the cluster. *)
Lemma Specs_error_may_not_name_cluster :
  ~ (forall (AddToScheme : option error)
            (Encode : clusterv1alpha1.Cluster -> string * option error)
            (c : Cluster) (s : string) (e : error) (c' : Cluster),
        Specs AddToScheme Encode c = Normal ((s, Some e), c') ->
        error_names e (Name c) = true).
Proof.
  intros H.
  specialize (H (Some (External "no kind is registered for the type")) encodeName
                (emptyCluster "demo" []) EmptyString
                (External "no kind is registered for the type")
                (emptyCluster "demo" []) eq_refl).
  vm_compute in H. discriminate H.
Qed.

Lemma Specs_error_witness :
  None = Some (Errorf "could not encode cluster %q" "broken")
  \/ None (A := error) = None
     /\ Errorf "could not encode cluster %q" "broken"
        = Errorf "could not encode cluster %q" (Name (emptyCluster "broken" []))
     /\ error_names (Errorf "could not encode cluster %q" "broken")
          (Name (emptyCluster "broken" [])) = true.
Proof.
  apply (Specs_error None encodeName (emptyCluster "broken" []) EmptyString
           (Errorf "could not encode cluster %q" "broken") (emptyCluster "broken" [])).
  reflexivity.
Defined.

(** ** The two scenarios *)

Section Scenarios.

Variable newCertificateAuthorities : CertificateAuthorities + error.
Variable newEtcdServer : list string -> EtcdServer + error.
Variable newKubeAPIServer : list string -> KubeAPIServer + error.
Variable Key_String : wgtypes.Key -> string.
Variable Key_PublicKey : wgtypes.Key -> wgtypes.Key.

Local Abbreviation NewCluster :=
  (cluster.NewCluster newCertificateAuthorities newEtcdServer newKubeAPIServer
     Key_String Key_PublicKey).
Local Abbreviation GenerateVPNPeer := (cluster.GenerateVPNPeer Key_String Key_PublicKey).

(** C5. A successful [NewCluster("demo", "10.0.0.0/16", ...)] yields a
    cluster with exactly one peer, named [control-plane-ingress], at
    [10.0.0.1/32]; a successful [GenerateVPNPeer("worker-1")] on it appends
    a peer at [10.0.0.2/32]. *)
Theorem demo_scenario (sans1 sans2 : list string)
    (generated : wgtypes.Key * option error) (c : Cluster) :
  NewCluster "demo" "10.0.0.0/16" sans1 sans2 generated = Normal (Some c, None) ->
  (exists privateKey publicKey,
     VPNPeers c = [mkVPNPeer "control-plane-ingress" "10.0.0.1/32" privateKey publicKey])
  /\ forall generated' c',
       GenerateVPNPeer "worker-1" generated' c = Normal (None, c') ->
       exists privateKey publicKey,
         VPNPeers c' = VPNPeers c ++ [mkVPNPeer "worker-1" "10.0.0.2/32" privateKey publicKey].
Proof.
  intros H. apply NewCluster_success in H.
  destruct H as (ip & cidr & cas & etcd & api & HP & _ & _ & _ & _ & G).
  vm_compute in HP. injection HP as _ <-.
  destruct generated as [k [err|]]; vm_compute in G; [discriminate G|].
  injection G as <-.
  split; [eexists _, _; reflexivity|].
  intros [k' [err|]] c' G'; vm_compute in G'; [discriminate G'|].
  injection G' as <-.
  eexists _, _; reflexivity.
Qed.

(** C6. With the CIDR [10.0.0.0/31], [NewCluster] succeeds whenever the
    certificates and the key of the first peer are generated, the cluster
    having the single peer at [10.0.0.1/32]; every later
    [GenerateVPNPeer] on that cluster returns the exhaustion error and
    leaves the cluster, with its one peer, as it is. *)
Theorem slash31_scenario (clusterName : string) (sans1 sans2 : list string)
    (cas : CertificateAuthorities) (etcd : EtcdServer) (api : KubeAPIServer)
    (privateKey : wgtypes.Key) :
  newCertificateAuthorities = inl cas ->
  newEtcdServer sans1 = inl etcd ->
  newKubeAPIServer sans2 = inl api ->
  exists c,
    NewCluster clusterName "10.0.0.0/31" sans1 sans2 (privateKey, None)
    = Normal (Some c, None)
    /\ (exists peer, VPNPeers c = [peer] /\ VPNPeer_Address peer = "10.0.0.1/32"%string)
    /\ forall peerName generated,
         GenerateVPNPeer peerName generated c
         = Normal (Some (Errorf "not enough IP addresses to assign in the %q CIDR"
                                "10.0.0.0/31"), c).
Proof.
  intros H1 H2 H3. unfold cluster.NewCluster, generateCertificates.
  rewrite H1, H2, H3. eexists. split; [vm_compute; reflexivity|].
  split; [eexists; split; reflexivity|].
  intros peerName generated. reflexivity.
Qed.

End Scenarios.

Lemma demo_scenario_witness :
  exists c,
    newDemoCluster "10.0.0.0/16" = Normal (Some c, None)
    /\ (exists privateKey publicKey,
          VPNPeers c
          = [mkVPNPeer "control-plane-ingress" "10.0.0.1/32" privateKey publicKey])
    /\ forall generated' c',
         GenerateVPNPeer printKey publicKey "worker-1" generated' c = Normal (None, c') ->
         exists privateKey publicKey,
           VPNPeers c'
           = VPNPeers c ++ [mkVPNPeer "worker-1" "10.0.0.2/32" privateKey publicKey].
Proof.
  eexists. split; [vm_compute; reflexivity|].
  apply (demo_scenario (inl someAuthorities) someEtcdServer someKubeAPIServer
           printKey publicKey [] [] someKey).
  vm_compute. reflexivity.
Defined.

Lemma slash31_scenario_witness :
  exists c,
    newDemoCluster "10.0.0.0/31" = Normal (Some c, None)
    /\ (exists peer, VPNPeers c = [peer] /\ VPNPeer_Address peer = "10.0.0.1/32"%string)
    /\ forall peerName generated,
         GenerateVPNPeer printKey publicKey peerName generated c
         = Normal (Some (Errorf "not enough IP addresses to assign in the %q CIDR"
                                "10.0.0.0/31"), c).
Proof.
  apply (slash31_scenario (inl someAuthorities) someEtcdServer someKubeAPIServer
           printKey publicKey "demo" [] [] someAuthorities
           (mkEtcdServer someCertificate "cert" "key" [])
           (mkKubeAPIServer someCertificate "cert" "key" "public" "private" [])
           [Byte.x2a]); reflexivity.
Defined.
(** ** Bytes and big-endian numbers *)

Lemma b2z_range (b : byte) : 0 <= b2z b < 256.
Proof.
  unfold b2z. pose proof (Byte.to_N_bounded b). lia.
Qed.

Lemma z2b_b2z (b : byte) : z2b (b2z b) = b.
Proof.
  unfold z2b. pose proof (b2z_range b) as H.
  rewrite Z.mod_small by exact H. unfold b2z. rewrite N2Z.id.
  now rewrite Byte.of_to_N.
Qed.

Lemma b2z_z2b (z : Z) : b2z (z2b z) = z mod 256.
Proof.
  unfold z2b, b2z. pose proof (Z.mod_pos_bound z 256 ltac:(lia)) as H.
  destruct (Byte.of_N (Z.to_N (z mod 256))) as [b|] eqn:E.
  - apply Byte.to_of_N in E. rewrite E. lia.
  - apply Byte.of_N_None_iff in E. lia.
Qed.

Lemma b2z_inj (a b : byte) : b2z a = b2z b -> a = b.
Proof. intros H. rewrite <- (z2b_b2z a), <- (z2b_b2z b). now rewrite H. Qed.

Lemma b2z_zero (b : byte) : b2z b = 0 <-> b = Byte.x00.
Proof.
  split; [|intros ->; reflexivity]. intros H. apply b2z_inj. rewrite H. reflexivity.
Qed.

Lemma fold_SetBytes (l : list byte) (a : Z) :
  fold_left (fun acc b => acc * 256 + b2z b) l a
  = a * 256 ^ Z.of_nat (length l) + big.SetBytes l.
Proof.
  unfold big.SetBytes. revert a. induction l as [|x l IH]; intros a.
  - simpl. lia.
  - cbn [fold_left length]. rewrite IH, (IH (0 * 256 + b2z x)).
    rewrite Nat2Z.inj_succ, Z.pow_succ_r by lia. ring.
Qed.

Lemma SetBytes_cons (x : byte) (l : list byte) :
  big.SetBytes (x :: l) = b2z x * 256 ^ Z.of_nat (length l) + big.SetBytes l.
Proof.
  unfold big.SetBytes at 1. cbn [fold_left]. rewrite fold_SetBytes. lia.
Qed.

Lemma SetBytes_app (l1 l2 : list byte) :
  big.SetBytes (l1 ++ l2)
  = big.SetBytes l1 * 256 ^ Z.of_nat (length l2) + big.SetBytes l2.
Proof.
  unfold big.SetBytes at 1. rewrite fold_left_app, fold_SetBytes. reflexivity.
Qed.

Lemma SetBytes_range (l : list byte) :
  0 <= big.SetBytes l < 256 ^ Z.of_nat (length l).
Proof.
  induction l as [|x l IH].
  - cbn. lia.
  - rewrite SetBytes_cons. cbn [length]. rewrite Nat2Z.inj_succ, Z.pow_succ_r by lia.
    pose proof (b2z_range x). nia.
Qed.

Lemma SetBytes_inj (l1 l2 : list byte) :
  length l1 = length l2 -> big.SetBytes l1 = big.SetBytes l2 -> l1 = l2.
Proof.
  revert l2. induction l1 as [|x l1 IH]; intros [|y l2] L H; try discriminate L.
  - reflexivity.
  - injection L as L. rewrite !SetBytes_cons, L in H.
    pose proof (SetBytes_range l1) as R1. pose proof (SetBytes_range l2) as R2.
    pose proof (b2z_range x). pose proof (b2z_range y). rewrite L in R1.
    assert (b2z x = b2z y) by nia.
    f_equal; [now apply b2z_inj | apply IH; [assumption | nia]].
Qed.

Lemma canonical_lower (l : list byte) :
  canonical l -> l <> [] -> 256 ^ (Z.of_nat (length l) - 1) <= big.SetBytes l.
Proof.
  destruct l as [|x l]; [congruence|]. intros C _.
  rewrite SetBytes_cons. cbn [length]. rewrite Nat2Z.inj_succ.
  replace (Z.succ (Z.of_nat (length l)) - 1) with (Z.of_nat (length l)) by lia.
  pose proof (SetBytes_range l). pose proof (b2z_range x).
  assert (b2z x <> 0) by (rewrite b2z_zero; exact C). nia.
Qed.

Lemma canonical_length (l1 l2 : list byte) :
  canonical l1 -> canonical l2 -> big.SetBytes l1 = big.SetBytes l2 ->
  length l1 = length l2.
Proof.
  assert (W : forall a b : list byte,
             canonical a -> big.SetBytes a = big.SetBytes b ->
             (length a <= length b)%nat).
  { intros a b Ca E. destruct a as [|x a]; [cbn; lia|].
    pose proof (canonical_lower (x :: a) Ca ltac:(discriminate)) as Lo.
    pose proof (SetBytes_range b) as [_ Hi]. rewrite E in Lo.
    destruct (Nat.le_gt_cases (length (x :: a)) (length b)) as [|G]; [assumption|].
    exfalso. assert (256 ^ Z.of_nat (length b) <= 256 ^ (Z.of_nat (length (x :: a)) - 1))
      by (apply Z.pow_le_mono_r; lia). lia. }
  intros C1 C2 E. apply Nat.le_antisymm; [apply W | apply W]; auto.
Qed.

Lemma canonical_unique (l1 l2 : list byte) :
  canonical l1 -> canonical l2 -> big.SetBytes l1 = big.SetBytes l2 -> l1 = l2.
Proof.
  intros C1 C2 E. apply SetBytes_inj; [now apply canonical_length | exact E].
Qed.

Lemma digits_le_value (fuel : nat) (x : Z) :
  0 <= x < 2 ^ Z.of_nat fuel ->
  big.SetBytes (rev (big.digits_le fuel x)) = x.
Proof.
  revert x. induction fuel as [|fuel IH]; intros x H.
  - cbn in *. lia.
  - cbn [big.digits_le]. destruct (Z.eqb_spec x 0) as [->|N]; [reflexivity|].
    cbn [rev]. rewrite SetBytes_app. cbn [length].
    rewrite IH.
    + change (big.SetBytes [z2b (x mod 256)]) with (0 * 256 + b2z (z2b (x mod 256))).
      change (Z.of_nat 1) with 1. rewrite b2z_z2b, Z.pow_1_r, Zmod_mod.
      pose proof (Z.div_mod x 256 ltac:(lia)). unfold big.Int in *. lia.
    + rewrite Nat2Z.inj_succ, Z.pow_succ_r in H by lia.
      split; [apply Z.div_pos; lia|].
      apply Z.div_lt_upper_bound; lia.
Qed.

Lemma digits_le_canonical (fuel : nat) (x : Z) :
  0 <= x < 2 ^ Z.of_nat fuel -> canonical (rev (big.digits_le fuel x)).
Proof.
  revert x. induction fuel as [|fuel IH]; intros x H.
  - exact I.
  - cbn [big.digits_le]. destruct (Z.eqb_spec x 0) as [->|N]; [exact I|].
    cbn [rev].
    assert (H' : 0 <= x / 256 < 2 ^ Z.of_nat fuel).
    { rewrite Nat2Z.inj_succ, Z.pow_succ_r in H by lia.
      split; [apply Z.div_pos; lia | apply Z.div_lt_upper_bound; lia]. }
    specialize (IH _ H').
    destruct (Z.eq_dec (x / 256) 0) as [E|NE].
    + rewrite E. replace (big.digits_le fuel 0) with (@nil byte) by (now destruct fuel).
      cbn. intros Z0. apply (f_equal b2z) in Z0. rewrite b2z_z2b in Z0.
      change (b2z Byte.x00) with 0 in Z0. rewrite Zmod_mod in Z0.
      clear - N E Z0. pose proof (Z.div_mod x 256 ltac:(lia)). lia.
    + destruct fuel as [|fuel']; [cbn in H'; lia|].
      cbn [big.digits_le] in *. destruct (Z.eqb_spec (x / 256) 0) as [E|_]; [contradiction|].
      cbn [rev] in *.
      destruct (rev (big.digits_le fuel' (x / 256 / 256)) ++ [z2b ((x / 256) mod 256)])
        as [|y ys] eqn:E; [destruct (rev _); discriminate E|].
      exact IH.
Qed.

Lemma Bytes_fuel (x : Z) : 0 <= x -> 0 <= x < 2 ^ Z.of_nat (S (Z.to_nat (Z.log2 x))).
Proof.
  intros H. split; [assumption|].
  rewrite Nat2Z.inj_succ, Z2Nat.id by apply Z.log2_nonneg.
  destruct (Z.eq_dec x 0) as [->|N]; [cbn; lia|].
  apply Z.log2_spec. lia.
Qed.

Lemma SetBytes_Bytes (x : Z) : 0 <= x -> big.SetBytes (big.Bytes x) = x.
Proof.
  intros H. unfold big.Bytes. rewrite Z.abs_eq by assumption.
  apply digits_le_value, Bytes_fuel, H.
Qed.

Lemma Bytes_canonical (x : Z) : canonical (big.Bytes x).
Proof.
  unfold big.Bytes. apply digits_le_canonical, Bytes_fuel, Z.abs_nonneg.
Qed.

(** [Bytes] is the canonical big-endian form. *)
Lemma Bytes_of_canonical (l : list byte) :
  canonical l -> big.Bytes (big.SetBytes l) = l.
Proof.
  intros C. apply canonical_unique; [apply Bytes_canonical | exact C |].
  apply SetBytes_Bytes, SetBytes_range.
Qed.

(** ** Text: decimal numbers and dotted addresses *)

Lemma all_from_spec (count : nat) (from : Z) (p : Z -> bool) :
  all_from count from p = true ->
  forall k, from <= k < from + Z.of_nat count -> p k = true.
Proof.
  revert from. induction count as [|count IH]; intros from H k Hk.
  - cbn in Hk. lia.
  - cbn [all_from] in H. apply andb_true_iff in H. destruct H as [H0 H].
    destruct (Z.eq_dec k from) as [->|N]; [assumption|].
    apply (IH (from + 1)); [assumption | lia].
Qed.

Lemma drop_app (a r : string) : drop (String.length a) (a +++ r) = r.
Proof. induction a as [|x a IH]; [now destruct r | exact IH]. Qed.

Lemma take_app (a r : string) : take (String.length a) (a +++ r) = a.
Proof. induction a as [|x a IH]; [now destruct r | cbn; now rewrite IH]. Qed.

Lemma get_app (a : string) (c : ascii) (r : string) :
  String.get (String.length a) (a +++ String c r) = Some c.
Proof. induction a as [|x a IH]; [reflexivity | exact IH]. Qed.

Lemma slen_app (a r : string) : net.slen (a +++ r) = net.slen a + net.slen r.
Proof. unfold net.slen. rewrite slength_app. lia. Qed.

Lemma sapp_cancel_r (a b t : string) : a +++ t = b +++ t -> a = b.
Proof.
  revert b. induction a as [|x a IH]; intros [|y b] H.
  - reflexivity.
  - apply (f_equal String.length) in H. cbn in H. rewrite slength_app in H. lia.
  - apply (f_equal String.length) in H. cbn in H. rewrite slength_app in H. lia.
  - cbn in H. injection H as -> H. f_equal. now apply IH.
Qed.

Lemma IndexByteString_app (a : string) (c : ascii) (r : string) :
  all_chars (fun x => negb (Ascii.eqb x c)) a = true ->
  IndexByteString (a +++ String c r) c = Some (String.length a).
Proof.
  induction a as [|x a IH]; intros H.
  - cbn. now rewrite Ascii.eqb_refl.
  - cbn in H |- *. apply andb_true_iff in H. destruct H as [Hx H].
    apply negb_true_iff in Hx. rewrite Hx, (IH H). reflexivity.
Qed.

Lemma all_chars_app (p : ascii -> bool) (a b : string) :
  all_chars p (a +++ b) = all_chars p a && all_chars p b.
Proof. induction a as [|x a IH]; cbn; [reflexivity | now rewrite IH, andb_assoc]. Qed.

Lemma all_chars_weaken (p q : ascii -> bool) (s : string) :
  (forall c, p c = true -> q c = true) -> all_chars p s = true -> all_chars q s = true.
Proof.
  intros W. induction s as [|x s IH]; cbn; [reflexivity|].
  intros H. apply andb_true_iff in H. destruct H as [Hx H].
  now rewrite (W _ Hx), (IH H).
Qed.

Lemma dtoi_loop_app (s r : string) (n : Z) (i : nat) :
  all_chars isDigit s = true -> stops isDigit r = true ->
  net.dtoi_loop (s +++ r) n i = net.dtoi_loop s n i.
Proof.
  revert n i. induction s as [|x s IH]; intros n i Hs Hr.
  - cbn [String.append]. destruct r as [|c r]; [reflexivity|].
    cbn in Hr. apply negb_true_iff in Hr. cbn [net.dtoi_loop]. now rewrite Hr.
  - cbn in Hs. apply andb_true_iff in Hs. destruct Hs as [Hx Hs].
    cbn [String.append net.dtoi_loop]. rewrite Hx.
    destruct (net.big <=? _); [reflexivity|]. now apply IH.
Qed.

Lemma ubtoa_facts (b : byte) :
  all_chars isDigit (net.ubtoa b) = true
  /\ net.dtoi (net.ubtoa b) = (b2z b, String.length (net.ubtoa b), true)
  /\ (0 <? net.slen (net.ubtoa b)) = true.
Proof. destruct b; vm_compute; repeat split. Qed.

Lemma dtoi_ubtoa (b : byte) (r : string) :
  stops isDigit r = true ->
  net.dtoi (net.ubtoa b +++ r) = (b2z b, String.length (net.ubtoa b), true).
Proof.
  intros H. destruct (ubtoa_facts b) as (D & E & _).
  unfold net.dtoi in *. now rewrite dtoi_loop_app.
Qed.

Lemma slen_ubtoa_app (b : byte) (r : string) : (net.slen (net.ubtoa b +++ r) =? 0) = false.
Proof.
  destruct (ubtoa_facts b) as (_ & _ & L). rewrite slen_app.
  apply Z.ltb_lt in L. apply Z.eqb_neq. unfold net.slen in *. lia.
Qed.

Lemma parseIPv4_first (todo : nat) (b : byte) (r : string) (p : list byte) :
  stops isDigit r = true ->
  net.parseIPv4_loop (S todo) 0 (net.ubtoa b +++ r) p
  = net.parseIPv4_loop todo 1 r (p ++ [b]).
Proof.
  intros H. cbn [net.parseIPv4_loop]. rewrite slen_ubtoa_app.
  change (0 <? 0)%nat with false. cbv beta iota.
  rewrite (dtoi_ubtoa b r H). cbv beta iota.
  pose proof (b2z_range b) as R.
  replace (255 <? b2z b) with false by (symmetry; apply Z.ltb_ge; lia).
  cbn [negb orb]. now rewrite drop_app, z2b_b2z.
Qed.

Lemma parseIPv4_next (todo i : nat) (b : byte) (r : string) (p : list byte) :
  stops isDigit r = true ->
  net.parseIPv4_loop (S todo) (S i) ("." +++ net.ubtoa b +++ r) p
  = net.parseIPv4_loop todo (S (S i)) r (p ++ [b]).
Proof.
  intros H. cbn [net.parseIPv4_loop String.append].
  replace (net.slen (String "." (net.ubtoa b +++ r)) =? 0) with false
    by (unfold net.slen; cbn [String.length]; symmetry; apply Z.eqb_neq; lia).
  change (0 <? S i)%nat with true. cbv beta iota.
  change (Ascii.eqb "." ".") with true. cbv beta iota.
  rewrite (dtoi_ubtoa b r H). cbv beta iota.
  pose proof (b2z_range b) as R.
  replace (255 <? b2z b) with false by (symmetry; apply Z.ltb_ge; lia).
  cbn [negb orb]. now rewrite drop_app, z2b_b2z.
Qed.

Lemma parseIPv4_dotted (a b c d : byte) : net.parseIPv4 (dotted a b c d) = net.IPv4 a b c d.
Proof.
  unfold net.parseIPv4, dotted. change net.IPv4len with 4%nat.
  rewrite <- (sapp_nil_r (net.ubtoa d)).
  rewrite parseIPv4_first by reflexivity.
  rewrite !parseIPv4_next by reflexivity.
  reflexivity.
Qed.

(** ** Text: hexadecimal groups *)

Lemma hex_ok_all : all_from (Z.to_nat 65536) 0 hex_ok = true.
Proof. vm_compute. reflexivity. Qed.

Lemma appendHex_facts (g : Z) :
  0 <= g < 65536 ->
  all_chars net.isHex (net.appendHex g) = true
  /\ net.xtoi (net.appendHex g) = (g, String.length (net.appendHex g), true)
  /\ (0 <? net.slen (net.appendHex g)) = true.
Proof.
  intros R. pose proof (all_from_spec _ _ _ hex_ok_all g ltac:(lia)) as H.
  unfold hex_ok in H. destruct (net.xtoi (net.appendHex g)) as [[n c] ok].
  apply andb_true_iff in H. destruct H as [H _].
  apply andb_true_iff in H. destruct H as [H H5].
  apply andb_true_iff in H. destruct H as [H H4].
  apply andb_true_iff in H. destruct H as [H H3].
  apply andb_true_iff in H. destruct H as [H1 H2].
  apply Z.eqb_eq in H2. apply Nat.eqb_eq in H3. subst n c ok.
  repeat split; assumption.
Qed.

Lemma xtoi_loop_app (s r : string) (n : Z) (i : nat) :
  all_chars net.isHex s = true -> stops net.isHex r = true ->
  net.xtoi_loop (s +++ r) n i = net.xtoi_loop s n i.
Proof.
  revert n i. induction s as [|x s IH]; intros n i Hs Hr.
  - cbn [String.append]. destruct r as [|c r]; [reflexivity|].
    cbn in Hr. apply negb_true_iff in Hr. unfold net.isHex in Hr.
    apply orb_false_iff in Hr. destruct Hr as [Hr H3].
    apply orb_false_iff in Hr. destruct Hr as [H1 H2].
    cbn [net.xtoi_loop]. now rewrite H1, H2, H3.
  - cbn in Hs. apply andb_true_iff in Hs. destruct Hs as [Hx Hs].
    cbn [String.append net.xtoi_loop].
    destruct (net.inRange "0" "9" x);
      [destruct (net.big <=? _); [reflexivity | now apply IH]|].
    destruct (net.inRange "a" "f" x);
      [destruct (net.big <=? _); [reflexivity | now apply IH]|].
    destruct (net.inRange "A" "F" x);
      [destruct (net.big <=? _); [reflexivity | now apply IH]|].
    reflexivity.
Qed.

Lemma xtoi_appendHex (g : Z) (r : string) :
  0 <= g < 65536 -> stops net.isHex r = true ->
  net.xtoi (net.appendHex g +++ r) = (g, String.length (net.appendHex g), true).
Proof.
  intros R H. destruct (appendHex_facts g R) as (A & E & _).
  unfold net.xtoi in *. now rewrite xtoi_loop_app.
Qed.

Lemma group16_ok_all :
  all_from (Z.to_nat 256) 0 (fun x => all_from (Z.to_nat 256) 0 (group16_ok x)) = true.
Proof. vm_compute. reflexivity. Qed.

Lemma group16_facts (a b : byte) :
  0 <= net.group16 a b < 65536
  /\ z2b (Z.shiftr (net.group16 a b) 8) = a
  /\ z2b (net.group16 a b) = b.
Proof.
  pose proof (b2z_range a) as Ra. pose proof (b2z_range b) as Rb.
  pose proof (all_from_spec _ _ _ group16_ok_all (b2z a) ltac:(lia)) as H.
  cbv beta in H.
  pose proof (all_from_spec _ _ _ H (b2z b) ltac:(lia)) as K.
  unfold group16_ok in K. rewrite !z2b_b2z in K.
  repeat (apply andb_true_iff in K; destruct K as [K ?]).
  repeat split.
  - now apply Z.leb_le.
  - now apply Z.ltb_lt.
  - apply b2z_inj. now apply Z.eqb_eq.
  - apply b2z_inj. now apply Z.eqb_eq.
Qed.

(** ** Text: the groups of an IPv6 address *)

Lemma isHex_not_sep (c : ascii) :
  net.isHex c = true -> Ascii.eqb c ":" = false /\ Ascii.eqb c "." = false.
Proof.
  intros H. split.
  - destruct (Ascii.eqb_spec c ":") as [->|]; [discriminate H | reflexivity].
  - destruct (Ascii.eqb_spec c ".") as [->|]; [discriminate H | reflexivity].
Qed.

Lemma appendHex_head (g : Z) :
  0 <= g < 65536 ->
  exists c h, net.appendHex g = String c h /\ net.isHex c = true.
Proof.
  intros R. destruct (appendHex_facts g R) as (A & _ & L).
  destruct (net.appendHex g) as [|c h]; [discriminate L|].
  cbn in A. apply andb_true_iff in A. exists c, h. tauto.
Qed.

Lemma slen_cons (c : ascii) (s : string) : (net.slen (String c s) =? 0) = false.
Proof. unfold net.slen. cbn [String.length]. apply Z.eqb_neq. lia. Qed.

Lemma slen_cons2 (c d : ascii) (s : string) :
  (net.slen (String c (String d s)) =? 1) = false.
Proof. unfold net.slen. cbn [String.length]. apply Z.eqb_neq. lia. Qed.

(** What one turn of the loop does with a group that is followed by [r]. *)
Lemma parseIPv6_group (fuel : nat) (g : Z) (r : string) (ip : list byte) (ellipsis : Z) :
  0 <= g < 65536 -> (length ip < 16)%nat -> stops net.isHex r = true ->
  stops (fun c => Ascii.eqb c ".") r = true ->
  net.parseIPv6_loop (S fuel) (net.appendHex g +++ r) ip ellipsis
  = let ip := ip ++ [z2b (Z.shiftr g 8); z2b g] in
    match r with
    | EmptyString => Some (ip, ellipsis, EmptyString)
    | String c0 s1 =>
        if negb (Ascii.eqb c0 ":") || (net.slen r =? 1) then None
        else
          match s1 with
          | String c1 s2 =>
              if Ascii.eqb c1 ":" then
                if 0 <=? ellipsis then None
                else if net.slen s2 =? 0 then Some (ip, Z.of_nat (length ip), s2)
                else net.parseIPv6_loop fuel s2 ip (Z.of_nat (length ip))
              else net.parseIPv6_loop fuel s1 ip ellipsis
          | EmptyString => None
          end
    end.
Proof.
  intros R L Hr Hd. cbn [net.parseIPv6_loop].
  replace (length ip <? net.IPv6len)%nat with true
    by (symmetry; apply Nat.ltb_lt; exact L).
  cbn [negb]. rewrite (xtoi_appendHex g r R Hr). cbv beta iota.
  replace (65535 <? g) with false by (symmetry; apply Z.ltb_ge; lia).
  cbn [negb orb].
  assert (G : (Z.of_nat (String.length (net.appendHex g)) <? net.slen (net.appendHex g +++ r))
              && match String.get (String.length (net.appendHex g)) (net.appendHex g +++ r) with
                 | Some d => Ascii.eqb d "."
                 | None => false
                 end = false).
  { destruct r as [|c r'].
    - rewrite sapp_nil_r. unfold net.slen. now rewrite Z.ltb_irrefl.
    - rewrite get_app. cbn in Hd. apply negb_true_iff in Hd. rewrite Hd.
      apply andb_false_r. }
  rewrite G. rewrite drop_app.
  destruct r as [|c0 s1]; [reflexivity|].
  rewrite slen_cons. reflexivity.
Qed.

Lemma group_range (p : list byte) (i : Z) : 0 <= net.group p i < 65536.
Proof. unfold net.group. apply group16_facts. Qed.

Lemma group_hi (p : list byte) (i : Z) :
  z2b (Z.shiftr (net.group p i) 8) = net.atZ p i.
Proof. unfold net.group. apply group16_facts. Qed.

Lemma group_lo (p : list byte) (i : Z) : z2b (net.group p i) = net.atZ p (i + 1).
Proof. unfold net.group. apply group16_facts. Qed.

Lemma stops_hex_colon (r : string) : stops net.isHex (":" +++ r) = true.
Proof. reflexivity. Qed.

Lemma stops_dot_colon (r : string) : stops (fun c => Ascii.eqb c ".") (":" +++ r) = true.
Proof. reflexivity. Qed.

Lemma slen_appendHex_app (g : Z) (r : string) :
  0 <= g < 65536 -> (net.slen (net.appendHex g +++ r) =? 0) = false.
Proof.
  intros R. destruct (appendHex_head g R) as (c & h & -> & _). apply slen_cons.
Qed.

(** A group, a colon, and a further group. *)
Lemma parseIPv6_colon (fuel : nat) (g g' : Z) (r : string) (ip : list byte) (ellipsis : Z) :
  0 <= g < 65536 -> 0 <= g' < 65536 -> (length ip < 16)%nat ->
  net.parseIPv6_loop (S fuel) (net.appendHex g +++ ":" +++ net.appendHex g' +++ r) ip ellipsis
  = net.parseIPv6_loop fuel (net.appendHex g' +++ r)
      (ip ++ [z2b (Z.shiftr g 8); z2b g]) ellipsis.
Proof.
  intros R R' L.
  rewrite parseIPv6_group by (try assumption; reflexivity).
  destruct (appendHex_head g' R') as (c & h & E & Hc).
  destruct (isHex_not_sep c Hc) as [Hc1 _].
  cbn [String.append]. cbv beta iota zeta. rewrite E. cbn [String.append].
  rewrite slen_cons2, Hc1. reflexivity.
Qed.

(** A group, the ellipsis, and a further group. *)
Lemma parseIPv6_ellipsis (fuel : nat) (g g' : Z) (r : string) (ip : list byte) :
  0 <= g < 65536 -> 0 <= g' < 65536 -> (length ip < 16)%nat ->
  net.parseIPv6_loop (S fuel) (net.appendHex g +++ "::" +++ net.appendHex g' +++ r) ip (-1)
  = net.parseIPv6_loop fuel (net.appendHex g' +++ r)
      (ip ++ [z2b (Z.shiftr g 8); z2b g]) (Z.of_nat (length ip + 2)).
Proof.
  intros R R' L.
  rewrite parseIPv6_group by (try assumption; reflexivity).
  cbn [String.append]. cbv beta iota zeta.
  rewrite slen_cons2. rewrite (slen_appendHex_app g' r R').
  rewrite length_app. reflexivity.
Qed.

(** A group and the ellipsis at the end. *)
Lemma parseIPv6_ellipsis_end (fuel : nat) (g : Z) (ip : list byte) :
  0 <= g < 65536 -> (length ip < 16)%nat ->
  net.parseIPv6_loop (S fuel) (net.appendHex g +++ "::") ip (-1)
  = Some (ip ++ [z2b (Z.shiftr g 8); z2b g], Z.of_nat (length ip + 2), EmptyString).
Proof.
  intros R L.
  rewrite parseIPv6_group by (try assumption; reflexivity).
  cbv beta iota zeta. rewrite length_app. reflexivity.
Qed.

(** The last group. *)
Lemma parseIPv6_last (fuel : nat) (g : Z) (ip : list byte) (ellipsis : Z) :
  0 <= g < 65536 -> (length ip < 16)%nat ->
  net.parseIPv6_loop (S fuel) (net.appendHex g +++ EmptyString) ip ellipsis
  = Some (ip ++ [z2b (Z.shiftr g 8); z2b g], ellipsis, EmptyString).
Proof.
  intros R L. now rewrite parseIPv6_group by (try assumption; reflexivity).
Qed.

Lemma parseIPv6_no_leading (g : Z) (r : string) :
  0 <= g < 65536 ->
  net.parseIPv6 (net.appendHex g +++ r)
  = net.parseIPv6_finish (net.parseIPv6_loop 8 (net.appendHex g +++ r) [] (-1)).
Proof.
  intros R. destruct (appendHex_head g R) as (c & h & E & Hc).
  destruct (isHex_not_sep c Hc) as [Hc1 _].
  unfold net.parseIPv6. rewrite E. cbn [String.append].
  destruct (h +++ r); [reflexivity|]. now rewrite Hc1.
Qed.

Lemma parseIPv6_leading (g : Z) (r : string) :
  0 <= g < 65536 ->
  net.parseIPv6 ("::" +++ net.appendHex g +++ r)
  = net.parseIPv6_finish (net.parseIPv6_loop 8 (net.appendHex g +++ r) [] 0).
Proof.
  intros R. unfold net.parseIPv6. cbn [String.append].
  change (Ascii.eqb ":" ":") with true. cbn [andb].
  now rewrite (slen_appendHex_app g r R).
Qed.

(** *** The run of zero groups that is printed as [::] *)

Lemma even_plus2 (j : Z) : Z.even j = true -> Z.even (j + 2) = true.
Proof. intros H. rewrite Z.even_add, H. reflexivity. Qed.

Lemma zeroRun_spec (fuel : nat) (p : list byte) (j : Z) :
  Z.even j = true ->
  let j' := net.zeroRun fuel p j in
  j <= j' /\ (j' = j \/ j' <= 16) /\ Z.even j' = true /\ zero_between p j j'.
Proof.
  revert j. induction fuel as [|fuel IH]; intros j E; cbn [net.zeroRun].
  - repeat split; try lia; try assumption. intros k Hk. lia.
  - destruct (j <? 16) eqn:L; cbn [andb];
      [|repeat split; try lia; try assumption; intros k Hk; lia].
    destruct (net.zeroGroup p j) eqn:Z0;
      [|repeat split; try lia; try assumption; intros k Hk; lia].
    apply Z.ltb_lt in L.
    destruct (IH (j + 2) (even_plus2 j E)) as (A & B & C & D).
    repeat split; try lia; try assumption.
    + assert (Z.even 16 = true) by reflexivity.
      destruct B as [B|B]; [|now right]. right. rewrite B.
      destruct (Z.eq_dec j 15) as [->|]; [discriminate E | lia].
    + intros k Hk Ek. destruct (Z.eq_dec k j) as [->|N]; [assumption|].
      apply D; [|assumption].
      destruct (Z.eq_dec k (j + 1)) as [->|]; [|lia].
      rewrite Z.even_add, E in Ek. discriminate Ek.
Qed.

Lemma longestRun_spec (fuel : nat) (p : list byte) (i e0 e1 : Z) :
  0 <= i -> Z.even i = true -> run_ok p (e0, e1) ->
  run_ok p (net.longestRun fuel p i e0 e1).
Proof.
  revert i e0 e1. induction fuel as [|fuel IH]; intros i e0 e1 Hi Ei Hr;
    cbn [net.longestRun]; [assumption|].
  destruct (i <? 16); [|assumption].
  destruct (zeroRun_spec 8 p i Ei) as (A & B & C & D).
  destruct ((i <? net.zeroRun 8 p i) && _) eqn:T.
  - apply andb_true_iff in T. destruct T as [T _]. apply Z.ltb_lt in T.
    apply IH; [lia | now apply even_plus2 |].
    right. repeat split; try lia; assumption.
  - apply IH; [lia | now apply even_plus2 | assumption].
Qed.

Lemma printed_run_shape (p : list byte) :
  let '(e0, e1) := net.longestRun 8 p 0 (-1) (-1) in
  let '(e0, e1) := if e1 - e0 <=? 2 then (-1, -1) else (e0, e1) in
  shape_ok p e0 e1.
Proof.
  pose proof (longestRun_spec 8 p 0 (-1) (-1) ltac:(lia) eq_refl) as H.
  destruct (net.longestRun 8 p 0 (-1) (-1)) as [e0 e1].
  specialize (H ltac:(left; split; reflexivity)).
  destruct (e1 - e0 <=? 2) eqn:T; [left; split; reflexivity|].
  apply Z.leb_gt in T. destruct H as [[-> ->] | (H0 & H1 & E0 & E1 & Hz)]; [lia|].
  right. apply Z.even_spec in E0, E1. destruct E0 as [k0 ->], E1 as [k1 ->].
  repeat split; try lia. assumption.
Qed.

Lemma zeroGroup_zero (p : list byte) (j : Z) :
  net.zeroGroup p j = true -> net.atZ p j = Byte.x00 /\ net.atZ p (j + 1) = Byte.x00.
Proof.
  unfold net.zeroGroup. intros H. apply andb_true_iff in H. destruct H as [H1 H2].
  split; now apply Byte.byte_dec_bl.
Qed.

Ltac zero_at Hz j :=
  try (let Z := fresh "Z" in
       assert (Z := zeroGroup_zero _ _ (Hz j ltac:(lia) eq_refl));
       vm_compute in Z; destruct Z; subst).

Ltac parse_side :=
  first [ apply group_range | rewrite ?length_app; cbn [length]; lia ].

Ltac parse_groups :=
  repeat first
    [ rewrite parseIPv6_colon by parse_side
    | rewrite parseIPv6_ellipsis by parse_side
    | rewrite parseIPv6_ellipsis_end by parse_side
    | rewrite parseIPv6_last by parse_side ].

Ltac print_then_parse :=
  match goal with
  | |- net.parseIPv6 ?s = _ =>
      let t := eval cbn -[net.appendHex net.group String.append] in s in
      change s with t
  end;
  first [ reflexivity
        | rewrite parseIPv6_no_leading by apply group_range
        | rewrite parseIPv6_leading by apply group_range ];
  parse_groups;
  rewrite ?group_hi, ?group_lo;
  vm_compute; reflexivity.

(** Parsing what [String] prints gives the address back, whatever run of
    zero groups was chosen for the ellipsis. *)
Lemma parseIPv6_printGroups (a0 b0 a1 b1 a2 b2 a3 b3 a4 b4 a5 b5 a6 b6 a7 b7 : byte)
    (e0 e1 : Z) :
  shape_ok [a0; b0; a1; b1; a2; b2; a3; b3; a4; b4; a5; b5; a6; b6; a7; b7] e0 e1 ->
  net.parseIPv6
    (net.printGroups 8 [a0; b0; a1; b1; a2; b2; a3; b3; a4; b4; a5; b5; a6; b6; a7; b7]
       0 e0 e1)
  = [a0; b0; a1; b1; a2; b2; a3; b3; a4; b4; a5; b5; a6; b6; a7; b7].
Proof.
  intros [[-> ->] | (H0 & H1 & L & Hz)].
  - print_then_parse.
  - destruct H0 as [->|[->|[->|[->|[->|[->| ->]]]]]];
      destruct H1 as [->|[->|[->|[->|[->|[->| ->]]]]]];
      try (exfalso; lia);
      zero_at Hz 0; zero_at Hz 2; zero_at Hz 4; zero_at Hz 6;
      zero_at Hz 8; zero_at Hz 10; zero_at Hz 12; zero_at Hz 14;
      clear Hz L; print_then_parse.
Qed.

(** *** [String] and [ParseIP] *)

Lemma IP_String_4 (a b c d : byte) : net.IP_String [a; b; c; d] = dotted a b c d.
Proof. reflexivity. Qed.

Lemma To4_IPv4 (a b c d : byte) : net.To4 (net.IPv4 a b c d) = [a; b; c; d].
Proof. reflexivity. Qed.

Lemma length_16 (ip : list byte) :
  length ip = 16%nat ->
  exists a0 b0 a1 b1 a2 b2 a3 b3 a4 b4 a5 b5 a6 b6 a7 b7,
    ip = [a0; b0; a1; b1; a2; b2; a3; b3; a4; b4; a5; b5; a6; b6; a7; b7].
Proof.
  intros H.
  do 16 (destruct ip as [|? ip]; [discriminate H|]).
  destruct ip; [|discriminate H].
  repeat eexists.
Qed.

Lemma length_4 (ip : list byte) :
  length ip = 4%nat -> exists a b c d, ip = [a; b; c; d].
Proof.
  intros H.
  do 4 (destruct ip as [|? ip]; [discriminate H|]).
  destruct ip; [|discriminate H].
  repeat eexists.
Qed.

Lemma IP_String_16 (ip : list byte) :
  length ip = 16%nat -> net.To4 ip = [] ->
  net.IP_String ip
  = let '(e0, e1) := net.longestRun 8 ip 0 (-1) (-1) in
    let '(e0, e1) := if e1 - e0 <=? 2 then (-1, -1) else (e0, e1) in
    net.printGroups 8 ip 0 e0 e1.
Proof.
  intros L T. unfold net.IP_String. rewrite T, L. reflexivity.
Qed.

(** The address is parsed back from its IPv6 text. *)
Lemma parseIPv6_String (ip : list byte) :
  length ip = 16%nat -> net.To4 ip = [] -> net.parseIPv6 (net.IP_String ip) = ip.
Proof.
  intros L T. rewrite (IP_String_16 ip L T).
  pose proof (printed_run_shape ip) as S.
  destruct (net.longestRun 8 ip 0 (-1) (-1)) as [e0 e1].
  destruct (if e1 - e0 <=? 2 then (-1, -1) else (e0, e1)) as [f0 f1].
  destruct (length_16 ip L)
    as (a0 & b0 & a1 & b1 & a2 & b2 & a3 & b3 & a4 & b4 & a5 & b5 & a6 & b6 & a7 & b7 & ->).
  now apply parseIPv6_printGroups.
Qed.

Lemma ParseIP_scan_app (s pre : string) (c : ascii) (r : string) :
  all_chars (fun x => negb (isSep x)) pre = true ->
  net.ParseIP_scan s (pre +++ String c r)
  = if Ascii.eqb c "." then net.parseIPv4 s
    else if Ascii.eqb c ":" then net.parseIPv6 s
    else net.ParseIP_scan s r.
Proof.
  induction pre as [|x pre IH]; intros H; [reflexivity|].
  cbn in H. apply andb_true_iff in H. destruct H as [Hx H].
  apply negb_true_iff, orb_false_iff in Hx. destruct Hx as [H1 H2].
  cbn [String.append net.ParseIP_scan]. rewrite H1, H2. now apply IH.
Qed.

Lemma digit_not_sep (c : ascii) : isDigit c = true -> negb (isSep c) = true.
Proof.
  intros H. unfold isSep.
  destruct (Ascii.eqb_spec c ".") as [->|]; [discriminate H|].
  destruct (Ascii.eqb_spec c ":") as [->|]; [discriminate H | reflexivity].
Qed.

Lemma hex_not_sep (c : ascii) : net.isHex c = true -> negb (isSep c) = true.
Proof.
  intros H. unfold isSep. destruct (isHex_not_sep c H) as [-> ->]. reflexivity.
Qed.

Lemma ParseIP_dotted (a b c d : byte) : net.ParseIP (dotted a b c d) = net.IPv4 a b c d.
Proof.
  unfold net.ParseIP. unfold dotted at 2. cbn [String.append].
  rewrite ParseIP_scan_app.
  - cbn. apply parseIPv4_dotted.
  - apply (all_chars_weaken isDigit); [exact digit_not_sep | apply ubtoa_facts].
Qed.

Lemma appendHex_group_chars (p : list byte) (i : Z) :
  all_chars isHexOrColon (net.appendHex (net.group p i)) = true.
Proof.
  apply (all_chars_weaken net.isHex).
  - intros c H. unfold isHexOrColon. now rewrite H.
  - apply appendHex_facts, group_range.
Qed.

Lemma printGroups_chars (fuel : nat) (p : list byte) (i e0 e1 : Z) :
  all_chars isHexOrColon (net.printGroups fuel p i e0 e1) = true.
Proof.
  revert i. induction fuel as [|fuel IH]; intros i; [reflexivity|].
  cbn [net.printGroups].
  destruct (i <? 16); [|reflexivity].
  destruct (i =? e0).
  - destruct (16 <=? e1); [reflexivity|].
    cbn [String.append all_chars]. rewrite all_chars_app, appendHex_group_chars, IH.
    reflexivity.
  - destruct (0 <? i).
    + cbn [String.append all_chars]. rewrite all_chars_app, appendHex_group_chars, IH.
      reflexivity.
    + now rewrite all_chars_app, appendHex_group_chars, IH.
Qed.

Lemma has_char_app (c : ascii) (a b : string) :
  has_char c (a +++ b) = has_char c a || has_char c b.
Proof. induction a as [|x a IH]; cbn; [reflexivity | now rewrite IH, orb_assoc]. Qed.

Lemma printGroups_colon (p : list byte) (e0 e1 : Z) :
  has_char ":" (net.printGroups 8 p 0 e0 e1) = true.
Proof.
  cbn [net.printGroups]. change (0 <? 16) with true. change (2 <? 16) with true.
  change (0 <? 0) with false. change (0 <? 2) with true. change (0 + 2) with 2.
  cbv iota.
  destruct (0 =? e0).
  - destruct (16 <=? e1); reflexivity.
  - rewrite has_char_app. destruct (2 =? e0).
    + destruct (16 <=? e1); cbn; apply orb_true_r.
    + cbn. apply orb_true_r.
Qed.

Lemma ParseIP_scan_colon (s r : string) :
  all_chars isHexOrColon r = true -> has_char ":" r = true ->
  net.ParseIP_scan s r = net.parseIPv6 s.
Proof.
  induction r as [|x r IH]; intros A H; [discriminate H|].
  cbn in A, H. apply andb_true_iff in A. destruct A as [Ax A].
  cbn [net.ParseIP_scan].
  destruct (Ascii.eqb_spec x ".") as [->|]; [discriminate Ax|].
  destruct (Ascii.eqb x ":"); [reflexivity|]. now apply IH.
Qed.

Lemma IP_String_16_chars (ip : list byte) :
  length ip = 16%nat -> net.To4 ip = [] ->
  all_chars isHexOrColon (net.IP_String ip) = true
  /\ has_char ":" (net.IP_String ip) = true.
Proof.
  intros L T. rewrite (IP_String_16 ip L T).
  destruct (net.longestRun 8 ip 0 (-1) (-1)) as [e0 e1].
  destruct (if e1 - e0 <=? 2 then (-1, -1) else (e0, e1)) as [f0 f1].
  split; [apply printGroups_chars | apply printGroups_colon].
Qed.

Lemma ParseIP_String_16 (ip : list byte) :
  length ip = 16%nat -> net.To4 ip = [] -> net.ParseIP (net.IP_String ip) = ip.
Proof.
  intros L T. destruct (IP_String_16_chars ip L T) as [A H].
  unfold net.ParseIP. rewrite (ParseIP_scan_colon _ _ A H).
  now apply parseIPv6_String.
Qed.

(** ** The address of a peer *)

Lemma requestVPNIP_assigned (c : Cluster) (cidr : net.IPNet) :
  VPNCIDR c = Some cidr ->
  requestVPNIP c
  = match assignedSlice cidr (length (VPNPeers c)) with
    | Some ip => Normal ((net.IP_String ip, None), c)
    | None =>
        if (length (big.Bytes (big.Add (big.SetBytes (net.To16 (net.IPNet_IP cidr)))
                                  (big.NewInt (int64 (Z.of_nat (length (VPNPeers c)) + 1)))))
            <? 2)%nat
        then Panicked
        else Normal ((EmptyString, Some (exhausted cidr)), c)
    end.
Proof.
  intros H. unfold requestVPNIP, assignedSlice, bind, receiver, ret, panic. rewrite H.
  destruct (length _ <? 2)%nat; [reflexivity|].
  destruct (net.Contains cidr _); reflexivity.
Qed.

Section PeerAddress.

Variable Key_String : wgtypes.Key -> string.
Variable Key_PublicKey : wgtypes.Key -> wgtypes.Key.

Lemma GenerateVPNPeer_success (peerName : string) (generated : wgtypes.Key * option error)
    (c c' : Cluster) (cidr : net.IPNet) :
  VPNCIDR c = Some cidr ->
  GenerateVPNPeer Key_String Key_PublicKey peerName generated c = Normal (None, c') ->
  exists ip privateKey,
    assignedSlice cidr (length (VPNPeers c)) = Some ip
    /\ Z.of_nat (length (VPNPeers c)) < maxInt
    /\ c' = set_VPNPeers
              (VPNPeers c ++ [mkVPNPeer peerName (peerAddress ip) (Key_String privateKey)
                                (Key_String (Key_PublicKey privateKey))]) c.
Proof.
  intros H. unfold GenerateVPNPeer, bind. rewrite (requestVPNIP_assigned c cidr H).
  destruct (assignedSlice cidr (length (VPNPeers c))) as [ip|].
  - destruct generated as [privateKey [err|]]; [discriminate|].
    unfold receiver, append.
    destruct (Z.leb_spec maxInt (Z.of_nat (length (VPNPeers c)))); [discriminate|].
    cbn [assign ret]. intros [= <-]. exists ip, privateKey. repeat split. assumption.
  - destruct (length _ <? 2)%nat; discriminate.
Qed.

End PeerAddress.

Lemma peerAddress_4 (a b c d : byte) :
  peerAddress [a; b; c; d] = dotted a b c d +++ "/32".
Proof.
  unfold peerAddress. rewrite IP_String_4, ParseIP_dotted. reflexivity.
Qed.

Lemma peerAddress_16 (ip : list byte) :
  length ip = 16%nat -> net.To4 ip = [] ->
  peerAddress ip = net.IP_String ip +++ "/128".
Proof.
  intros L T. unfold peerAddress. rewrite (ParseIP_String_16 ip L T), L.
  change (16 =? net.IPv6len)%nat with true. cbv iota.
  unfold net.IPNet_String, net.networkNumberAndMask. cbn [net.IPNet_IP net.IPNet_Mask].
  rewrite T, L. change (negb (16 =? net.IPv6len)%nat) with false. cbv iota.
  destruct ip as [|x ip]; [discriminate L|]. reflexivity.
Qed.

Lemma dotted_inj (a b c d a' b' c' d' : byte) :
  dotted a b c d = dotted a' b' c' d' -> [a; b; c; d] = [a'; b'; c'; d'].
Proof.
  intros H. apply (f_equal net.parseIPv4) in H. rewrite !parseIPv4_dotted in H.
  unfold net.IPv4 in H. now apply app_inv_head in H.
Qed.

(** Two assigned addresses of the same length are printed alike only when
    they are the same. *)
Lemma peerAddress_inj (s t : list byte) :
  length s = 4%nat \/ length s = 16%nat /\ net.To4 s = [] ->
  length t = 4%nat \/ length t = 16%nat /\ net.To4 t = [] ->
  length s = length t ->
  peerAddress s = peerAddress t -> s = t.
Proof.
  intros [Ls | [Ls Ts]] [Lt | [Lt Tt]] L E; try (rewrite Ls, Lt in L; discriminate L).
  - destruct (length_4 s Ls) as (a & b & c & d & ->).
    destruct (length_4 t Lt) as (a' & b' & c' & d' & ->).
    rewrite !peerAddress_4 in E. apply sapp_cancel_r in E. now apply dotted_inj.
  - rewrite (peerAddress_16 s Ls Ts), (peerAddress_16 t Lt Tt) in E.
    apply sapp_cancel_r in E. apply (f_equal net.parseIPv6) in E.
    now rewrite (parseIPv6_String s Ls Ts), (parseIPv6_String t Lt Tt) in E.
Qed.

(** ** Which slice [requestVPNIP] hands out *)

Lemma int64_small (z : Z) : 0 <= z <= maxInt -> int64 z = z.
Proof.
  unfold int64, maxInt. intros H.
  change (2 ^ 63) with 9223372036854775808 in *.
  change (2 ^ 64) with 18446744073709551616.
  rewrite Z.mod_small; lia.
Qed.

Lemma To4_cases (ip : list byte) :
  net.To4 ip = []
  \/ exists a b c d, net.To4 ip = [a; b; c; d] /\ net.To16 ip = net.IPv4 a b c d.
Proof.
  unfold net.To4, net.To16. change net.IPv4len with 4%nat. change net.IPv6len with 16%nat.
  destruct (length ip =? 4)%nat eqn:L4.
  - apply Nat.eqb_eq in L4. destruct (length_4 ip L4) as (a & b & c & d & ->).
    right. exists a, b, c, d. split; reflexivity.
  - destruct (length ip =? 16)%nat eqn:L16; [|now left].
    apply Nat.eqb_eq in L16.
    destruct (length_16 ip L16)
      as (a0 & b0 & a1 & b1 & a2 & b2 & a3 & b3 & a4 & b4 & a5 & b5 & a6 & b6 & a7 & b7 & ->).
    cbv [net.isZeros forallb firstn net.at_ nth skipn andb].
    repeat match goal with
           | |- context [Byte.eqb ?x ?y] =>
               destruct (Byte.eqb x y) eqn:?; [|now left]
           end.
    repeat match goal with
           | H : Byte.eqb _ _ = true |- _ => apply Byte.byte_dec_bl in H; subst
           end.
    right. repeat eexists.
Qed.

Lemma SetBytes_IPv4 (a b c d : byte) :
  big.SetBytes (net.IPv4 a b c d) = 65535 * 2 ^ 32 + big.SetBytes [a; b; c; d].
Proof. unfold net.IPv4. rewrite SetBytes_app. reflexivity. Qed.

Lemma To16_range (ip : list byte) : 0 <= big.SetBytes (net.To16 ip) < 2 ^ 128.
Proof.
  pose proof (SetBytes_range (net.To16 ip)) as R.
  assert (L : (length (net.To16 ip) <= 16)%nat).
  { unfold net.To16. destruct (length ip =? net.IPv4len)%nat; [cbn; lia|].
    destruct (length ip =? net.IPv6len)%nat eqn:E; [|cbn; lia].
    apply Nat.eqb_eq in E. rewrite E. reflexivity. }
  assert (256 ^ Z.of_nat (length (net.To16 ip)) <= 256 ^ 16)
    by (apply Z.pow_le_mono_r; lia).
  change (2 ^ 128) with (256 ^ 16). lia.
Qed.

Lemma canonical_16_To4 (l : list byte) :
  length l = 16%nat -> canonical l -> net.To4 l = [].
Proof.
  intros L C.
  destruct (length_16 l L)
    as (a0 & b0 & a1 & b1 & a2 & b2 & a3 & b3 & a4 & b4 & a5 & b5 & a6 & b6 & a7 & b7 & ->).
  cbn in C. cbv [net.To4 net.isZeros forallb firstn length Nat.eqb net.IPv4len net.IPv6len].
  destruct (Byte.eqb Byte.x00 a0) eqn:E; [|reflexivity].
  apply Byte.byte_dec_bl in E. congruence.
Qed.

Lemma To4_length (ip : list byte) : net.To4 ip = [] \/ length (net.To4 ip) = 4%nat.
Proof. destruct (To4_cases ip) as [H | (a & b & c & d & H & _)]; rewrite H; auto. Qed.

Lemma To4_other (ip : list byte) :
  length ip <> 4%nat -> length ip <> 16%nat -> net.To4 ip = [].
Proof.
  intros N4 N16. unfold net.To4.
  apply Nat.eqb_neq in N4, N16. change net.IPv4len with 4%nat.
  change net.IPv6len with 16%nat. now rewrite N4, N16.
Qed.

Lemma To4_of_4 (ip : list byte) : length ip = 4%nat -> net.To4 ip = ip.
Proof. intros L. unfold net.To4. now rewrite L. Qed.

Lemma Contains_length (cidr : net.IPNet) (ip : list byte) :
  net.Contains cidr ip = true ->
  length (match net.To4 ip with [] => ip | x => x end)
  = length (fst (net.networkNumberAndMask cidr)).
Proof.
  unfold net.Contains. destruct (net.networkNumberAndMask cidr) as [nn m].
  cbn [fst]. cbv zeta.
  match goal with
  | |- context [Nat.eqb ?a ?b] => destruct (Nat.eqb_spec a b) as [e|]
  end; [intros _; exact e | discriminate].
Qed.

Lemma networkNumber_length (cidr : net.IPNet) :
  wellFormed cidr ->
  length (fst (net.networkNumberAndMask cidr))
  = match net.To4 (net.IPNet_IP cidr) with [] => 16%nat | _ => 4%nat end.
Proof.
  intros W. destruct cidr as [ip m]. unfold wellFormed in W. cbn [net.IPNet_IP net.IPNet_Mask] in *.
  unfold net.networkNumberAndMask. cbn [net.IPNet_IP net.IPNet_Mask].
  change net.IPv4len with 4%nat. change net.IPv6len with 16%nat.
  destruct W as [[Li Lm] | [Li Lm]].
  - destruct (length_4 ip Li) as (a & b & c & d & ->). rewrite Lm. reflexivity.
  - rewrite Lm. destruct (To4_cases ip) as [T | (a & b & c & d & T & _)]; rewrite T.
    + rewrite Li. cbn. exact Li.
    + reflexivity.
Qed.

Lemma assignedSlice_cases (cidr : net.IPNet) (n : nat) (ip : list byte) :
  wellFormed cidr -> Z.of_nat n < maxInt -> assignedSlice cidr n = Some ip ->
  (net.To4 (net.IPNet_IP cidr) <> [] /\ length ip = 4%nat
   /\ big.SetBytes (net.To16 (net.IPNet_IP cidr)) + Z.of_nat n + 1
      = 65535 * 2 ^ 32 + big.SetBytes ip)
  \/ (net.To4 (net.IPNet_IP cidr) = [] /\ length ip = 16%nat
      /\ net.To4 ip = []
      /\ big.SetBytes ip = big.SetBytes (net.To16 (net.IPNet_IP cidr)) + Z.of_nat n + 1).
Proof.
  intros W Hn. unfold assignedSlice, big.Add, big.NewInt.
  rewrite int64_small by lia.
  pose proof (To16_range (net.IPNet_IP cidr)) as RN.
  set (N := big.SetBytes (net.To16 (net.IPNet_IP cidr))) in *.
  replace (N + Z.of_nat n + 1) with (N + (Z.of_nat n + 1)) by lia.
  set (V := N + (Z.of_nat n + 1)).
  assert (HV : 0 <= V) by (unfold V; lia).
  pose proof (Bytes_canonical V) as C. pose proof (SetBytes_Bytes V HV) as E.
  set (B := big.Bytes V) in *.
  destruct (length B <? 2)%nat eqn:L2; [discriminate|]. apply Nat.ltb_ge in L2.
  change net.IPv6len with 16%nat.
  pose proof (networkNumber_length cidr W) as NL.
  destruct (Nat.eqb_spec (length B) 16) as [L16|L16].
  - destruct (net.Contains cidr B) eqn:Cn; [|discriminate]. intros [= <-].
    pose proof (canonical_16_To4 B L16 C) as T.
    apply Contains_length in Cn. rewrite T, NL, L16 in Cn.
    right. destruct (net.To4 (net.IPNet_IP cidr)); [auto | discriminate Cn].
  - destruct (net.Contains cidr (skipn 2 B)) eqn:Cn; [|discriminate]. intros [= <-].
    apply Contains_length in Cn. rewrite NL in Cn.
    assert (LS : length (skipn 2 B) = (length B - 2)%nat) by apply length_skipn.
    assert (Small : (length B <= 17)%nat).
    { destruct (Nat.le_gt_cases (length B) 17) as [|G]; [assumption|]. exfalso.
      assert (Bn : B <> []) by (intros Z0; rewrite Z0 in G; cbn in G; lia).
      pose proof (canonical_lower B C Bn) as Lo.
      assert (256 ^ 17 <= 256 ^ (Z.of_nat (length B) - 1))
        by (apply Z.pow_le_mono_r; lia).
      unfold maxInt in Hn. change (2 ^ 63) with 9223372036854775808 in Hn.
      change (2 ^ 128) with 340282366920938463463374607431768211456 in RN.
      change (256 ^ 17) with 87112285931760246646623899502532662132736 in *.
      unfold big.Int in *. lia. }
    destruct (Nat.eq_dec (length (skipn 2 B)) 4) as [L4|L4].
    + rewrite (To4_of_4 _ L4) in Cn.
      assert (Sk : skipn 2 B <> []) by (intros Z0; rewrite Z0 in L4; discriminate L4).
      left. destruct (To4_cases (net.IPNet_IP cidr)) as [T | (a & b & c & d & T & T16)].
      * rewrite T in Cn. destruct (skipn 2 B); [contradiction | rewrite L4 in Cn; discriminate Cn].
      * split; [rewrite T; discriminate|]. split; [exact L4|].
        assert (EN : N = 65535 * 2 ^ 32 + big.SetBytes [a; b; c; d])
          by (unfold N; rewrite T16; apply SetBytes_IPv4).
        pose proof (SetBytes_range [a; b; c; d]) as Rabcd.
        pose proof (SetBytes_range (firstn 2 B)) as Rh.
        pose proof (SetBytes_range (skipn 2 B)) as Rl.
        assert (LH : (length (firstn 2 B) <= 2)%nat) by apply firstn_le_length.
        assert (256 ^ Z.of_nat (length (firstn 2 B)) <= 256 ^ 2)
          by (apply Z.pow_le_mono_r; lia).
        rewrite <- (firstn_skipn 2 B), SetBytes_app in E. rewrite L4 in E, Rl.
        change (256 ^ Z.of_nat 4) with 4294967296 in *.
        change (256 ^ 2) with 65536 in *. change (2 ^ 32) with 4294967296 in *.
        unfold maxInt in Hn. change (2 ^ 63) with 9223372036854775808 in Hn.
        clear - E EN Rabcd Rh Rl H Hn. subst V.
        change (match B with _ :: _ :: l0 => l0 | _ => [] end) with (skipn 2 B).
        unfold big.Int in *. lia.
    + exfalso.
      assert (T : net.To4 (skipn 2 B) = []) by (apply To4_other; lia).
      rewrite T in Cn.
      destruct (net.To4 (net.IPNet_IP cidr));
        destruct (skipn 2 B); cbn [length] in *; lia.
Qed.

(** ** What [ParseCIDR] returns *)

Lemma parseIPv4_cases (s : string) :
  net.parseIPv4 s = [] \/ exists a b c d, net.parseIPv4 s = net.IPv4 a b c d.
Proof.
  unfold net.parseIPv4. destruct (net.parseIPv4_loop net.IPv4len 0 s []) as [[p rest]|];
    [|now left].
  destruct (negb (net.slen rest =? 0)); [now left|]. right. repeat eexists.
Qed.

Lemma parseIPv6_loop_length (fuel : nat) (s : string) (ip : list byte) (ellipsis : Z)
    (ip' : list byte) (ellipsis' : Z) (s' : string) :
  net.parseIPv6_loop fuel s ip ellipsis = Some (ip', ellipsis', s') ->
  Nat.even (length ip) = true /\ (length ip <= 16)%nat ->
  Nat.even (length ip') = true /\ (length ip' <= 16)%nat.
Proof.
  revert s ip ellipsis. induction fuel as [|fuel IH]; intros s ip ellipsis;
    cbn [net.parseIPv6_loop].
  - now intros [= <- _ _].
  - change net.IPv6len with 16%nat. change net.IPv4len with 4%nat.
    destruct (Nat.ltb_spec (length ip) 16) as [Lt|Ge]; cbn [negb];
      [|now intros [= <- _ _]].
    destruct (net.xtoi s) as [[n c] ok].
    destruct (negb ok || (65535 <? n)); [discriminate|].
    assert (Two : forall x y, Nat.even (length ip) = true ->
                  Nat.even (length (ip ++ [x; y])) = true
                  /\ (length (ip ++ [x; y]) <= 16)%nat).
    { intros x y Ev. rewrite length_app. cbn [length].
      replace (length ip + 2)%nat with (S (S (length ip))) by lia.
      split; [exact Ev|].
      destruct (Nat.eq_dec (length ip) 15) as [E15|]; [|lia].
      rewrite E15 in Ev. discriminate Ev. }
    destruct (_ && _).
    + destruct (_ && _); [discriminate|].
      destruct (Nat.ltb_spec 16 (length ip + 4)); [discriminate|].
      destruct (net.parseIPv4 s); [discriminate|].
      intros [= <- _ _] [Ev _]. rewrite length_app. cbn [length]. split; [|lia].
      replace (length ip + 4)%nat with (S (S (S (S (length ip))))) by lia. exact Ev.
    + destruct (net.slen (drop c s) =? 0).
      * intros [= <- _ _] [Ev _]. now apply Two.
      * destruct (drop c s) as [|c0 s1]; [discriminate|].
        destruct (negb (Ascii.eqb c0 ":") || _); [discriminate|].
        destruct s1 as [|c1 s2]; [discriminate|].
        destruct (Ascii.eqb c1 ":").
        -- destruct (0 <=? ellipsis); [discriminate|].
           destruct (net.slen s2 =? 0).
           ++ intros [= <- _ _] [Ev _]. now apply Two.
           ++ intros H [Ev _]. apply (IH _ _ _ H). now apply Two.
        -- intros H [Ev _]. apply (IH _ _ _ H). now apply Two.
Qed.

Lemma parseIPv6_finish_length (r : option (list byte * Z * string)) :
  (forall ip e s, r = Some (ip, e, s) -> (length ip <= 16)%nat) ->
  net.parseIPv6_finish r = [] \/ length (net.parseIPv6_finish r) = 16%nat.
Proof.
  intros H. destruct r as [[[ip e] s]|]; [|now left]. specialize (H ip e s eq_refl).
  unfold net.parseIPv6_finish. change net.IPv6len with 16%nat.
  destruct (negb (net.slen s =? 0)); [now left|].
  destruct (Nat.ltb_spec (length ip) 16).
  - destruct (e <? 0); [now left|]. right.
    rewrite !length_app, repeat_length.
    pose proof (f_equal (@length byte) (firstn_skipn (Z.to_nat e) ip)) as F.
    rewrite length_app in F. lia.
  - destruct (0 <=? e); [now left|]. right. lia.
Qed.

Lemma parseIPv6_length (s : string) :
  net.parseIPv6 s = [] \/ length (net.parseIPv6 s) = 16%nat.
Proof.
  assert (F : forall s e, net.parseIPv6_finish (net.parseIPv6_loop 8 s [] e) = []
                          \/ length (net.parseIPv6_finish (net.parseIPv6_loop 8 s [] e))
                             = 16%nat).
  { intros s0 e. apply parseIPv6_finish_length. intros ip e' s' H.
    apply (parseIPv6_loop_length _ _ _ _ _ _ _ H). split; [reflexivity | cbn; lia]. }
  unfold net.parseIPv6. destruct s as [|c0 [|c1 s']]; try apply F.
  destruct (_ && _); [|apply F].
  destruct (net.slen s' =? 0); [now right | apply F].
Qed.

Lemma CIDRMask_loop_length (l : nat) (n : Z) : length (net.CIDRMask_loop l n) = l.
Proof.
  revert n. induction l as [|l IH]; intros n; cbn [net.CIDRMask_loop]; [reflexivity|].
  destruct (8 <=? n); cbn [length]; now rewrite IH.
Qed.

Lemma CIDRMask_length (n bits : Z) :
  0 <= n <= bits -> bits = 32 \/ bits = 128 ->
  length (net.CIDRMask n bits) = Z.to_nat (bits / 8).
Proof.
  intros R B. unfold net.CIDRMask.
  replace (negb (bits =? 8 * Z.of_nat net.IPv4len) && negb (bits =? 8 * Z.of_nat net.IPv6len))
    with false by (destruct B as [-> | ->]; reflexivity).
  replace ((n <? 0) || (bits <? n)) with false
    by (symmetry; apply orb_false_iff; split; apply Z.ltb_ge; lia).
  apply CIDRMask_loop_length.
Qed.

Lemma Mask_IPv4 (a b c d m0 m1 m2 m3 : byte) :
  net.Mask (net.IPv4 a b c d) [m0; m1; m2; m3]
  = [byte_and a m0; byte_and b m1; byte_and c m2; byte_and d m3].
Proof. reflexivity. Qed.

Lemma Mask_16 (ip m : list byte) :
  length ip = 16%nat -> length m = 16%nat ->
  net.Mask ip m = map (fun p => byte_and (fst p) (snd p)) (combine ip m).
Proof.
  intros Li Lm. unfold net.Mask, net.IPv4len, net.IPv6len.
  do 3 (rewrite ?Li, ?Lm; cbn [Nat.eqb andb negb]). reflexivity.
Qed.

Lemma ParseCIDR_parsed (s : string) (ip : net.IP) (cidr : option net.IPNet) :
  net.ParseCIDR s = (ip, cidr, None) -> parsedNetwork ip cidr.
Proof.
  unfold net.ParseCIDR. cbv zeta.
  destruct (IndexByteString s "/") as [i|]; [|discriminate].
  destruct (net.dtoi (drop (S i) s)) as [[n j] ok].
  change (Z.of_nat net.IPv4len) with 4. change (Z.of_nat net.IPv6len) with 16.
  destruct (parseIPv4_cases (take i s)) as [E | (a & b & c & d & E)]; rewrite E.
  - cbv iota.
    match goal with |- (if ?c then _ else _) = _ -> _ => destruct c eqn:C end;
      [discriminate|].
    repeat (apply orb_false_iff in C; destruct C as [C ?]).
    destruct (parseIPv6_length (take i s)) as [E6 | L6];
      [rewrite E6 in C; discriminate C|].
    intros [= <- <-]. exists n. right.
    repeat split; try assumption; try (apply Z.ltb_ge; assumption).
  - unfold net.IPv4 at 1 2 3. cbn [app net.v4InV6Prefix]. cbv iota.
    fold (net.IPv4 a b c d).
    match goal with |- (if ?c then _ else _) = _ -> _ => destruct c eqn:C end;
      [discriminate|].
    repeat (apply orb_false_iff in C; destruct C as [C ?]).
    intros [= <- <-]. exists n. left.
    repeat split; eauto; try (apply Z.ltb_ge; assumption).
Qed.

Lemma parsedNetwork_wellFormed (ip : net.IP) (cidr : net.IPNet) :
  parsedNetwork ip (Some cidr) -> wellFormed cidr.
Proof.
  intros [n [((a & b & c & d & ->) & R & [= ->]) | (L & R & [= ->])]].
  - pose proof (CIDRMask_length n 32 R ltac:(auto)) as Lm.
    change (Z.to_nat (32 / 8)) with 4%nat in Lm.
    destruct (length_4 _ Lm) as (m0 & m1 & m2 & m3 & E). rewrite E, Mask_IPv4.
    left. split; reflexivity.
  - pose proof (CIDRMask_length n 128 R ltac:(auto)) as Lm.
    change (Z.to_nat (128 / 8)) with 16%nat in Lm.
    right. cbn [net.IPNet_IP net.IPNet_Mask]. split; [|exact Lm].
    rewrite (Mask_16 _ _ L Lm), length_map, length_combine, L, Lm. reflexivity.
Qed.

(** ** The peers of a cluster *)

Section Built.

Variable newCertificateAuthorities : CertificateAuthorities + error.
Variable newEtcdServer : list string -> EtcdServer + error.
Variable newKubeAPIServer : list string -> KubeAPIServer + error.
Variable Key_String : wgtypes.Key -> string.
Variable Key_PublicKey : wgtypes.Key -> wgtypes.Key.

Local Abbreviation built :=
  (props.built newCertificateAuthorities newEtcdServer newKubeAPIServer
     Key_String Key_PublicKey).
Lemma peers_assigned_step (names : list string) (c c' : Cluster) (peerName : string)
    (generated : wgtypes.Key * option error) (first : list string) :
  (exists cidr,
      VPNCIDR c = Some cidr /\ wellFormed cidr
      /\ Z.of_nat (length (VPNPeers c)) <= maxInt
      /\ map VPNPeer_Name (VPNPeers c) = first
      /\ forall i peer, nth_error (VPNPeers c) i = Some peer ->
           exists ip, assignedSlice cidr i = Some ip
                      /\ VPNPeer_Address peer = peerAddress ip) ->
  GenerateVPNPeer Key_String Key_PublicKey peerName generated c = Normal (None, c') ->
  exists cidr,
    VPNCIDR c' = Some cidr /\ wellFormed cidr
    /\ Z.of_nat (length (VPNPeers c')) <= maxInt
    /\ map VPNPeer_Name (VPNPeers c') = first ++ [peerName]
    /\ forall i peer, nth_error (VPNPeers c') i = Some peer ->
         exists ip, assignedSlice cidr i = Some ip /\ VPNPeer_Address peer = peerAddress ip.
Proof.
  intros (cidr & HC & W & L & Nm & A) G.
  destruct (GenerateVPNPeer_success _ _ _ _ _ _ cidr HC G) as (ip & k & S & Lt & ->).
  exists cidr. cbn [set_VPNPeers VPNCIDR VPNPeers]. repeat split; try assumption.
  - rewrite length_app. cbn [length]. lia.
  - rewrite map_app, Nm. reflexivity.
  - intros i peer Hi.
    destruct (Nat.lt_ge_cases i (length (VPNPeers c))) as [Lo|Hi'].
    + rewrite nth_error_app1 in Hi by assumption. now apply A.
    + rewrite nth_error_app2 in Hi by assumption.
      destruct (i - length (VPNPeers c))%nat as [|k'] eqn:D;
        [|destruct k'; discriminate Hi].
      cbn in Hi. injection Hi as <-. cbn [VPNPeer_Address].
      replace i with (length (VPNPeers c)) by lia. eauto.
Qed.

Lemma built_peers_assigned (names : list string) (c : Cluster) :
  built names c -> peers_assigned names c.
Proof.
  induction 1 as [clusterName vpnCIDR sans1 sans2 generated c H
                 | names c peerName generated c' B IH G].
  - apply NewCluster_success in H.
    destruct H as (ip & cidr & cas & etcd & api & HP & _ & _ & _ & _ & G).
    pose proof (ParseCIDR_parsed _ _ _ HP) as P.
    assert (exists net0, cidr = Some net0) as [net0 ->]
      by (destruct P as [n [(_ & _ & ->) | (_ & _ & ->)]]; eauto).
    apply (peers_assigned_step [] _ _ _ _ [] ) in G.
    + exact G.
    + exists net0. cbn [VPNCIDR VPNPeers]. repeat split.
      * now apply (parsedNetwork_wellFormed ip).
      * cbn. unfold maxInt. lia.
      * intros [|i] peer X; discriminate X.
  - unfold peers_assigned in *.
    change ("control-plane-ingress"%string :: names ++ [peerName])
      with (("control-plane-ingress"%string :: names) ++ [peerName]).
    now apply (peers_assigned_step names c c' peerName generated).
Qed.

Lemma assigned_addresses_differ (cidr : net.IPNet) (i j : nat) (s t : list byte) :
  wellFormed cidr -> Z.of_nat i < maxInt -> Z.of_nat j < maxInt ->
  assignedSlice cidr i = Some s -> assignedSlice cidr j = Some t ->
  peerAddress s = peerAddress t -> i = j.
Proof.
  intros W Hi Hj Si Sj E.
  destruct (assignedSlice_cases cidr i s W Hi Si) as [(T & Ls & Vs) | (T & Ls & Ts & Vs)];
    destruct (assignedSlice_cases cidr j t W Hj Sj) as [(T' & Lt & Vt) | (T' & Lt & Tt & Vt)];
    try contradiction.
  - assert (s = t) by (apply peerAddress_inj; auto; congruence). subst t. lia.
  - assert (s = t) by (apply peerAddress_inj; auto; congruence). subst t. lia.
Qed.

(** C3, as the code has it.  In a cluster built by [NewCluster] and
    successful calls of [GenerateVPNPeer], no two peers share an address;
    the names of the peers are [control-plane-ingress] followed by the names
    the calls were given, in order, whatever these are. *)
Theorem built_peers (names : list string) (c : Cluster) :
  built names c ->
  NoDup (map VPNPeer_Address (VPNPeers c))
  /\ map VPNPeer_Name (VPNPeers c) = "control-plane-ingress"%string :: names.
Proof.
  intros B. destruct (built_peers_assigned names c B) as (cidr & HC & W & L & Nm & A).
  split; [|exact Nm].
  apply NoDup_nth_error. intros i j Hi E.
  rewrite length_map in Hi. rewrite !nth_error_map in E.
  destruct (nth_error (VPNPeers c) i) as [p|] eqn:Pi;
    [|apply nth_error_None in Pi; lia].
  destruct (nth_error (VPNPeers c) j) as [q|] eqn:Pj; [|discriminate E].
  injection E as E.
  assert (Hj : (j < length (VPNPeers c))%nat) by (apply nth_error_Some; congruence).
  destruct (A i p Pi) as (s & Si & Ep). destruct (A j q Pj) as (t & Sj & Eq).
  apply (assigned_addresses_differ cidr i j s t); try assumption; try lia.
  congruence.
Qed.

End Built.

(** C3, as stated, fails: nothing keeps a caller from giving a name twice. *)
Lemma peers_may_share_a_name :
  exists c,
    built (inl someAuthorities) someEtcdServer someKubeAPIServer printKey publicKey
      ["control-plane-ingress"%string] c
    /\ ~ NoDup (map VPNPeer_Name (VPNPeers c)).
Proof.
  destruct (newDemoCluster "10.0.0.0/16") as [[[c0|] [e|]]|] eqn:N;
    try (vm_compute in N; discriminate N).
  destruct (GenerateVPNPeer printKey publicKey "control-plane-ingress" someKey c0)
    as [[[e|] c1]|] eqn:G;
    try (vm_compute in N; injection N as <-; vm_compute in G; discriminate G).
  exists c1. split.
  - apply (built_peer _ _ _ _ _ [] c0 "control-plane-ingress" someKey c1);
      [|exact G].
    exact (built_new _ _ _ _ _ _ _ _ _ _ _ N).
  - vm_compute in N. injection N as <-. vm_compute in G. injection G as <-.
    cbn. intros D. inversion D as [|x l Hx _]. apply Hx. left. reflexivity.
Qed.

Lemma built_peers_witness :
  exists c,
    built (inl someAuthorities) someEtcdServer someKubeAPIServer printKey publicKey
      ["worker"%string] c
    /\ NoDup (map VPNPeer_Address (VPNPeers c))
    /\ map VPNPeer_Name (VPNPeers c)
       = ["control-plane-ingress"%string; "worker"%string].
Proof.
  destruct (newDemoCluster "fd00::/64") as [[[c0|] [e|]]|] eqn:N;
    try (vm_compute in N; discriminate N).
  destruct (GenerateVPNPeer printKey publicKey "worker" someKey c0)
    as [[[e|] c1]|] eqn:G;
    try (vm_compute in N; injection N as <-; vm_compute in G; discriminate G).
  exists c1.
  assert (B : built (inl someAuthorities) someEtcdServer someKubeAPIServer
                printKey publicKey ["worker"%string] c1).
  { apply (built_peer _ _ _ _ _ [] c0 "worker" someKey c1); [|exact G].
    exact (built_new _ _ _ _ _ _ _ _ _ _ _ N). }
  split; [exact B|].
  exact (built_peers _ _ _ _ _ ["worker"%string] c1 B).
Defined.

(** ** Parsing the string form of a network *)

Lemma mask_ok_32 : all_from 33 0 (mask_ok 32) = true.
Proof. vm_compute. reflexivity. Qed.

Lemma mask_ok_128 : all_from 129 0 (mask_ok 128) = true.
Proof. vm_compute. reflexivity. Qed.

Lemma mask_facts (bits n : Z) :
  bits = 32 \/ bits = 128 -> 0 <= n <= bits ->
  net.simpleMaskLength (net.CIDRMask n bits) = n
  /\ net.dtoi (net.uitoa n) = (n, String.length (net.uitoa n), true).
Proof.
  intros B R.
  assert (H : mask_ok bits n = true).
  { destruct B as [-> | ->].
    - apply (all_from_spec _ _ _ mask_ok_32). cbn. lia.
    - apply (all_from_spec _ _ _ mask_ok_128). cbn. lia. }
  unfold mask_ok in H. apply andb_true_iff in H. destruct H as [H1 H2].
  apply Z.eqb_eq in H1. split; [exact H1|].
  destruct (net.dtoi (net.uitoa n)) as [[v i] ok].
  apply andb_true_iff in H2. destruct H2 as [H2 H3].
  apply andb_true_iff in H2. destruct H2 as [H2 H4].
  apply Z.eqb_eq in H2. apply Nat.eqb_eq in H4. now subst.
Qed.

Lemma byte_and_ok_all :
  all_from (Z.to_nat 256) 0 (fun x => all_from (Z.to_nat 256) 0 (byte_and_ok x)) = true.
Proof. vm_compute. reflexivity. Qed.

Lemma byte_and_idem (x y : byte) : byte_and (byte_and x y) y = byte_and x y.
Proof.
  pose proof (b2z_range x) as Rx. pose proof (b2z_range y) as Ry.
  pose proof (all_from_spec _ _ _ byte_and_ok_all (b2z x) ltac:(lia)) as H.
  cbv beta in H.
  pose proof (all_from_spec _ _ _ H (b2z y) ltac:(lia)) as K.
  unfold byte_and_ok in K. rewrite !z2b_b2z in K. now apply Byte.byte_dec_bl.
Qed.

Lemma masked_idem (ip m : list byte) :
  map (fun p => byte_and (fst p) (snd p))
      (combine (map (fun p => byte_and (fst p) (snd p)) (combine ip m)) m)
  = map (fun p => byte_and (fst p) (snd p)) (combine ip m).
Proof.
  revert m. induction ip as [|x ip IH]; intros [|y m]; try reflexivity.
  cbn [combine map fst snd]. now rewrite byte_and_idem, IH.
Qed.

Lemma all_chars_drop (p : ascii -> bool) (n : nat) (s : string) :
  all_chars p s = true -> all_chars p (drop n s) = true.
Proof.
  revert s. induction n as [|n IH]; intros [|x s] H; try assumption.
  cbn in H |- *. apply andb_true_iff in H. now apply IH.
Qed.

Lemma parseIPv4_no_dot (s : string) :
  all_chars (fun c => negb (Ascii.eqb c ".")) s = true -> net.parseIPv4 s = [].
Proof.
  intros H. unfold net.parseIPv4. change net.IPv4len with 4%nat.
  cbn [net.parseIPv4_loop]. destruct (net.slen s =? 0); [reflexivity|].
  change (0 <? 0)%nat with false. cbv iota.
  destruct (net.dtoi s) as [[n c] ok].
  destruct (negb ok || (255 <? n)); [reflexivity|].
  destruct (net.slen (drop c s) =? 0); [reflexivity|].
  change (0 <? 1)%nat with true. cbv iota.
  pose proof (all_chars_drop _ c s H) as D.
  destruct (drop c s) as [|x r]; [reflexivity|].
  cbn in D. apply andb_true_iff in D. destruct D as [D _].
  apply negb_true_iff in D. now rewrite D.
Qed.

Lemma drop_app_cons (a : string) (x : ascii) (r : string) :
  drop (S (String.length a)) (a +++ String x r) = r.
Proof. induction a as [|y a IH]; [now destruct r | exact IH]. Qed.

Lemma dotted_no_slash (a b c d : byte) : all_chars notSlash (dotted a b c d) = true.
Proof.
  assert (D : forall x, all_chars notSlash (net.ubtoa x) = true).
  { intros x. apply (all_chars_weaken isDigit); [|apply ubtoa_facts].
    intros ch H. unfold notSlash.
    destruct (Ascii.eqb_spec ch "/") as [->|]; [discriminate H | reflexivity]. }
  unfold dotted. cbn [String.append].
  repeat (rewrite all_chars_app, D; cbn [all_chars andb]).
  apply D.
Qed.

Lemma v6_no_slash_no_dot (ip : list byte) :
  length ip = 16%nat -> net.To4 ip = [] ->
  all_chars notSlash (net.IP_String ip) = true
  /\ all_chars (fun c => negb (Ascii.eqb c ".")) (net.IP_String ip) = true.
Proof.
  intros L T. destruct (IP_String_16_chars ip L T) as [A _].
  split; apply (all_chars_weaken isHexOrColon); try assumption;
    intros c H; unfold isHexOrColon, notSlash in *;
    apply orb_true_iff in H; destruct H as [H | H].
  - destruct (Ascii.eqb_spec c "/") as [->|]; [discriminate H | reflexivity].
  - apply Ascii.eqb_eq in H. now subst.
  - now destruct (isHex_not_sep c H) as [_ ->].
  - apply Ascii.eqb_eq in H. now subst.
Qed.

(** [ParseCIDR] on a text [address/n] whose address part has no slash. *)
Lemma ParseCIDR_text (address : string) (n : Z) :
  all_chars notSlash address = true -> 0 <= n <= 128 ->
  net.ParseCIDR (address +++ "/" +++ net.uitoa n)
  = let ip4 := net.parseIPv4 address in
    let iplen := match ip4 with [] => net.IPv6len | _ => net.IPv4len end in
    let ip := match ip4 with [] => net.parseIPv6 address | _ => ip4 end in
    if match ip with [] => true | _ => false end || (8 * Z.of_nat iplen <? n)
    then ([], None, Some (ParseError "CIDR address" (address +++ "/" +++ net.uitoa n)))
    else
      let m := net.CIDRMask n (8 * Z.of_nat iplen) in
      (ip, Some (net.mkIPNet (net.Mask ip m) m), None).
Proof.
  intros A R. unfold net.ParseCIDR. cbn [String.append].
  rewrite (IndexByteString_app address "/" (net.uitoa n) A).
  rewrite take_app, drop_app_cons.
  destruct (mask_facts 128 n ltac:(auto) R) as [_ D]. rewrite D.
  cbv zeta. unfold net.slen. rewrite Z.eqb_refl.
  replace (n <? 0) with false by (symmetry; apply Z.ltb_ge; lia).
  cbn [negb]. rewrite !orb_false_r. reflexivity.
Qed.

Lemma ParseCIDR_text_v4 (address : string) (n : Z) (a b c d : byte) :
  all_chars notSlash address = true -> 0 <= n <= 32 ->
  net.parseIPv4 address = net.IPv4 a b c d ->
  net.ParseCIDR (address +++ "/" +++ net.uitoa n)
  = (net.IPv4 a b c d,
     Some (net.mkIPNet (net.Mask (net.IPv4 a b c d) (net.CIDRMask n 32))
             (net.CIDRMask n 32)),
     None).
Proof.
  intros A R P. rewrite ParseCIDR_text by (try assumption; lia). rewrite P.
  destruct (net.IPv4 a b c d) as [|h t] eqn:Ev; [discriminate Ev|].
  cbv zeta iota. change (8 * Z.of_nat net.IPv4len) with 32.
  replace (32 <? n) with false by (symmetry; apply Z.ltb_ge; lia). reflexivity.
Qed.

Lemma ParseCIDR_text_v6 (address : string) (n : Z) (ip : list byte) :
  all_chars notSlash address = true -> 0 <= n <= 128 ->
  net.parseIPv4 address = [] -> net.parseIPv6 address = ip -> ip <> [] ->
  net.ParseCIDR (address +++ "/" +++ net.uitoa n)
  = (ip, Some (net.mkIPNet (net.Mask ip (net.CIDRMask n 128)) (net.CIDRMask n 128)), None).
Proof.
  intros A R P4 P6 N. rewrite ParseCIDR_text by (try assumption; lia). rewrite P4, P6.
  destruct ip as [|h t]; [contradiction|].
  cbv zeta iota. change (8 * Z.of_nat net.IPv6len) with 128.
  replace (128 <? n) with false by (symmetry; apply Z.ltb_ge; lia). reflexivity.
Qed.

Lemma IPNet_String_plain (ip m : list byte) (n : Z) :
  length ip = 4%nat /\ length m = 4%nat
  \/ length ip = 16%nat /\ length m = 16%nat /\ net.To4 ip = [] ->
  net.simpleMaskLength m = n -> 0 <= n ->
  net.IPNet_String (net.mkIPNet ip m) = net.IP_String ip +++ "/" +++ net.uitoa n.
Proof.
  intros H S R. unfold net.IPNet_String, net.networkNumberAndMask.
  cbn [net.IPNet_IP net.IPNet_Mask]. change net.IPv4len with 4%nat.
  change net.IPv6len with 16%nat.
  assert (Ni : ip <> []) by (intros ->; destruct H as [[X _] | [X _]]; discriminate X).
  assert (Nm : m <> []) by (intros ->; destruct H as [[_ X] | (_ & X & _)]; discriminate X).
  destruct H as [[Li Lm] | (Li & Lm & T)].
  - rewrite (To4_of_4 ip Li).
    destruct ip as [|x ip]; [contradiction|]. cbv iota beta zeta. rewrite Li, Lm.
    cbn [Nat.eqb negb]. cbv iota zeta.
    destruct m as [|y m]; [contradiction|].
    rewrite S. replace (n =? -1) with false by (symmetry; apply Z.eqb_neq; lia).
    reflexivity.
  - rewrite T, Li, Lm. cbn [Nat.eqb negb]. cbv iota zeta.
    destruct ip as [|x ip]; [contradiction|]. destruct m as [|y m]; [contradiction|].
    rewrite S. replace (n =? -1) with false by (symmetry; apply Z.eqb_neq; lia).
    reflexivity.
Qed.

(** A network that [ParseCIDR] returned is parsed back from its string
    form, unless it is an IPv4 network held in the 16-byte form. *)
Lemma ParseCIDR_String (ip0 : net.IP) (cidr : net.IPNet) :
  parsedNetwork ip0 (Some cidr) ->
  length (net.IPNet_IP cidr) = 4%nat \/ net.To4 (net.IPNet_IP cidr) = [] ->
  exists ip, net.ParseCIDR (net.IPNet_String cidr) = (ip, Some cidr, None).
Proof.
  intros [n [((a & b & c & d & ->) & R & [= ->]) | (L & R & [= ->])]] F.
  - destruct (mask_facts 32 n ltac:(auto) R) as [S _].
    pose proof (CIDRMask_length n 32 R ltac:(auto)) as Lm.
    change (Z.to_nat (32 / 8)) with 4%nat in Lm.
    destruct (length_4 _ Lm) as (m0 & m1 & m2 & m3 & E).
    rewrite E in S |- *. rewrite Mask_IPv4.
    rewrite (IPNet_String_plain _ _ n) by (auto; lia).
    rewrite IP_String_4.
    rewrite (ParseCIDR_text_v4 _ n _ _ _ _ (dotted_no_slash _ _ _ _) R
               (parseIPv4_dotted _ _ _ _)).
    rewrite E, Mask_IPv4, !byte_and_idem. eauto.
  - destruct (mask_facts 128 n ltac:(auto) R) as [S _].
    pose proof (CIDRMask_length n 128 R ltac:(auto)) as Lm.
    change (Z.to_nat (128 / 8)) with 16%nat in Lm.
    cbn [net.IPNet_IP] in F.
    set (m := net.CIDRMask n 128) in *.
    assert (Li : length (net.Mask ip0 m) = 16%nat)
      by (rewrite (Mask_16 _ _ L Lm), length_map, length_combine, L, Lm; reflexivity).
    assert (T : net.To4 (net.Mask ip0 m) = []) by (destruct F as [F|F]; [congruence | exact F]).
    destruct (v6_no_slash_no_dot _ Li T) as [NS ND].
    rewrite (IPNet_String_plain _ _ n) by (auto; lia).
    assert (NE : net.Mask ip0 m <> []) by (intros Z0; rewrite Z0 in Li; discriminate Li).
    rewrite (ParseCIDR_text_v6 _ n _ NS R (parseIPv4_no_dot _ ND)
               (parseIPv6_String _ Li T) NE).
    fold m.
    rewrite (Mask_16 (net.Mask ip0 m) m Li Lm), (Mask_16 ip0 m L Lm), masked_idem.
    eauto.
Qed.

(** ** Export and import *)

Lemma import_export_certificate (c : certificates.Certificate) :
  certificates.NewCertificateFromv1alpha1 (exportCertificate c) = c.
Proof. now destruct c. Qed.

Lemma import_export_peers (peers : VPNPeerList) :
  newVPNPeersFromv1alpha1 (VPNPeerList_Export peers) = peers.
Proof.
  unfold newVPNPeersFromv1alpha1, VPNPeerList_Export. rewrite map_map.
  induction peers as [|[] peers IH]; [reflexivity|]. cbn [map]. now rewrite IH.
Qed.

Lemma import_export (c : Cluster) :
  complete c ->
  exists v c',
    Export c = Normal (v, c)
    /\ NewClusterFromv1alpha1 v = (Some c', None)
    /\ Name c' = Name c
    /\ CertificateAuthorities_ c' = CertificateAuthorities_ c
    /\ EtcdServer_ c' = EtcdServer_ c
    /\ APIServer c' = APIServer c
    /\ StorageClientEndpoints c' = StorageClientEndpoints c
    /\ StoragePeerEndpoints c' = StoragePeerEndpoints c
    /\ VPNPeers c' = VPNPeers c
    /\ VPNCIDR c'
       = match VPNCIDR c with
         | Some cidr => snd (fst (net.ParseCIDR (net.IPNet_String cidr)))
         | None => None
         end.
Proof.
  intros (cas & etcd & api & cidr & E1 & E2 & E3 & E4).
  cbv beta iota delta [Export bind receiver ret panic]. rewrite E1, E2, E3, E4.
  eexists _, _. split; [reflexivity|]. split; [reflexivity|].
  cbn [NewClusterFromv1alpha1 Name CertificateAuthorities_ EtcdServer_ APIServer
       StorageClientEndpoints StoragePeerEndpoints VPNPeers VPNCIDR
       clusterv1alpha1.Cluster_ObjectMeta clusterv1alpha1.ObjectMeta_Name
       clusterv1alpha1.Cluster_Spec clusterv1alpha1.Cluster_Status
       clusterv1alpha1.Spec_CertificateAuthorities clusterv1alpha1.Spec_APIServer
       clusterv1alpha1.Spec_EtcdServer clusterv1alpha1.Spec_VPNCIDR
       clusterv1alpha1.Status_StorageClientEndpoints
       clusterv1alpha1.Status_StoragePeerEndpoints clusterv1alpha1.Status_VPNPeers
       clusterv1alpha1.APIServerClient clusterv1alpha1.CertificateSigner
       clusterv1alpha1.Kubelet clusterv1alpha1.EtcdClient clusterv1alpha1.EtcdPeer
       clusterv1alpha1.KubeAPIServer_CA clusterv1alpha1.KubeAPIServer_TLSCert
       clusterv1alpha1.KubeAPIServer_TLSPrivateKey
       clusterv1alpha1.KubeAPIServer_ServiceAccount
       clusterv1alpha1.KubeAPIServer_ExtraSANs clusterv1alpha1.KeyPair_PublicKey
       clusterv1alpha1.KeyPair_PrivateKey clusterv1alpha1.EtcdServer_CA
       clusterv1alpha1.EtcdServer_TLSCert clusterv1alpha1.EtcdServer_TLSPrivateKey
       clusterv1alpha1.EtcdServer_ExtraSANs].
  rewrite !import_export_certificate, import_export_peers.
  repeat split.
  - now destruct cas.
  - now destruct etcd.
  - now destruct api.
  - unfold newVPNCIDRFromv1alpha1. cbn [net.IPNet_String_ptr].
    destruct (net.ParseCIDR (net.IPNet_String cidr)) as [[ip net0] e]. reflexivity.
Qed.

Section RoundTrip.

Variable newCertificateAuthorities : CertificateAuthorities + error.
Variable newEtcdServer : list string -> EtcdServer + error.
Variable newKubeAPIServer : list string -> KubeAPIServer + error.
Variable Key_String : wgtypes.Key -> string.
Variable Key_PublicKey : wgtypes.Key -> wgtypes.Key.

Lemma NewCluster_complete (clusterName vpnCIDR : string) (sans1 sans2 : list string)
    (generated : wgtypes.Key * option error) (c : Cluster) :
  NewCluster newCertificateAuthorities newEtcdServer newKubeAPIServer
    Key_String Key_PublicKey clusterName vpnCIDR sans1 sans2 generated
  = Normal (Some c, None) ->
  complete c
  /\ exists ip cidr, VPNCIDR c = Some cidr /\ parsedNetwork ip (Some cidr).
Proof.
  intros H. apply NewCluster_success in H.
  destruct H as (ip & cidr & cas & etcd & api & HP & _ & _ & _ & _ & G).
  pose proof (ParseCIDR_parsed _ _ _ HP) as P.
  assert (exists net0, cidr = Some net0) as [net0 ->]
    by (destruct P as [n [(_ & _ & ->) | (_ & _ & ->)]]; eauto).
  destruct (fun E => GenerateVPNPeer_success _ _ _ _ _ _ net0 E G) as (a & k & _ & _ & ->);
    [reflexivity|].
  split.
  - exists cas, etcd, api, net0. repeat split.
  - exists ip, net0. split; [reflexivity | exact P].
Qed.

(** C2, as the code has it.  For a cluster [c] produced by [NewCluster],
    importing what [Export] returns gives a cluster equal to [c] on the
    name, the certificate authorities, the etcd and API server parts, the
    endpoint lists and the peer list; it is equal on the VPN CIDR too, hence
    equal to [c], unless the CIDR is an IPv4 network held in the 16-byte
    form (it was given in the IPv4-mapped IPv6 notation). *)
Theorem export_import_round_trip (clusterName vpnCIDR : string)
    (sans1 sans2 : list string) (generated : wgtypes.Key * option error) (c : Cluster) :
  NewCluster newCertificateAuthorities newEtcdServer newKubeAPIServer
    Key_String Key_PublicKey clusterName vpnCIDR sans1 sans2 generated
  = Normal (Some c, None) ->
  exists v c',
    Export c = Normal (v, c)
    /\ NewClusterFromv1alpha1 v = (Some c', None)
    /\ Name c' = Name c
    /\ CertificateAuthorities_ c' = CertificateAuthorities_ c
    /\ EtcdServer_ c' = EtcdServer_ c
    /\ APIServer c' = APIServer c
    /\ StorageClientEndpoints c' = StorageClientEndpoints c
    /\ StoragePeerEndpoints c' = StoragePeerEndpoints c
    /\ VPNPeers c' = VPNPeers c
    /\ ((forall cidr, VPNCIDR c = Some cidr ->
           length (net.IPNet_IP cidr) = 4%nat \/ net.To4 (net.IPNet_IP cidr) = []) ->
        VPNCIDR c' = VPNCIDR c /\ c' = c).
Proof.
  intros H. destruct (NewCluster_complete _ _ _ _ _ _ H) as (C & ip & cidr & HC & P).
  destruct (import_export c C)
    as (v & c' & Ex & Im & E1 & E2 & E3 & E4 & E5 & E6 & E7 & E8).
  exists v, c'. repeat (split; [assumption|]).
  intros F. rewrite HC in E8.
  destruct (ParseCIDR_String ip cidr P (F cidr HC)) as (ip' & R). rewrite R in E8.
  cbn [fst snd] in E8. rewrite <- HC in E8. split; [exact E8|].
  destruct c, c'. cbn in *. now subst.
Qed.

End RoundTrip.

(** C2, as stated, fails for a CIDR given in the IPv4-mapped notation:
    [ParseCIDR] keeps the 16-byte form, the string form is that of the IPv4
    network, and parsing it gives the 4-byte form. *)
Lemma round_trip_of_ipv4_mapped_cidr :
  exists c v c',
    newDemoCluster "::ffff:10.0.0.0/112" = Normal (Some c, None)
    /\ Export c = Normal (v, c)
    /\ NewClusterFromv1alpha1 v = (Some c', None)
    /\ clusterv1alpha1.Spec_VPNCIDR (clusterv1alpha1.Cluster_Spec v) = "10.0.0.0/16"%string
    /\ VPNCIDR c' <> VPNCIDR c.
Proof.
  eexists _, _, _. split; [vm_compute; reflexivity|].
  split; [vm_compute; reflexivity|]. split; [vm_compute; reflexivity|].
  split; [vm_compute; reflexivity|]. vm_compute. discriminate.
Qed.

Lemma export_import_round_trip_witness :
  exists c,
    newDemoCluster "fd00:1::/64" = Normal (Some c, None)
    /\ exists v c',
         Export c = Normal (v, c)
         /\ NewClusterFromv1alpha1 v = (Some c', None)
         /\ Name c' = Name c
         /\ CertificateAuthorities_ c' = CertificateAuthorities_ c
         /\ EtcdServer_ c' = EtcdServer_ c
         /\ APIServer c' = APIServer c
         /\ StorageClientEndpoints c' = StorageClientEndpoints c
         /\ StoragePeerEndpoints c' = StoragePeerEndpoints c
         /\ VPNPeers c' = VPNPeers c
         /\ ((forall cidr, VPNCIDR c = Some cidr ->
                length (net.IPNet_IP cidr) = 4%nat \/ net.To4 (net.IPNet_IP cidr) = []) ->
             VPNCIDR c' = VPNCIDR c /\ c' = c).
Proof.
  eexists. split; [vm_compute; reflexivity|].
  apply (export_import_round_trip (inl someAuthorities) someEtcdServer someKubeAPIServer
           printKey publicKey "demo" "fd00:1::/64" [] [] someKey).
  vm_compute. reflexivity.
Defined.

(** ** The address [requestVPNIP] computes *)

Lemma be_bytes_length (len : nat) (x : Z) : length (be_bytes len x) = len.
Proof. induction len as [|len IH]; cbn [be_bytes length]; [reflexivity | now rewrite IH]. Qed.

Lemma SetBytes_be_bytes (len : nat) (x : Z) :
  big.SetBytes (be_bytes len x) = x mod 256 ^ Z.of_nat len.
Proof.
  induction len as [|len IH].
  - cbn. now rewrite Z.mod_1_r.
  - cbn [be_bytes]. rewrite SetBytes_cons, be_bytes_length, IH, b2z_z2b.
    rewrite Nat2Z.inj_succ, Z.pow_succ_r by lia.
    assert (0 < 256 ^ Z.of_nat len) by (apply Z.pow_pos_nonneg; lia).
    rewrite (Z.mul_comm 256), Z.rem_mul_r by lia. unfold big.Int. lia.
Qed.

Lemma Bytes_length_le (x : Z) (k : nat) :
  0 <= x < 256 ^ Z.of_nat k -> (length (big.Bytes x) <= k)%nat.
Proof.
  intros R. destruct (Nat.le_gt_cases (length (big.Bytes x)) k) as [|G]; [assumption|].
  exfalso.
  assert (N : big.Bytes x <> []) by (intros Z0; rewrite Z0 in G; cbn in G; lia).
  pose proof (canonical_lower _ (Bytes_canonical x) N) as Lo.
  rewrite SetBytes_Bytes in Lo by lia.
  assert (256 ^ Z.of_nat k <= 256 ^ (Z.of_nat (length (big.Bytes x)) - 1))
    by (apply Z.pow_le_mono_r; lia).
  lia.
Qed.

Lemma Bytes_length_ge (x : Z) (k : nat) :
  256 ^ Z.of_nat k <= x -> (k < length (big.Bytes x))%nat.
Proof.
  intros R. assert (0 < 256 ^ Z.of_nat k) by (apply Z.pow_pos_nonneg; lia).
  pose proof (SetBytes_range (big.Bytes x)) as S. rewrite SetBytes_Bytes in S by lia.
  destruct (Nat.le_gt_cases (length (big.Bytes x)) k) as [L|]; [|assumption].
  exfalso.
  assert (256 ^ Z.of_nat (length (big.Bytes x)) <= 256 ^ Z.of_nat k)
    by (apply Z.pow_le_mono_r; lia).
  lia.
Qed.

Lemma Contains_other_length (cidr : net.IPNet) (ip : list byte) :
  wellFormed cidr -> length ip <> 4%nat -> length ip <> 16%nat ->
  net.Contains cidr ip = false.
Proof.
  intros W N4 N16. destruct (net.Contains cidr ip) eqn:C; [|reflexivity].
  apply Contains_length in C. rewrite (To4_other ip N4 N16) in C.
  rewrite (networkNumber_length cidr W) in C.
  exfalso. destruct (net.To4 (net.IPNet_IP cidr)), ip; cbn [length] in *; lia.
Qed.

(** The sum [requestVPNIP] computes, cut to the length of the addresses
    of the network. *)
Lemma requestVPNIP_sum (c : Cluster) (cidr : net.IPNet) :
  VPNCIDR c = Some cidr -> wellFormed cidr ->
  length (net.IPNet_IP cidr) = 4%nat \/ canonical (net.IPNet_IP cidr) ->
  Z.of_nat (length (VPNPeers c)) < maxInt ->
  requestVPNIP c
  = if inNetwork cidr (Z.of_nat (length (VPNPeers c)) + 1)
    then Normal ((net.IP_String (networkPlus cidr (Z.of_nat (length (VPNPeers c)) + 1)),
                  None), c)
    else Normal ((EmptyString, Some (exhausted cidr)), c).
Proof.
  intros HC W F Hn. rewrite (requestVPNIP_assigned c cidr HC).
  unfold assignedSlice, inNetwork, networkPlus, big.Add, big.NewInt.
  rewrite int64_small by lia.
  set (k := Z.of_nat (length (VPNPeers c)) + 1).
  assert (Hk : 1 <= k < 2 ^ 63) by (unfold k, maxInt in *; lia).
  destruct cidr as [ip m]. cbn [net.IPNet_IP net.IPNet_Mask] in *.
  pose proof (SetBytes_range ip) as Rip.
  change net.IPv6len with 16%nat.
  destruct W as [[Li Lm] | [Li Lm]]; cbn [net.IPNet_IP net.IPNet_Mask] in Li, Lm.
  - (* 4-byte addresses *)
    destruct (length_4 ip Li) as (a & b & c0 & d & ->).
    change (net.To16 [a; b; c0; d]) with (net.IPv4 a b c0 d). rewrite SetBytes_IPv4.
    set (N := big.SetBytes [a; b; c0; d]) in *. rewrite Li in *.
    change (256 ^ Z.of_nat 4) with 4294967296 in *. change (2 ^ 32) with 4294967296.
    change (2 ^ 63) with 9223372036854775808 in Hk.
    destruct (Z.ltb_spec (N + k) 4294967296) as [In|Out]; cbn [andb].
    + assert (E : big.Bytes (65535 * 4294967296 + N + k)
                  = [Byte.xff; Byte.xff] ++ be_bytes 4 (N + k)).
      { rewrite <- (Bytes_of_canonical ([Byte.xff; Byte.xff] ++ be_bytes 4 (N + k)))
          by (cbn; discriminate).
        f_equal. rewrite SetBytes_app, be_bytes_length, SetBytes_be_bytes.
        change (256 ^ Z.of_nat 4) with 4294967296.
        rewrite Z.mod_small by (unfold big.Int in *; lia).
        change (big.SetBytes [Byte.xff; Byte.xff]) with 65535. unfold big.Int in *. lia. }
      rewrite E. cbn [app length Nat.ltb Nat.leb Nat.eqb skipn].
      destruct (net.Contains _ _); reflexivity.
    + set (B := big.Bytes (65535 * 4294967296 + N + k)).
      assert (L7 : (6 < length B)%nat)
        by (apply Bytes_length_ge; change (256 ^ Z.of_nat 6) with 281474976710656;
            unfold big.Int in *; lia).
      assert (L8 : (length B <= 8)%nat)
        by (apply Bytes_length_le; change (256 ^ Z.of_nat 8) with 18446744073709551616;
            unfold big.Int in *; lia).
      replace (length B <? 2)%nat with false by (symmetry; apply Nat.ltb_ge; lia).
      replace (length B =? 16)%nat with false by (symmetry; apply Nat.eqb_neq; lia).
      rewrite Contains_other_length; [reflexivity | left; split; assumption | |];
        rewrite length_skipn; lia.
  - (* 16-byte addresses that do not start with a zero byte *)
    destruct F as [F|F]; [rewrite Li in F; discriminate F|].
    assert (T16 : net.To16 ip = ip).
    { unfold net.To16. rewrite Li. reflexivity. }
    rewrite T16. set (N := big.SetBytes ip) in *. rewrite Li in *.
    assert (Lo : 256 ^ 15 <= N).
    { assert (Nn : ip <> []) by (intros ->; discriminate Li).
      pose proof (canonical_lower ip F Nn) as X. rewrite Li in X. exact X. }
    change (256 ^ Z.of_nat 16) with 340282366920938463463374607431768211456 in *.
    change (256 ^ 15) with 1329227995784915872903807060280344576 in Lo.
    change (2 ^ 63) with 9223372036854775808 in Hk.
    destruct (Z.ltb_spec (N + k) 340282366920938463463374607431768211456) as [In|Out];
      cbn [andb].
    + assert (E : big.Bytes (N + k) = be_bytes 16 (N + k)).
      { rewrite <- (Bytes_of_canonical (be_bytes 16 (N + k))).
        - f_equal. rewrite SetBytes_be_bytes.
          change (256 ^ Z.of_nat 16) with 340282366920938463463374607431768211456.
          rewrite Z.mod_small by (unfold big.Int in *; lia). reflexivity.
        - cbn [be_bytes canonical]. intros Z0. apply (f_equal b2z) in Z0.
          rewrite b2z_z2b in Z0. change (b2z Byte.x00) with 0 in Z0.
          change (256 ^ Z.of_nat 15) with 1329227995784915872903807060280344576 in Z0.
          assert (1 <= (N + k) / 1329227995784915872903807060280344576 < 256).
          { split; [apply Z.div_le_lower_bound | apply Z.div_lt_upper_bound];
              unfold big.Int in *; lia. }
          rewrite Z.mod_small in Z0 by lia. lia. }
      rewrite E, be_bytes_length. cbn [Nat.ltb Nat.leb Nat.eqb].
      destruct (net.Contains _ _); reflexivity.
    + set (B := big.Bytes (N + k)).
      assert (L17 : (16 < length B)%nat)
        by (apply Bytes_length_ge;
            change (256 ^ Z.of_nat 16) with 340282366920938463463374607431768211456;
            unfold big.Int in *; lia).
      assert (L18 : (length B <= 17)%nat)
        by (apply Bytes_length_le;
            change (256 ^ Z.of_nat 17) with 87112285931760246646623899502532662132736;
            unfold big.Int in *; lia).
      replace (length B <? 2)%nat with false by (symmetry; apply Nat.ltb_ge; lia).
      replace (length B =? 16)%nat with false by (symmetry; apply Nat.eqb_neq; lia).
      rewrite Contains_other_length; [reflexivity | right; split; assumption | |];
        rewrite length_skipn; lia.
Qed.

(** For a network of 4-byte addresses, and for one of 16-byte addresses
    whose first byte is not zero, [requestVPNIP] returns the network address
    plus the number of peers plus one when that address is in the network,
    and the exhaustion error otherwise. *)
Theorem requestVPNIP_address (c : Cluster) (cidr : net.IPNet) :
  VPNCIDR c = Some cidr -> wellFormed cidr ->
  length (net.IPNet_IP cidr) = 4%nat \/ canonical (net.IPNet_IP cidr) ->
  Z.of_nat (length (VPNPeers c)) < maxInt ->
  requestVPNIP c
  = if inNetwork cidr (Z.of_nat (length (VPNPeers c)) + 1)
    then Normal ((net.IP_String (networkPlus cidr (Z.of_nat (length (VPNPeers c)) + 1)),
                  None), c)
    else Normal ((EmptyString, Some (exhausted cidr)), c).
Proof. exact (requestVPNIP_sum c cidr). Qed.

Lemma requestVPNIP_address_witness :
  requestVPNIP (emptyCluster "demo" [])
  = Normal (("10.0.0.1"%string, None), emptyCluster "demo" []).
Proof.
  rewrite (requestVPNIP_address (emptyCluster "demo" [])
             (net.mkIPNet [Byte.x0a; Byte.x00; Byte.x00; Byte.x00]
                          [Byte.xff; Byte.xff; Byte.xff; Byte.xfc])).
  - vm_compute. reflexivity.
  - vm_compute. reflexivity.
  - left. split; reflexivity.
  - left. reflexivity.
  - vm_compute. reflexivity.
Defined.

(** C1 does not hold of the code for every valid CIDR.  The addresses of
    the network [64:ff9b::/96] are sixteen bytes long and start with a zero
    byte.  Its address plus one, [64:ff9b::1], is in the network, yet
    [requestVPNIP] on a cluster without peers answers that the network has
    no address left, and [NewCluster] fails with that error.  On [::/64],
    where [::1] is in the network, both panic. *)
Theorem requestVPNIP_leading_zero_byte :
  let c := clusterOn "64:ff9b::/96" "demo" [] in
  let z := clusterOn "::/64" "demo" [] in
  let full := Errorf "not enough IP addresses to assign in the %q CIDR" "64:ff9b::/96" in
  (exists cidr,
      VPNCIDR c = Some cidr /\ wellFormed cidr
      /\ inNetwork cidr 1 = true
      /\ net.IP_String (networkPlus cidr 1) = "64:ff9b::1"%string
      /\ exhausted cidr = full)
  /\ requestVPNIP c = Normal ((EmptyString, Some full), c)
  /\ newDemoCluster "64:ff9b::/96" = Normal (None, Some full)
  /\ (exists cidr,
        VPNCIDR z = Some cidr /\ wellFormed cidr
        /\ inNetwork cidr 1 = true
        /\ net.IP_String (networkPlus cidr 1) = "::1"%string)
  /\ requestVPNIP z = Panicked
  /\ newDemoCluster "::/64" = Panicked.
Proof.
  cbv zeta.
  split; [|split; [|split; [|split; [|split]]]].
  - eexists. split; [vm_compute; reflexivity|].
    split; [right; split; reflexivity|].
    split; [vm_compute; reflexivity|].
    split; vm_compute; reflexivity.
  - vm_compute. reflexivity.
  - vm_compute. reflexivity.
  - eexists. split; [vm_compute; reflexivity|].
    split; [right; split; reflexivity|].
    split; vm_compute; reflexivity.
  - vm_compute. reflexivity.
  - vm_compute. reflexivity.
Qed.

(** ** The size of a network *)

Lemma maskByte_ok_all :
  all_from 9 0 (fun n => all_from 256 0 (maskByte_ok n)) = true.
Proof. vm_compute. reflexivity. Qed.

Lemma maskByte_value (n : Z) (x : byte) :
  0 <= n <= 8 ->
  b2z (byte_and x (maskByte n)) = b2z x / 2 ^ (8 - n) * 2 ^ (8 - n).
Proof.
  intros R. pose proof (b2z_range x) as Rx.
  pose proof (all_from_spec _ _ _ maskByte_ok_all n ltac:(lia)) as H. cbv beta in H.
  pose proof (all_from_spec _ _ _ H (b2z x) ltac:(lia)) as K.
  unfold maskByte_ok in K. rewrite z2b_b2z in K. now apply Z.eqb_eq in K.
Qed.

Lemma CIDRMask_loop_step (l : nat) (n : Z) :
  net.CIDRMask_loop (S l) n
  = maskByte n :: net.CIDRMask_loop l (if 8 <=? n then n - 8 else 0).
Proof. cbn [net.CIDRMask_loop]. unfold maskByte. destruct (8 <=? n); reflexivity. Qed.

Lemma pow2_split (a b : Z) : 0 <= a -> 0 <= b -> 2 ^ (a + b) = 2 ^ a * 2 ^ b.
Proof. intros. now rewrite Z.pow_add_r. Qed.

Lemma pow256 (k : nat) : 256 ^ Z.of_nat k = 2 ^ (8 * Z.of_nat k).
Proof. change 256 with (2 ^ 8). rewrite <- Z.pow_mul_r by lia. reflexivity. Qed.

(** Masking with a prefix mask clears the bits below the prefix. *)
Lemma masked_value (l : list byte) (n : Z) :
  0 <= n <= 8 * Z.of_nat (length l) ->
  big.SetBytes (map (fun p => byte_and (fst p) (snd p))
                    (combine l (net.CIDRMask_loop (length l) n)))
  = big.SetBytes l / 2 ^ (8 * Z.of_nat (length l) - n)
    * 2 ^ (8 * Z.of_nat (length l) - n).
Proof.
  revert n. induction l as [|x l IH]; intros n R.
  - cbn. reflexivity.
  - cbn [length] in *. rewrite CIDRMask_loop_step. cbn [combine map fst snd].
    rewrite !SetBytes_cons, length_map, length_combine, CIDRMask_loop_length, Nat.min_id.
    pose proof (SetBytes_range l) as Rl. pose proof (b2z_range x) as Rx.
    rewrite pow256 in *.
    set (L := Z.of_nat (length l)) in *.
    replace (Z.of_nat (S (length l))) with (L + 1) in * by (unfold L; lia).
    assert (0 <= L) by (unfold L; lia).
    destruct (Z.leb_spec 8 n) as [G|G].
    + rewrite IH by lia.
      replace (maskByte n) with Byte.xff
        by (unfold maskByte; now destruct (Z.leb_spec 8 n); [|lia]).
      replace (byte_and x Byte.xff) with x.
      2:{ apply b2z_inj. pose proof (maskByte_value 8 x ltac:(lia)) as M.
          change (maskByte 8) with Byte.xff in M. rewrite M.
          change (2 ^ (8 - 8)) with 1. rewrite Z.div_1_r. lia. }
      replace (8 * L - (n - 8)) with (8 * (L + 1) - n) by lia.
      set (h := 8 * (L + 1) - n).
      assert (Hh : 0 <= h <= 8 * L) by (unfold h; lia).
      assert (E : 2 ^ (8 * L) = 2 ^ h * 2 ^ (8 * L - h))
        by (rewrite <- pow2_split by lia; f_equal; lia).
      rewrite E in *.
      set (P := 2 ^ h) in *. set (Q := 2 ^ (8 * L - h)) in *.
      assert (0 < P) by (apply Z.pow_pos_nonneg; lia).
      replace (b2z x * (P * Q) + big.SetBytes l) with (big.SetBytes l + b2z x * Q * P)
        by (unfold big.Int; lia).
      rewrite Z.div_add by lia. unfold big.Int in *. lia.
    + rewrite IH by lia. rewrite Z.sub_0_r.
      rewrite (Z.div_small (big.SetBytes l)) by (unfold big.Int in *; lia).
      rewrite maskByte_value by lia.
      replace (8 * (L + 1) - n) with (8 * L + (8 - n)) by lia.
      rewrite pow2_split by lia.
      set (P := 2 ^ (8 * L)) in *. set (Q := 2 ^ (8 - n)).
      assert (0 < P) by (apply Z.pow_pos_nonneg; lia).
      assert (0 < Q) by (apply Z.pow_pos_nonneg; lia).
      rewrite <- Z.div_div by lia.
      replace (b2z x * P + big.SetBytes l) with (big.SetBytes l + b2z x * P)
        by (unfold big.Int; lia).
      rewrite Z.div_add by lia.
      rewrite (Z.div_small (big.SetBytes l)) by (unfold big.Int in *; lia).
      rewrite Z.add_0_l. unfold big.Int in *. ring.
Qed.

Lemma forallb_mapped {A B : Type} (f : B -> bool) (g : A -> B) (l : list A) :
  forallb f (map g l) = forallb (fun x => f (g x)) l.
Proof. induction l as [|x l IH]; cbn; [reflexivity | now rewrite IH]. Qed.

Lemma byte_eqb_eq (x y : byte) : Byte.eqb x y = true <-> x = y.
Proof. split; [apply Byte.byte_dec_bl | apply Byte.byte_dec_lb]. Qed.

Lemma forallb_at (nn m ip : list byte) :
  length nn = length ip -> length m = length ip ->
  forallb (fun i => Byte.eqb (byte_and (net.at_ nn i) (net.at_ m i))
                             (byte_and (net.at_ ip i) (net.at_ m i)))
          (seq 0 (length ip)) = true
  <-> map (fun p => byte_and (fst p) (snd p)) (combine nn m)
      = map (fun p => byte_and (fst p) (snd p)) (combine ip m).
Proof.
  revert nn m. induction ip as [|x ip IH]; intros [|y nn] [|z m] L1 L2;
    try discriminate L1; try discriminate L2.
  - cbn. tauto.
  - cbn [length seq]. rewrite <- seq_shift. cbn [forallb combine map fst snd].
    rewrite forallb_mapped. unfold net.at_ at 1 2 3 4. cbn [nth].
    rewrite andb_true_iff, byte_eqb_eq.
    specialize (IH nn m ltac:(now injection L1) ltac:(now injection L2)).
    unfold net.at_ in *. cbn [nth]. rewrite IH. split.
    + intros [-> ->]. reflexivity.
    + intros E. injection E as E1 E2. split; assumption.
Qed.

Lemma Contains_4 (nn m ip : list byte) :
  length nn = 4%nat -> length m = 4%nat -> length ip = 4%nat ->
  net.Contains (net.mkIPNet nn m) ip = true
  <-> map (fun p => byte_and (fst p) (snd p)) (combine nn m)
      = map (fun p => byte_and (fst p) (snd p)) (combine ip m).
Proof.
  intros Ln Lm Li. rewrite <- forallb_at by congruence.
  unfold net.Contains, net.networkNumberAndMask. cbn [net.IPNet_IP net.IPNet_Mask].
  rewrite !To4_of_4 by assumption.
  destruct (length_4 nn Ln) as (a & b & c & d & ->).
  destruct (length_4 ip Li) as (a' & b' & c' & d' & ->).
  cbv zeta. rewrite Lm. cbn [length Nat.eqb negb net.IPv4len]. reflexivity.
Qed.

Lemma Contains_16 (nn m ip : list byte) :
  length nn = 16%nat -> length m = 16%nat -> length ip = 16%nat ->
  net.To4 nn = [] -> net.To4 ip = [] ->
  net.Contains (net.mkIPNet nn m) ip = true
  <-> map (fun p => byte_and (fst p) (snd p)) (combine nn m)
      = map (fun p => byte_and (fst p) (snd p)) (combine ip m).
Proof.
  intros Ln Lm Li Tn Ti. rewrite <- forallb_at by congruence.
  unfold net.Contains, net.networkNumberAndMask. cbn [net.IPNet_IP net.IPNet_Mask].
  rewrite Tn, Ti. cbv zeta. rewrite Ln, Lm, Li.
  cbn [length Nat.eqb negb net.IPv4len net.IPv6len]. rewrite Ln. cbn [Nat.eqb negb].
  reflexivity.
Qed.

Lemma be_bytes_canonical (len : nat) (x : Z) :
  256 ^ Z.of_nat len <= x < 256 ^ Z.of_nat (S len) -> canonical (be_bytes (S len) x).
Proof.
  intros R. cbn [be_bytes canonical]. intros Z0. apply (f_equal b2z) in Z0.
  rewrite b2z_z2b in Z0. change (b2z Byte.x00) with 0 in Z0.
  assert (P : 0 < 256 ^ Z.of_nat len) by (apply Z.pow_pos_nonneg; lia).
  rewrite Nat2Z.inj_succ, Z.pow_succ_r in R by lia.
  assert (1 <= x / 256 ^ Z.of_nat len < 256).
  { split; [apply Z.div_le_lower_bound | apply Z.div_lt_upper_bound]; lia. }
  rewrite Z.mod_small in Z0 by lia. lia.
Qed.

(** [Contains] compares the bits of the prefix: an address of the length
    of the network's is in the network exactly when, as a number, it has
    the quotient of the network address by [2 ^ (bits - n)]. *)
Lemma Contains_prefix (ip0 x : list byte) (n : Z) :
  let m := net.CIDRMask_loop (length ip0) n in
  let nn := map (fun p => byte_and (fst p) (snd p)) (combine ip0 m) in
  length x = length ip0 ->
  length ip0 = 4%nat \/ length ip0 = 16%nat /\ net.To4 nn = [] /\ net.To4 x = [] ->
  0 <= n <= 8 * Z.of_nat (length ip0) ->
  net.Contains (net.mkIPNet nn m) x = true
  <-> big.SetBytes x / 2 ^ (8 * Z.of_nat (length ip0) - n)
      = big.SetBytes ip0 / 2 ^ (8 * Z.of_nat (length ip0) - n).
Proof.
  intros m nn Lx F Rn.
  assert (Lm : length m = length ip0) by apply CIDRMask_loop_length.
  assert (Ln : length nn = length ip0)
    by (unfold nn; rewrite length_map, length_combine, Lm; apply Nat.min_id).
  assert (Idem : map (fun p => byte_and (fst p) (snd p)) (combine nn m) = nn)
    by apply masked_idem.
  pose proof (masked_value ip0 n Rn) as V. fold m nn in V.
  pose proof (masked_value x n) as W. rewrite Lx in W. fold m in W.
  specialize (W Rn).
  set (h := 8 * Z.of_nat (length ip0) - n) in *.
  assert (Pp : 0 < 2 ^ h) by (apply Z.pow_pos_nonneg; unfold h; lia).
  assert (Cl : net.Contains (net.mkIPNet nn m) x = true
               <-> nn = map (fun p => byte_and (fst p) (snd p)) (combine x m)).
  { destruct F as [F | (F & Tn & Tx)].
    - rewrite (Contains_4 nn m) by congruence. rewrite Idem. reflexivity.
    - rewrite (Contains_16 nn m) by congruence. rewrite Idem. reflexivity. }
  rewrite Cl. split.
  - intros Eq. apply (f_equal big.SetBytes) in Eq. rewrite V, W in Eq.
    unfold big.Int in *. nia.
  - intros Eq. apply SetBytes_inj.
    + rewrite length_map, length_combine, Lm, Ln, Lx. symmetry. apply Nat.min_id.
    + rewrite V, W, Eq. reflexivity.
Qed.

(** [be_bytes] writes a number that fits in [len] bytes. *)
Lemma be_bytes_value (len : nat) (x : Z) :
  0 <= x < 256 ^ Z.of_nat len -> big.SetBytes (be_bytes len x) = x.
Proof. intros R. rewrite SetBytes_be_bytes. apply Z.mod_small. exact R. Qed.

(** The addresses of a network with an [n]-bit prefix: the network address
    plus [k] is one of them exactly when [k] is below [2 ^ (bits - n)]. *)
Lemma inNetwork_prefix (ip0 : list byte) (n k : Z) :
  let m := net.CIDRMask_loop (length ip0) n in
  let cidr := net.mkIPNet (map (fun p => byte_and (fst p) (snd p)) (combine ip0 m)) m in
  length ip0 = 4%nat \/ length ip0 = 16%nat /\ canonical (net.IPNet_IP cidr) ->
  0 <= n <= 8 * Z.of_nat (length ip0) -> 0 <= k ->
  inNetwork cidr k = (k <? 2 ^ (8 * Z.of_nat (length ip0) - n)).
Proof.
  intros m cidr F Rn Rk.
  set (nn := map (fun p => byte_and (fst p) (snd p)) (combine ip0 m)) in *.
  assert (Lm : length m = length ip0) by apply CIDRMask_loop_length.
  assert (Ln : length nn = length ip0)
    by (unfold nn; rewrite length_map, length_combine, Lm; apply Nat.min_id).
  set (len := length ip0) in *. set (h := 8 * Z.of_nat len - n) in *.
  assert (Hh : 0 <= h <= 8 * Z.of_nat len) by (unfold h; lia).
  pose proof (masked_value ip0 n Rn) as V. fold len m nn h in V.
  pose proof (SetBytes_range ip0) as R0. fold len in R0. rewrite pow256 in R0.
  assert (E : 2 ^ (8 * Z.of_nat len) = 2 ^ h * 2 ^ (8 * Z.of_nat len - h))
    by (rewrite <- pow2_split by lia; f_equal; lia).
  assert (Pp : 0 < 2 ^ h) by (apply Z.pow_pos_nonneg; lia).
  assert (Qp : 0 < 2 ^ (8 * Z.of_nat len - h)) by (apply Z.pow_pos_nonneg; lia).
  set (N := big.SetBytes nn) in *. set (q := big.SetBytes ip0 / 2 ^ h) in *.
  assert (Rq : 0 <= q < 2 ^ (8 * Z.of_nat len - h)).
  { unfold q. split; [apply Z.div_pos | apply Z.div_lt_upper_bound];
      unfold big.Int in *; lia. }
  unfold inNetwork, networkPlus. change (net.IPNet_IP cidr) with nn. fold N.
  rewrite Ln. fold len. rewrite pow256.
  assert (Cn : forall x, 0 <= x < 2 ^ (8 * Z.of_nat len) -> N <= x ->
             net.Contains cidr (be_bytes len x) = true <-> x / 2 ^ h = q).
  { intros x Rx Nx.
    pose proof (Contains_prefix ip0 (be_bytes len x) n) as C. cbv zeta in C.
    fold len m nn h q in C. rewrite be_bytes_value in C by (rewrite pow256; exact Rx).
    apply C; [apply be_bytes_length | | exact Rn].
    destruct F as [F | [F Cn]]; [left; exact F | right].
    split; [exact F|]. change (net.IPNet_IP cidr) with nn in Cn. split.
    - apply canonical_16_To4; [congruence | exact Cn].
    - apply canonical_16_To4; [rewrite be_bytes_length; exact F|].
      rewrite F. apply be_bytes_canonical.
      assert (Ne : nn <> []) by (intros Z0; rewrite Z0 in Ln; cbn in Ln; lia).
      pose proof (canonical_lower nn Cn Ne) as Lo. rewrite Ln in Lo.
      rewrite F in Lo, Rx. fold N in Lo.
      change (Z.of_nat 16 - 1) with (Z.of_nat 15) in Lo.
      rewrite (pow256 16). unfold big.Int in *. lia. }
  destruct (Z.ltb_spec k (2 ^ h)) as [Lt|Ge].
  - assert (Rx : 0 <= N + k < 2 ^ (8 * Z.of_nat len))
      by (rewrite V, E; unfold big.Int in *; nia).
    replace (N + k <? 2 ^ (8 * Z.of_nat len)) with true
      by (symmetry; apply Z.ltb_lt; unfold big.Int in *; lia).
    cbn [andb]. apply Cn; [exact Rx | unfold big.Int in *; lia |].
    rewrite V. replace (q * 2 ^ h + k) with (k + q * 2 ^ h) by (unfold big.Int; lia).
    rewrite Z.div_add, Z.div_small by lia. reflexivity.
  - destruct (Z.ltb_spec (N + k) (2 ^ (8 * Z.of_nat len))) as [In|Out]; [|reflexivity].
    cbn [andb]. destruct (net.Contains cidr (be_bytes len (N + k))) eqn:C; [|reflexivity].
    exfalso. apply Cn in C; [| unfold big.Int in *; lia | unfold big.Int in *; lia].
    rewrite V in C. replace (q * 2 ^ h + k) with (k + q * 2 ^ h) in C by (unfold big.Int; lia).
    rewrite Z.div_add in C by lia.
    assert (1 <= k / 2 ^ h) by (apply Z.div_le_lower_bound; lia). lia.
Qed.

Lemma CIDRMask_loop_eq (n bits : Z) :
  0 <= n <= bits -> bits = 32 \/ bits = 128 ->
  net.CIDRMask n bits = net.CIDRMask_loop (Z.to_nat (bits / 8)) n.
Proof.
  intros R B. unfold net.CIDRMask.
  replace ((n <? 0) || (bits <? n)) with false
    by (symmetry; apply orb_false_iff; split; apply Z.ltb_ge; lia).
  destruct B as [-> | ->]; reflexivity.
Qed.

Lemma parsed_inNetwork (ip0 : net.IP) (cidr : net.IPNet) (k : Z) :
  parsedNetwork ip0 (Some cidr) ->
  length (net.IPNet_IP cidr) = 4%nat \/ canonical (net.IPNet_IP cidr) ->
  0 <= k ->
  inNetwork cidr k = (k <? networkSize cidr).
Proof.
  intros [n [((a & b & c & d & ->) & Rn & [= ->]) | (L & Rn & [= ->])]] F Rk;
    unfold networkSize; cbn [net.IPNet_IP net.IPNet_Mask] in *.
  - destruct (mask_facts 32 n ltac:(lia) Rn) as [-> _].
    rewrite CIDRMask_loop_eq in * by lia. change (Z.to_nat (32 / 8)) with 4%nat in *.
    pose proof (CIDRMask_loop_length 4 n) as Lm.
    destruct (length_4 _ Lm) as (m0 & m1 & m2 & m3 & Em).
    pose proof (inNetwork_prefix [a; b; c; d] n k) as P. cbv zeta in P.
    cbn [length] in P. rewrite Em in *. rewrite Mask_IPv4.
    cbn [combine map fst snd length] in *. apply P; [left; reflexivity | lia | exact Rk].
  - destruct (mask_facts 128 n ltac:(lia) Rn) as [-> _].
    rewrite CIDRMask_loop_eq in * by lia. change (Z.to_nat (128 / 8)) with 16%nat in *.
    pose proof (CIDRMask_loop_length 16 n) as Lm.
    rewrite Mask_16 in * by assumption.
    pose proof (inNetwork_prefix ip0 n k) as P. cbv zeta in P. rewrite L in P.
    assert (Ln : length (map (fun p => byte_and (fst p) (snd p))
                             (combine ip0 (net.CIDRMask_loop 16 n))) = 16%nat)
      by (rewrite length_map, length_combine, L, Lm; reflexivity).
    rewrite Ln in *. destruct F as [F|F]; [discriminate F|].
    apply P; [right; split; [reflexivity | exact F] | exact Rn | exact Rk].
Qed.

Lemma peerAddress_networkPlus (cidr : net.IPNet) (k : Z) :
  length (net.IPNet_IP cidr) = 4%nat
  \/ length (net.IPNet_IP cidr) = 16%nat /\ canonical (net.IPNet_IP cidr) ->
  0 <= k -> inNetwork cidr k = true ->
  peerAddress (networkPlus cidr k) = net.IP_String (networkPlus cidr k) +++ hostSuffix cidr.
Proof.
  intros F Rk I. unfold hostSuffix, networkPlus in *. destruct F as [L | [L Cn]]; rewrite L.
  - cbn [Nat.eqb]. destruct (length_4 _ (be_bytes_length 4 (big.SetBytes (net.IPNet_IP cidr) + k)))
      as (a & b & c & d & ->).
    rewrite peerAddress_4, IP_String_4. reflexivity.
  - cbn [Nat.eqb]. apply peerAddress_16; [apply be_bytes_length|].
    apply canonical_16_To4; [apply be_bytes_length|].
    apply be_bytes_canonical. unfold inNetwork in I. apply andb_true_iff in I.
    destruct I as [I _]. apply Z.ltb_lt in I. rewrite L in I.
    assert (Ne : net.IPNet_IP cidr <> []) by (intros Z0; rewrite Z0 in L; discriminate L).
    pose proof (canonical_lower _ Cn Ne) as Lo. rewrite L in Lo.
    change (Z.of_nat 16 - 1) with (Z.of_nat 15) in Lo. unfold big.Int in *.
    split; [|exact I]. eapply Z.le_trans; [exact Lo|]. clear -Rk. lia.
Qed.

Section Capacity.

Variable newCertificateAuthorities : CertificateAuthorities + error.
Variable newEtcdServer : list string -> EtcdServer + error.
Variable newKubeAPIServer : list string -> KubeAPIServer + error.
Variable Key_String : wgtypes.Key -> string.
Variable Key_PublicKey : wgtypes.Key -> wgtypes.Key.

Local Abbreviation GenerateVPNPeer := (cluster.GenerateVPNPeer Key_String Key_PublicKey).
Local Abbreviation NewCluster :=
  (cluster.NewCluster newCertificateAuthorities newEtcdServer newKubeAPIServer
     Key_String Key_PublicKey).

Local Abbreviation nextPeer := (props.nextPeer Key_String Key_PublicKey).

Lemma canonical_or_4 (cidr : net.IPNet) :
  wellFormed cidr ->
  length (net.IPNet_IP cidr) = 4%nat \/ canonical (net.IPNet_IP cidr) ->
  length (net.IPNet_IP cidr) = 4%nat
  \/ length (net.IPNet_IP cidr) = 16%nat /\ canonical (net.IPNet_IP cidr).
Proof. intros [[L _] | [L _]] [F|F]; auto. Qed.

Lemma GenerateVPNPeer_step (vpnCIDR : string) (ip0 : net.IP) (cidr : net.IPNet)
    (c : Cluster) (peerName : string) (privateKey : wgtypes.Key) (err : option error) :
  net.ParseCIDR vpnCIDR = (ip0, Some cidr, None) ->
  VPNCIDR c = Some cidr ->
  length (net.IPNet_IP cidr) = 4%nat \/ canonical (net.IPNet_IP cidr) ->
  Z.of_nat (length (VPNPeers c)) < maxInt ->
  GenerateVPNPeer peerName (privateKey, err) c
  = if Z.of_nat (length (VPNPeers c)) + 1 <? networkSize cidr then
      match err with
      | Some e => Normal (Some e, c)
      | None =>
          Normal (None,
                  set_VPNPeers
                    (VPNPeers c
                     ++ [nextPeer cidr (Z.of_nat (length (VPNPeers c))) peerName privateKey])
                    c)
      end
    else Normal (Some (exhausted cidr), c).
Proof.
  intros P HC F Hn. apply ParseCIDR_parsed in P.
  pose proof (parsedNetwork_wellFormed _ _ P) as W.
  unfold cluster.GenerateVPNPeer, bind.
  rewrite (requestVPNIP_sum c cidr HC W F Hn).
  rewrite (parsed_inNetwork ip0 cidr _ P F) by lia.
  pose proof (parsed_inNetwork ip0 cidr (Z.of_nat (length (VPNPeers c)) + 1) P F
                ltac:(lia)) as I.
  destruct (Z.of_nat (length (VPNPeers c)) + 1 <? networkSize cidr); [|reflexivity].
  destruct err as [e|]; [reflexivity|].
  unfold receiver, append.
  destruct (Z.leb_spec maxInt (Z.of_nat (length (VPNPeers c)))); [lia|].
  cbn [assign ret]. unfold props.nextPeer.
  rewrite <- (peerAddress_networkPlus cidr (Z.of_nat (length (VPNPeers c)) + 1)
                (canonical_or_4 cidr W F) ltac:(lia) I).
  reflexivity.
Qed.

Lemma NewCluster_result (clusterName vpnCIDR : string) (sans1 sans2 : list string)
    (ip0 : net.IP) (cidr : net.IPNet) (cas : CertificateAuthorities) (etcd : EtcdServer)
    (api : KubeAPIServer) (privateKey : wgtypes.Key) (err : option error) :
  net.ParseCIDR vpnCIDR = (ip0, Some cidr, None) ->
  length (net.IPNet_IP cidr) = 4%nat \/ canonical (net.IPNet_IP cidr) ->
  newCertificateAuthorities = inl cas ->
  newEtcdServer sans1 = inl etcd ->
  newKubeAPIServer sans2 = inl api ->
  NewCluster clusterName vpnCIDR sans1 sans2 (privateKey, err)
  = if 1 <? networkSize cidr then
      match err with
      | Some e => Normal (None, Some e)
      | None =>
          Normal (Some (mkCluster clusterName (Some cas) (Some etcd) (Some api) [] []
                          (Some cidr)
                          [nextPeer cidr 0 "control-plane-ingress" privateKey]),
                  None)
      end
    else Normal (None, Some (exhausted cidr)).
Proof.
  intros P F E1 E2 E3. unfold cluster.NewCluster. rewrite P.
  unfold generateCertificates. rewrite E1, E2, E3.
  cbn [pointer_and_error bind assign ret set_CertificateAuthorities set_EtcdServer
       set_APIServer Name CertificateAuthorities_ EtcdServer_ APIServer
       StorageClientEndpoints StoragePeerEndpoints VPNCIDR VPNPeers].
  change (set_APIServer _ _)
    with (mkCluster clusterName (Some cas) (Some etcd) (Some api) [] [] (Some cidr) []).
  rewrite (GenerateVPNPeer_step vpnCIDR ip0 cidr
             (mkCluster clusterName (Some cas) (Some etcd) (Some api) [] [] (Some cidr) [])
             "control-plane-ingress" privateKey err P eq_refl F)
    by (cbn; unfold maxInt; lia).
  cbn [VPNPeers length Z.of_nat Z.add app set_VPNPeers Name CertificateAuthorities_
       EtcdServer_ APIServer StorageClientEndpoints StoragePeerEndpoints VPNCIDR].
  destruct (1 <? networkSize cidr); [|reflexivity].
  destruct err; reflexivity.
Qed.

(** [GenerateVPNPeer] on a cluster with [n] peers whose network is what
    [net.ParseCIDR] returns for some string, of IPv4 addresses or of IPv6
    addresses that do not start with a zero byte.  If [n + 1] is below the
    number of addresses of the network, the call fails with the error of
    the key generation when there is one, and otherwise appends one peer:
    the name given, the network address plus [n + 1] printed as a [/32] or
    [/128] host, the two keys in their string form.  If not, it fails with
    the error that names the network, whether or not a key could be
    generated.  A failing call leaves the cluster as it was. *)
Theorem GenerateVPNPeer_cases (vpnCIDR : string) (ip0 : net.IP) (cidr : net.IPNet)
    (c : Cluster) (peerName : string) (privateKey : wgtypes.Key) (err : option error) :
  net.ParseCIDR vpnCIDR = (ip0, Some cidr, None) ->
  VPNCIDR c = Some cidr ->
  length (net.IPNet_IP cidr) = 4%nat \/ canonical (net.IPNet_IP cidr) ->
  Z.of_nat (length (VPNPeers c)) < maxInt ->
  GenerateVPNPeer peerName (privateKey, err) c
  = if Z.of_nat (length (VPNPeers c)) + 1 <? networkSize cidr then
      match err with
      | Some e => Normal (Some e, c)
      | None =>
          Normal (None,
                  set_VPNPeers
                    (VPNPeers c
                     ++ [nextPeer cidr (Z.of_nat (length (VPNPeers c))) peerName privateKey])
                    c)
      end
    else Normal (Some (exhausted cidr), c).
Proof. exact (GenerateVPNPeer_step vpnCIDR ip0 cidr c peerName privateKey err). Qed.

(** [NewCluster] on a string that [net.ParseCIDR] accepts, when the
    certificates can be generated.  If the network has more than one
    address (its prefix is shorter than the addresses), the call fails with
    the error of the key generation when there is one and otherwise returns
    the cluster: the name, the generated parts, empty endpoint lists, the
    parsed network and one peer, [control-plane-ingress], at the network
    address plus one.  If the network has one address only, the call fails
    with the error that names the network. *)
Theorem NewCluster_cases (clusterName vpnCIDR : string) (sans1 sans2 : list string)
    (ip0 : net.IP) (cidr : net.IPNet) (cas : CertificateAuthorities) (etcd : EtcdServer)
    (api : KubeAPIServer) (privateKey : wgtypes.Key) (err : option error) :
  net.ParseCIDR vpnCIDR = (ip0, Some cidr, None) ->
  length (net.IPNet_IP cidr) = 4%nat \/ canonical (net.IPNet_IP cidr) ->
  newCertificateAuthorities = inl cas ->
  newEtcdServer sans1 = inl etcd ->
  newKubeAPIServer sans2 = inl api ->
  NewCluster clusterName vpnCIDR sans1 sans2 (privateKey, err)
  = if 1 <? networkSize cidr then
      match err with
      | Some e => Normal (None, Some e)
      | None =>
          Normal (Some (mkCluster clusterName (Some cas) (Some etcd) (Some api) [] []
                          (Some cidr)
                          [nextPeer cidr 0 "control-plane-ingress" privateKey]),
                  None)
      end
    else Normal (None, Some (exhausted cidr)).
Proof.
  exact (NewCluster_result clusterName vpnCIDR sans1 sans2 ip0 cidr cas etcd api
           privateKey err).
Qed.

End Capacity.

(** ** Clusters that grow by successful calls of [GenerateVPNPeer] *)

Section GrownFacts.

Variable newCertificateAuthorities : CertificateAuthorities + error.
Variable newEtcdServer : list string -> EtcdServer + error.
Variable newKubeAPIServer : list string -> KubeAPIServer + error.
Variable Key_String : wgtypes.Key -> string.
Variable Key_PublicKey : wgtypes.Key -> wgtypes.Key.

Local Abbreviation GenerateVPNPeer := (cluster.GenerateVPNPeer Key_String Key_PublicKey).
Local Abbreviation NewCluster :=
  (cluster.NewCluster newCertificateAuthorities newEtcdServer newKubeAPIServer
     Key_String Key_PublicKey).
Local Abbreviation grown := (props.grown Key_String Key_PublicKey).

Lemma GenerateVPNPeer_appended (peerName : string) (generated : wgtypes.Key * option error)
    (c c' : Cluster) :
  GenerateVPNPeer peerName generated c = Normal (None, c') ->
  exists peer,
    VPNPeer_Name peer = peerName
    /\ c' = set_VPNPeers (VPNPeers c ++ [peer]) c
    /\ Z.of_nat (length (VPNPeers c)) < maxInt.
Proof.
  intros G. destruct (VPNCIDR c) as [cidr|] eqn:HC.
  - destruct (GenerateVPNPeer_success _ _ _ _ _ _ cidr HC G) as (ip & k & _ & L & ->).
    eexists. split; [|split; [reflexivity | exact L]]. reflexivity.
  - exfalso. revert G. unfold cluster.GenerateVPNPeer, bind, requestVPNIP, bind, receiver.
    rewrite HC. discriminate.
Qed.

Lemma grown_fixed (c0 c : Cluster) (names : list string) :
  grown c0 names c ->
  Name c = Name c0
  /\ CertificateAuthorities_ c = CertificateAuthorities_ c0
  /\ EtcdServer_ c = EtcdServer_ c0
  /\ APIServer c = APIServer c0
  /\ StorageClientEndpoints c = StorageClientEndpoints c0
  /\ StoragePeerEndpoints c = StoragePeerEndpoints c0
  /\ VPNCIDR c = VPNCIDR c0
  /\ exists added, VPNPeers c = VPNPeers c0 ++ added /\ map VPNPeer_Name added = names.
Proof.
  induction 1 as [c | c0 names c peerName generated c' _ IH G].
  - repeat split. exists []. now rewrite app_nil_r.
  - destruct IH as (E1 & E2 & E3 & E4 & E5 & E6 & E7 & added & Ea & En).
    destruct (GenerateVPNPeer_appended _ _ _ _ G) as (peer & Np & -> & _).
    cbn [set_VPNPeers Name CertificateAuthorities_ EtcdServer_ APIServer
         StorageClientEndpoints StoragePeerEndpoints VPNCIDR VPNPeers].
    repeat (split; [assumption|]).
    exists (added ++ [peer]). rewrite Ea, app_assoc, map_app, En. cbn. now rewrite Np.
Qed.

Lemma peers_numbered_step (vpnCIDR : string) (ip0 : net.IP) (cidr : net.IPNet)
    (c c' : Cluster) (peerName : string) (generated : wgtypes.Key * option error) :
  net.ParseCIDR vpnCIDR = (ip0, Some cidr, None) ->
  length (net.IPNet_IP cidr) = 4%nat \/ canonical (net.IPNet_IP cidr) ->
  peers_numbered cidr c ->
  GenerateVPNPeer peerName generated c = Normal (None, c') ->
  peers_numbered cidr c'.
Proof.
  intros P F (HC & A & _) G.
  destruct (GenerateVPNPeer_appended _ _ _ _ G) as (_ & _ & _ & L).
  destruct generated as [privateKey err].
  rewrite (GenerateVPNPeer_step Key_String Key_PublicKey vpnCIDR ip0 cidr c peerName
             privateKey err P HC F L) in G.
  destruct (Z.ltb_spec (Z.of_nat (length (VPNPeers c)) + 1) (networkSize cidr)) as [Lt|];
    [|discriminate G].
  destruct err; [discriminate G|]. injection G as <-.
  unfold peers_numbered. cbn [set_VPNPeers VPNCIDR VPNPeers]. split; [exact HC|]. split.
  - intros i peer Hi.
    destruct (Nat.lt_ge_cases i (length (VPNPeers c))) as [Lo|Hi'].
    + rewrite nth_error_app1 in Hi by assumption. now apply A.
    + rewrite nth_error_app2 in Hi by assumption.
      destruct (i - length (VPNPeers c))%nat as [|k'] eqn:D;
        [|destruct k'; discriminate Hi].
      cbn in Hi. injection Hi as <-. unfold props.nextPeer. cbn [VPNPeer_Address].
      replace i with (length (VPNPeers c)) by lia. reflexivity.
  - right. rewrite length_app. cbn [length]. lia.
Qed.

Lemma grown_numbered (vpnCIDR : string) (ip0 : net.IP) (cidr : net.IPNet)
    (c0 c : Cluster) (names : list string) :
  net.ParseCIDR vpnCIDR = (ip0, Some cidr, None) ->
  length (net.IPNet_IP cidr) = 4%nat \/ canonical (net.IPNet_IP cidr) ->
  peers_numbered cidr c0 -> grown c0 names c -> peers_numbered cidr c.
Proof.
  intros P F I0. induction 1 as [c | c0 names c peerName generated c' _ IH G].
  - exact I0.
  - exact (peers_numbered_step _ _ _ _ _ _ _ P F (IH I0) G).
Qed.

Lemma NewCluster_numbered (clusterName vpnCIDR : string) (sans1 sans2 : list string)
    (generated : wgtypes.Key * option error) (ip0 : net.IP) (cidr : net.IPNet) (c : Cluster) :
  NewCluster clusterName vpnCIDR sans1 sans2 generated = Normal (Some c, None) ->
  net.ParseCIDR vpnCIDR = (ip0, Some cidr, None) ->
  length (net.IPNet_IP cidr) = 4%nat \/ canonical (net.IPNet_IP cidr) ->
  peers_numbered cidr c.
Proof.
  intros H P F. apply NewCluster_success in H.
  destruct H as (ip & cidr' & cas & etcd & api & HP & _ & _ & _ & _ & G).
  rewrite P in HP. injection HP as <- <-.
  apply (peers_numbered_step _ _ _ _ _ _ _ P F) in G; [exact G|].
  split; [reflexivity|]. split; [|left; reflexivity].
  intros [|i] peer Hi; discriminate Hi.
Qed.

Lemma NewCluster_fixed (clusterName vpnCIDR : string) (sans1 sans2 : list string)
    (generated : wgtypes.Key * option error) (c0 c : Cluster) (names : list string) :
  NewCluster clusterName vpnCIDR sans1 sans2 generated = Normal (Some c0, None) ->
  grown c0 names c ->
  exists ip cidr cas etcd api first added,
    net.ParseCIDR vpnCIDR = (ip, Some cidr, None)
    /\ newCertificateAuthorities = inl cas
    /\ newEtcdServer sans1 = inl etcd
    /\ newKubeAPIServer sans2 = inl api
    /\ Name c = clusterName
    /\ CertificateAuthorities_ c = Some cas
    /\ EtcdServer_ c = Some etcd
    /\ APIServer c = Some api
    /\ StorageClientEndpoints c = []
    /\ StoragePeerEndpoints c = []
    /\ VPNCIDR c = Some cidr
    /\ VPNPeers c0 = [first]
    /\ VPNPeers c = first :: added
    /\ VPNPeer_Name first = "control-plane-ingress"%string
    /\ map VPNPeer_Name added = names.
Proof.
  intros H Gr. apply NewCluster_success in H.
  destruct H as (ip & cidr & cas & etcd & api & HP & E1 & E2 & E3 & _ & G).
  pose proof (ParseCIDR_parsed _ _ _ HP) as P.
  assert (exists net0, cidr = Some net0) as [net0 ->]
    by (destruct P as [n [(_ & _ & ->) | (_ & _ & ->)]]; eauto).
  destruct (GenerateVPNPeer_appended _ _ _ _ G) as (first & Nf & -> & _).
  destruct (grown_fixed _ _ _ Gr) as (F1 & F2 & F3 & F4 & F5 & F6 & F7 & added & Ea & En).
  cbn [set_VPNPeers Name CertificateAuthorities_ EtcdServer_ APIServer
       StorageClientEndpoints StoragePeerEndpoints VPNCIDR VPNPeers app] in *.
  exists ip, net0, cas, etcd, api, first, added. repeat split; assumption.
Qed.

(** The fields of a cluster that [NewCluster] sets are never changed by
    [GenerateVPNPeer]: after any number of successful calls the cluster has
    the name it was created with, the certificate authorities and the server
    parts that were generated for it, empty endpoint lists and the network
    that [vpnCIDR] parses to, all four pointers being set; the peers it was
    created with are still there, first, followed by one peer for each
    call, under the name the call was given. *)
Theorem generated_cluster_fixed (clusterName vpnCIDR : string) (sans1 sans2 : list string)
    (generated : wgtypes.Key * option error) (c0 c : Cluster) (names : list string) :
  NewCluster clusterName vpnCIDR sans1 sans2 generated = Normal (Some c0, None) ->
  grown c0 names c ->
  exists ip cidr cas etcd api first added,
    net.ParseCIDR vpnCIDR = (ip, Some cidr, None)
    /\ newCertificateAuthorities = inl cas
    /\ newEtcdServer sans1 = inl etcd
    /\ newKubeAPIServer sans2 = inl api
    /\ Name c = clusterName
    /\ CertificateAuthorities_ c = Some cas
    /\ EtcdServer_ c = Some etcd
    /\ APIServer c = Some api
    /\ StorageClientEndpoints c = []
    /\ StoragePeerEndpoints c = []
    /\ VPNCIDR c = Some cidr
    /\ VPNPeers c0 = [first]
    /\ VPNPeers c = first :: added
    /\ VPNPeer_Name first = "control-plane-ingress"%string
    /\ map VPNPeer_Name added = names.
Proof. exact (NewCluster_fixed clusterName vpnCIDR sans1 sans2 generated c0 c names). Qed.

(** In a cluster created on an IPv4 network, or on an IPv6 network whose
    address does not start with a zero byte, the peer at index [i] (the
    first has index 0) has the address of the network plus [i + 1], printed
    with [/32] or [/128] after it, an address that the network contains,
    and the cluster has fewer peers than the network has addresses. *)
Theorem generated_peer_addresses (clusterName vpnCIDR : string) (sans1 sans2 : list string)
    (generated : wgtypes.Key * option error) (ip0 : net.IP) (cidr : net.IPNet)
    (c0 c : Cluster) (names : list string) :
  NewCluster clusterName vpnCIDR sans1 sans2 generated = Normal (Some c0, None) ->
  grown c0 names c ->
  net.ParseCIDR vpnCIDR = (ip0, Some cidr, None) ->
  length (net.IPNet_IP cidr) = 4%nat \/ canonical (net.IPNet_IP cidr) ->
  (forall i peer, nth_error (VPNPeers c) i = Some peer ->
     VPNPeer_Address peer
     = net.IP_String (networkPlus cidr (Z.of_nat i + 1)) +++ hostSuffix cidr
     /\ net.Contains cidr (networkPlus cidr (Z.of_nat i + 1)) = true)
  /\ Z.of_nat (length (VPNPeers c)) < networkSize cidr.
Proof.
  intros H Gr P F.
  pose proof (NewCluster_numbered _ _ _ _ _ _ _ _ H P F) as I0.
  destruct (grown_numbered _ _ _ _ _ _ P F I0 Gr) as (_ & A & [E|L]).
  - exfalso. destruct (NewCluster_fixed _ _ _ _ _ _ _ _ H Gr)
      as (? & ? & ? & ? & ? & first & added & R).
    decompose [and] R. congruence.
  - split; [|exact L]. intros i peer Hi. split; [now apply A|].
    assert (Li : (i < length (VPNPeers c))%nat)
      by (apply nth_error_Some; rewrite Hi; discriminate).
    pose proof (parsed_inNetwork ip0 cidr (Z.of_nat i + 1) (ParseCIDR_parsed _ _ _ P) F
                  ltac:(lia)) as I.
    replace (Z.of_nat i + 1 <? networkSize cidr) with true in I
      by (symmetry; apply Z.ltb_lt; lia).
    unfold inNetwork in I. apply andb_true_iff in I. exact (proj2 I).
Qed.

(** The peer of the control plane ingress can always be looked up: in a
    cluster made by [NewCluster] and any number of successful calls of
    [GenerateVPNPeer], whatever names these were given,
    [VPNPeer("control-plane-ingress")] returns the peer that [NewCluster]
    created. *)
Theorem control_plane_ingress_found (clusterName vpnCIDR : string)
    (sans1 sans2 : list string) (generated : wgtypes.Key * option error)
    (c0 c : Cluster) (names : list string) :
  NewCluster clusterName vpnCIDR sans1 sans2 generated = Normal (Some c0, None) ->
  grown c0 names c ->
  exists first,
    VPNPeers c0 = [first]
    /\ Cluster_VPNPeer "control-plane-ingress" c = Normal ((Some first, None), c).
Proof.
  intros H Gr.
  destruct (NewCluster_fixed _ _ _ _ _ _ _ _ H Gr)
    as (ip & cidr & cas & etcd & api & first & added & R).
  decompose [and] R. exists first. split; [assumption|].
  unfold Cluster_VPNPeer, bind, receiver.
  match goal with E : VPNPeers c = _ |- _ => rewrite E end.
  cbn [VPNPeer_range].
  match goal with E : VPNPeer_Name first = _ |- _ => rewrite E end.
  reflexivity.
Qed.

End GrownFacts.

(** ** What [NewCluster] returns when a step fails *)

Section Failure.

Variable newCertificateAuthorities : CertificateAuthorities + error.
Variable newEtcdServer : list string -> EtcdServer + error.
Variable newKubeAPIServer : list string -> KubeAPIServer + error.
Variable Key_String : wgtypes.Key -> string.
Variable Key_PublicKey : wgtypes.Key -> wgtypes.Key.

Local Abbreviation NewCluster :=
  (cluster.NewCluster newCertificateAuthorities newEtcdServer newKubeAPIServer
     Key_String Key_PublicKey).
Local Abbreviation GenerateVPNPeer := (cluster.GenerateVPNPeer Key_String Key_PublicKey).

(** C4. Whenever [NewCluster] returns an error the cluster it returns is
    nil.  This is the case for a CIDR string that does not parse, for a
    failure of each step of the certificate generation and for a failure
    of the generation of the first peer, on the cluster that has all its
    certificates; the error is the one of the step that failed.  A cluster
    that is returned comes with a nil error and is complete: the name, the
    three generated parts, empty endpoint lists, the parsed network and
    one peer, [control-plane-ingress]. *)
Theorem NewCluster_error_nil (clusterName vpnCIDR : string) (sans1 sans2 : list string)
    (generated : wgtypes.Key * option error) :
  (forall p e, NewCluster clusterName vpnCIDR sans1 sans2 generated = Normal (p, Some e) ->
               p = None)
  /\ (forall e, snd (net.ParseCIDR vpnCIDR) = Some e ->
                NewCluster clusterName vpnCIDR sans1 sans2 generated = Normal (None, Some e))
  /\ (forall e, snd (net.ParseCIDR vpnCIDR) = None ->
                newCertificateAuthorities = inr e
                \/ (exists cas, newCertificateAuthorities = inl cas)
                   /\ (newEtcdServer sans1 = inr e
                       \/ (exists etcd, newEtcdServer sans1 = inl etcd)
                          /\ newKubeAPIServer sans2 = inr e) ->
                NewCluster clusterName vpnCIDR sans1 sans2 generated = Normal (None, Some e))
  /\ (forall ip cidr cas etcd api e c',
        net.ParseCIDR vpnCIDR = (ip, cidr, None) ->
        newCertificateAuthorities = inl cas ->
        newEtcdServer sans1 = inl etcd ->
        newKubeAPIServer sans2 = inl api ->
        GenerateVPNPeer "control-plane-ingress" generated
          (mkCluster clusterName (Some cas) (Some etcd) (Some api) [] [] cidr [])
        = Normal (Some e, c') ->
        NewCluster clusterName vpnCIDR sans1 sans2 generated = Normal (None, Some e))
  /\ (forall c e,
        NewCluster clusterName vpnCIDR sans1 sans2 generated = Normal (Some c, e) ->
        e = None
        /\ exists ip cidr cas etcd api first,
             net.ParseCIDR vpnCIDR = (ip, Some cidr, None)
             /\ newCertificateAuthorities = inl cas
             /\ newEtcdServer sans1 = inl etcd
             /\ newKubeAPIServer sans2 = inl api
             /\ VPNPeer_Name first = "control-plane-ingress"%string
             /\ c = mkCluster clusterName (Some cas) (Some etcd) (Some api) [] []
                      (Some cidr) [first]).
Proof.
  split; [|split; [|split; [|split]]].
  - intros [c|] e H; [|reflexivity].
    apply NewCluster_success in H. destruct H as (? & ? & ? & ? & ? & _ & _ & _ & _ & H & _).
    discriminate.
  - intros e. unfold cluster.NewCluster.
    destruct (net.ParseCIDR vpnCIDR) as [[ip cidr] err]. simpl. now intros ->.
  - intros e. unfold cluster.NewCluster, generateCertificates.
    destruct (net.ParseCIDR vpnCIDR) as [[ip cidr] err]. simpl. intros ->.
    intros [-> | [[cas ->] [-> | [[etcd ->] ->]]]]; reflexivity.
  - intros ip cidr cas etcd api e c' P E1 E2 E3 G.
    unfold cluster.NewCluster, generateCertificates. rewrite P, E1, E2, E3.
    cbn [pointer_and_error bind assign ret set_CertificateAuthorities set_EtcdServer
         set_APIServer Name CertificateAuthorities_ EtcdServer_ APIServer
         StorageClientEndpoints StoragePeerEndpoints VPNCIDR VPNPeers].
    change (set_APIServer _ _)
      with (mkCluster clusterName (Some cas) (Some etcd) (Some api) [] [] cidr []).
    rewrite G. reflexivity.
  - intros c e H.
    assert (He : e = None).
    { destruct e as [e|]; [|reflexivity]. apply NewCluster_success in H.
      destruct H as (? & ? & ? & ? & ? & _ & _ & _ & _ & H & _). discriminate H. }
    split; [exact He|]. subst e.
    destruct (NewCluster_fixed _ _ _ _ _ _ _ _ _ _ c c [] H (grown_nil _ _ c))
      as (ip & cidr & cas & etcd & api & first & added & P & E1 & E2 & E3 & F1 & F2 & F3
          & F4 & F5 & F6 & F7 & F8 & _ & F9 & _).
    exists ip, cidr, cas, etcd, api, first. repeat (split; [assumption|]).
    destruct c. cbn in *. congruence.
Qed.

End Failure.

Lemma NewCluster_error_nil_witness :
  (forall p e, newDemoCluster "10.0.0.0/33" = Normal (p, Some e) -> p = None)
  /\ newDemoCluster "10.0.0.0/33"
     = Normal (None, Some (ParseError "CIDR address" "10.0.0.0/33"))
  /\ NewCluster (inl someAuthorities) someEtcdServer (fun _ => inr (External "rsa: key too short"))
       printKey publicKey "demo" "10.0.0.0/16" [] [] someKey
     = Normal (None, Some (External "rsa: key too short"))
  /\ NewCluster (inl someAuthorities) someEtcdServer someKubeAPIServer printKey publicKey
       "demo" "10.0.0.0/16" [] [] ([], Some (External "rand: no entropy"))
     = Normal (None, Some (External "rand: no entropy"))
  /\ newDemoCluster "10.0.0.0/32"
     = Normal (None, Some (Errorf "not enough IP addresses to assign in the %q CIDR"
                                  "10.0.0.0/32")).
Proof.
  pose proof (NewCluster_error_nil (inl someAuthorities) someEtcdServer someKubeAPIServer
                printKey publicKey "demo" "10.0.0.0/33" [] [] someKey) as (H1 & H2 & _).
  pose proof (NewCluster_error_nil (inl someAuthorities) someEtcdServer
                (fun _ => inr (External "rsa: key too short"))
                printKey publicKey "demo" "10.0.0.0/16" [] [] someKey) as (_ & _ & H3 & _).
  pose proof (NewCluster_error_nil (inl someAuthorities) someEtcdServer someKubeAPIServer
                printKey publicKey "demo" "10.0.0.0/16" [] []
                ([], Some (External "rand: no entropy"))) as (_ & _ & _ & H4 & _).
  pose proof (NewCluster_error_nil (inl someAuthorities) someEtcdServer someKubeAPIServer
                printKey publicKey "demo" "10.0.0.0/32" [] [] someKey)
    as (_ & _ & _ & H5 & _).
  split; [exact H1|]. split; [|split; [|split]].
  - apply H2. reflexivity.
  - apply H3; [reflexivity|]. right. split; [eexists; reflexivity|].
    right. split; [eexists; reflexivity | reflexivity].
  - eapply H4; [vm_compute; reflexivity | reflexivity | reflexivity | reflexivity
               | vm_compute; reflexivity].
  - unfold newDemoCluster.
    eapply H5; [vm_compute; reflexivity | reflexivity | reflexivity | reflexivity
               | vm_compute; reflexivity].
Defined.

(** ** Looking up a peer that was just generated *)

Lemma VPNPeer_range_app (l : VPNPeerList) (p : VPNPeer) (name : string) :
  VPNPeer_range (l ++ [p]) name
  = match VPNPeer_range l name with
    | Some q => Some q
    | None => if String.eqb (VPNPeer_Name p) name then Some p else None
    end.
Proof.
  induction l as [|x l IH]; cbn [app VPNPeer_range]; [reflexivity|].
  destruct (String.eqb (VPNPeer_Name x) name); [reflexivity | exact IH].
Qed.

Section Lookup.

Variable Key_String : wgtypes.Key -> string.
Variable Key_PublicKey : wgtypes.Key -> wgtypes.Key.

Local Abbreviation GenerateVPNPeer := (cluster.GenerateVPNPeer Key_String Key_PublicKey).

(** After a successful [GenerateVPNPeer(peerName)], [VPNPeer(peerName)]
    finds a peer: the one it found before the call if there was one (a
    second peer of a name is never found), the new peer otherwise.  The
    answer for any other name is the same as before the call. *)
Theorem GenerateVPNPeer_then_VPNPeer (peerName : string)
    (generated : wgtypes.Key * option error) (c c' : Cluster) :
  GenerateVPNPeer peerName generated c = Normal (None, c') ->
  exists new,
    VPNPeers c' = VPNPeers c ++ [new]
    /\ VPNPeer_Name new = peerName
    /\ (forall old, Cluster_VPNPeer peerName c = Normal ((Some old, None), c) ->
          Cluster_VPNPeer peerName c' = Normal ((Some old, None), c'))
    /\ ((forall q, In q (VPNPeers c) -> VPNPeer_Name q <> peerName) ->
          Cluster_VPNPeer peerName c' = Normal ((Some new, None), c'))
    /\ (forall name r, name <> peerName ->
          Cluster_VPNPeer name c = Normal (r, c) ->
          Cluster_VPNPeer name c' = Normal (r, c')).
Proof.
  intros G. destruct (GenerateVPNPeer_appended _ _ _ _ _ _ G) as (new & Nn & -> & _).
  exists new. cbn [set_VPNPeers VPNPeers]. split; [reflexivity|]. split; [exact Nn|].
  unfold Cluster_VPNPeer, bind, receiver. cbn [set_VPNPeers VPNPeers].
  repeat split.
  - intros old. rewrite VPNPeer_range_app.
    destruct (VPNPeer_range (VPNPeers c) peerName); [|discriminate].
    cbn [ret]. intros [= ->]. reflexivity.
  - intros No. rewrite VPNPeer_range_app, (VPNPeer_range_none _ _ No).
    rewrite Nn, String.eqb_refl. reflexivity.
  - intros name r Ne. rewrite VPNPeer_range_app.
    destruct (VPNPeer_range (VPNPeers c) name).
    + cbn [ret]. intros [= <-]. reflexivity.
    + rewrite Nn. destruct (String.eqb_spec peerName name) as [E|_]; [congruence|].
      cbn [ret]. intros [= <-]. reflexivity.
Qed.

End Lookup.

(** ** What [Export] writes for the network, and when it panics *)

Lemma Export_complete (c : Cluster) :
  complete c -> exists v, Export c = Normal (v, c).
Proof.
  intros (cas & etcd & api & cidr & E1 & E2 & E3 & E4).
  unfold Export, bind, receiver. rewrite E1, E2, E3, E4. eexists. reflexivity.
Qed.

Lemma Export_nil (c : Cluster) : nilPointer c -> Export c = Panicked.
Proof.
  unfold nilPointer, Export, bind, receiver. intros [E | [E | E]]; rewrite E.
  - reflexivity.
  - destruct (CertificateAuthorities_ c), (APIServer c); reflexivity.
  - destruct (CertificateAuthorities_ c); reflexivity.
Qed.

Lemma Export_panics (c : Cluster) : Export c = Panicked <-> nilPointer c.
Proof.
  split; [|apply Export_nil]. unfold nilPointer, Export, bind, receiver.
  destruct (CertificateAuthorities_ c); [|auto].
  destruct (APIServer c); [|auto].
  destruct (EtcdServer_ c); [discriminate | auto].
Qed.

Section ExportedNetwork.

Variable newCertificateAuthorities : CertificateAuthorities + error.
Variable newEtcdServer : list string -> EtcdServer + error.
Variable newKubeAPIServer : list string -> KubeAPIServer + error.
Variable Key_String : wgtypes.Key -> string.
Variable Key_PublicKey : wgtypes.Key -> wgtypes.Key.

Local Abbreviation NewCluster :=
  (cluster.NewCluster newCertificateAuthorities newEtcdServer newKubeAPIServer
     Key_String Key_PublicKey).
Local Abbreviation grown := (props.grown Key_String Key_PublicKey).

(** A cluster made by [NewCluster] and any number of successful calls of
    [GenerateVPNPeer] can be exported: [Export] does not panic and leaves
    the cluster as it is.  The exported object has the name the cluster was
    created with, and its [VPNCIDR] is a string that [net.ParseCIDR] reads
    back as the network of the cluster, unless that network is an IPv4
    network held in the 16-byte form. *)
Theorem Export_VPNCIDR_parses (clusterName vpnCIDR : string) (sans1 sans2 : list string)
    (generated : wgtypes.Key * option error) (c0 c : Cluster) (names : list string) :
  NewCluster clusterName vpnCIDR sans1 sans2 generated = Normal (Some c0, None) ->
  grown c0 names c ->
  exists v cidr,
    Export c = Normal (v, c)
    /\ VPNCIDR c = Some cidr
    /\ clusterv1alpha1.ObjectMeta_Name (clusterv1alpha1.Cluster_ObjectMeta v) = clusterName
    /\ (length (net.IPNet_IP cidr) = 4%nat \/ net.To4 (net.IPNet_IP cidr) = [] ->
        exists ip,
          net.ParseCIDR (clusterv1alpha1.Spec_VPNCIDR (clusterv1alpha1.Cluster_Spec v))
          = (ip, Some cidr, None)).
Proof.
  intros H Gr.
  destruct (NewCluster_fixed _ _ _ _ _ _ _ _ _ _ _ _ _ H Gr)
    as (ip & cidr & cas & etcd & api & first & added & P & _ & _ & _ & En & E1 & E2 & E3
        & _ & _ & E4 & _).
  unfold Export, bind, receiver. rewrite E1, E2, E3, E4, En.
  eexists. exists cidr. split; [reflexivity|]. split; [reflexivity|].
  split; [reflexivity|].
  cbn [clusterv1alpha1.Spec_VPNCIDR clusterv1alpha1.Cluster_Spec].
  intros F. exact (ParseCIDR_String ip cidr (ParseCIDR_parsed _ _ _ P) F).
Qed.

End ExportedNetwork.

Section Panics.

Variable AddToScheme : option error.
Variable Encode : clusterv1alpha1.Cluster -> string * option error.

Local Abbreviation Specs := (cluster.Specs AddToScheme Encode).
Local Abbreviation Map_Specs := (cluster.Map_Specs AddToScheme Encode).

Lemma Specs_panics (c : Cluster) :
  Specs c = Panicked <-> AddToScheme = None /\ nilPointer c.
Proof.
  unfold cluster.Specs. destruct AddToScheme as [err|].
  - split; [discriminate | intros [H _]; discriminate H].
  - unfold bind. pose proof (Export_panics c) as EP.
    destruct (Export c) as [[v c']|].
    + unfold receiver. destruct (Encode v) as [s [e|]];
        (split; [discriminate | intros [_ N]; apply EP in N; discriminate N]).
    + split; [intros _; split; [reflexivity | now apply EP] | reflexivity].
Qed.

Lemma Map_Specs_range_cases (clusterMap : Map) (res : string) :
  (Map_Specs_range AddToScheme Encode clusterMap res = Panicked
   <-> AddToScheme = None /\ exists key c, In (key, c) clusterMap /\ nilPointer c)
  /\ forall s e, Map_Specs_range AddToScheme Encode clusterMap res = Normal (s, e) -> e = None.
Proof.
  revert res. induction clusterMap as [|[key member] rest IH]; intros res.
  - cbn [Map_Specs_range In]. split.
    + split; [discriminate | intros [_ (? & ? & [] & _)]].
    + intros s e [= _ <-]. reflexivity.
  - cbn [Map_Specs_range]. pose proof (Specs_panics member) as SP.
    destruct (Specs member) as [[[clusterSpec err] c']|].
    + assert (Ok : ~ (AddToScheme = None /\ nilPointer member))
        by (intros X; apply SP in X; discriminate X).
      assert (Step : forall res',
                 (Map_Specs_range AddToScheme Encode rest res' = Panicked
                  <-> AddToScheme = None
                      /\ exists key0 c, In (key0, c) ((key, member) :: rest) /\ nilPointer c)).
      { intros res'. rewrite (proj1 (IH res')). split.
        - intros (A & k & c & I & N). split; [exact A|]. exists k, c. split; [right|]; assumption.
        - intros (A & k & c & [E|I] & N).
          + injection E as _ <-. exfalso. apply Ok. split; assumption.
          + split; [exact A|]. exists k, c. split; assumption. }
      destruct err; (split; [apply Step | apply IH]).
    + split.
      * split; [|reflexivity]. intros _. destruct (proj1 SP eq_refl) as [A N].
        split; [exact A|]. exists key, member. split; [left; reflexivity | exact N].
      * discriminate.
Qed.

Lemma Map_Specs_range_unregistered (clusterMap : Map) (res : string) (err : error) :
  AddToScheme = Some err ->
  Map_Specs_range AddToScheme Encode clusterMap res = Normal (res, None).
Proof.
  intros A. rewrite A. induction clusterMap as [|[key member] rest IH]; [reflexivity|].
  cbn [Map_Specs_range cluster.Specs ret]. exact IH.
Qed.

(** [Map.Specs] never returns an error.  When the types cannot be
    registered in the scheme, so that [Specs] fails for every cluster, it
    returns the empty string and a nil error.  When they can, and the map
    holds a cluster whose pointer to the certificate authorities, to the
    etcd server or to the API server is nil, it panics: such a cluster is
    not skipped. *)
Theorem Map_Specs_outcomes (clusterMap : Map) :
  (forall s e, Map_Specs clusterMap = Normal (s, e) -> e = None)
  /\ (forall err, AddToScheme = Some err ->
                  Map_Specs clusterMap = Normal (EmptyString, None))
  /\ (AddToScheme = None ->
      (exists key c, In (key, c) clusterMap /\ nilPointer c) ->
      Map_Specs clusterMap = Panicked).
Proof.
  destruct (Map_Specs_range_cases clusterMap EmptyString) as [Pn Er].
  split; [exact Er|]. split.
  - intros err A. exact (Map_Specs_range_unregistered clusterMap EmptyString err A).
  - intros A X. apply Pn. split; assumption.
Qed.

End Panics.

(** ** Strings that [NewCluster] does not accept *)

Lemma IndexByteString_none (s : string) (c : ascii) :
  all_chars (fun x => negb (Ascii.eqb x c)) s = true -> IndexByteString s c = None.
Proof.
  induction s as [|x s IH]; intros H; [reflexivity|].
  cbn in H |- *. apply andb_true_iff in H. destruct H as [Hx H].
  apply negb_true_iff in Hx. now rewrite Hx, (IH H).
Qed.

Lemma byte_and_ff (x : byte) : byte_and x Byte.xff = x.
Proof.
  apply b2z_inj. pose proof (maskByte_value 8 x ltac:(lia)) as M.
  change (maskByte 8) with Byte.xff in M. rewrite M.
  change (2 ^ (8 - 8)) with 1. rewrite Z.div_1_r. lia.
Qed.

Lemma ParseCIDR_host (a b c d : byte) :
  net.ParseCIDR (dotted a b c d +++ "/32")
  = (net.IPv4 a b c d,
     Some (net.mkIPNet [a; b; c; d] [Byte.xff; Byte.xff; Byte.xff; Byte.xff]), None).
Proof.
  change "/32"%string with ("/" +++ net.uitoa 32).
  rewrite (ParseCIDR_text_v4 _ 32 a b c d (dotted_no_slash a b c d) ltac:(lia)
             (parseIPv4_dotted a b c d)).
  change (net.CIDRMask 32 32) with [Byte.xff; Byte.xff; Byte.xff; Byte.xff].
  rewrite Mask_IPv4, !byte_and_ff. reflexivity.
Qed.

Section Rejected.

Variable newCertificateAuthorities : CertificateAuthorities + error.
Variable newEtcdServer : list string -> EtcdServer + error.
Variable newKubeAPIServer : list string -> KubeAPIServer + error.
Variable Key_String : wgtypes.Key -> string.
Variable Key_PublicKey : wgtypes.Key -> wgtypes.Key.

Local Abbreviation NewCluster :=
  (cluster.NewCluster newCertificateAuthorities newEtcdServer newKubeAPIServer
     Key_String Key_PublicKey).

(** [NewCluster] fails, with the error of [net.ParseCIDR] that carries the
    string, on a string without a slash (the empty string is one) and on an
    IPv4 address followed by a prefix length from 33 to 128.  On an IPv4
    address followed by [/32] the string is accepted, but the network has
    no address for the first peer: when the certificates can be generated,
    [NewCluster] fails with the error that says so and names the network. *)
Theorem NewCluster_rejects (clusterName : string) (sans1 sans2 : list string)
    (generated : wgtypes.Key * option error) :
  (forall vpnCIDR,
      all_chars notSlash vpnCIDR = true ->
      NewCluster clusterName vpnCIDR sans1 sans2 generated
      = Normal (None, Some (ParseError "CIDR address" vpnCIDR)))
  /\ (forall a b c d n,
        32 < n <= 128 ->
        NewCluster clusterName (dotted a b c d +++ "/" +++ net.uitoa n) sans1 sans2 generated
        = Normal (None, Some (ParseError "CIDR address"
                                (dotted a b c d +++ "/" +++ net.uitoa n))))
  /\ (forall a b c d cas etcd api,
        newCertificateAuthorities = inl cas ->
        newEtcdServer sans1 = inl etcd ->
        newKubeAPIServer sans2 = inl api ->
        NewCluster clusterName (dotted a b c d +++ "/32") sans1 sans2 generated
        = Normal (None, Some (Errorf "not enough IP addresses to assign in the %q CIDR"
                                (dotted a b c d +++ "/32")))).
Proof.
  split; [|split].
  - intros vpnCIDR A. unfold cluster.NewCluster, net.ParseCIDR.
    rewrite (IndexByteString_none vpnCIDR "/" A). reflexivity.
  - intros a b c d n R. unfold cluster.NewCluster.
    rewrite (ParseCIDR_text _ n (dotted_no_slash a b c d)) by lia.
    rewrite parseIPv4_dotted. cbv zeta. cbn [net.IPv4 app net.v4InV6Prefix].
    change (8 * Z.of_nat net.IPv4len) with 32.
    replace (32 <? n) with true by (symmetry; apply Z.ltb_lt; lia).
    reflexivity.
  - intros a b c d cas etcd api E1 E2 E3. destruct generated as [privateKey err].
    rewrite (NewCluster_result newCertificateAuthorities newEtcdServer newKubeAPIServer
               Key_String Key_PublicKey clusterName _ sans1 sans2 _ _ cas etcd api
               privateKey err (ParseCIDR_host a b c d) (or_introl eq_refl) E1 E2 E3).
    change (1 <? networkSize _) with false. cbv iota.
    unfold exhausted.
    rewrite (IPNet_String_plain [a; b; c; d] [Byte.xff; Byte.xff; Byte.xff; Byte.xff] 32)
      by (auto; lia).
    rewrite IP_String_4. reflexivity.
Qed.

End Rejected.

(** ** IPv6 networks whose address starts with a zero byte *)

Lemma Bytes_short (x : Z) : 0 <= x -> (length (big.Bytes x) <? 2)%nat = (x <? 256).
Proof.
  intros R. destruct (Z.ltb_spec x 256) as [Lt|Ge].
  - apply Nat.ltb_lt. pose proof (Bytes_length_le x 1). change (256 ^ Z.of_nat 1) with 256 in *.
    lia.
  - apply Nat.ltb_ge. pose proof (Bytes_length_ge x 1). change (256 ^ Z.of_nat 1) with 256 in *.
    lia.
Qed.

Lemma zero_first_value (ip : list byte) :
  length ip = 16%nat -> net.at_ ip 0 = Byte.x00 -> big.SetBytes ip < 2 ^ 120.
Proof.
  intros L Z0. destruct ip as [|x ip]; [discriminate L|].
  unfold net.at_ in Z0. cbn [nth] in Z0. subst x.
  rewrite SetBytes_cons. change (b2z Byte.x00) with 0.
  pose proof (SetBytes_range ip) as R. injection L as L. rewrite L in R.
  change (256 ^ Z.of_nat 15) with (2 ^ 120) in R. unfold big.Int in *. lia.
Qed.

Lemma parsed_16 (ip0 : net.IP) (cidr : net.IPNet) :
  parsedNetwork ip0 (Some cidr) -> length (net.IPNet_IP cidr) = 16%nat ->
  exists n,
    length ip0 = 16%nat /\ 0 <= n <= 128
    /\ cidr = net.mkIPNet
               (map (fun p => byte_and (fst p) (snd p))
                    (combine ip0 (net.CIDRMask_loop (length ip0) n)))
               (net.CIDRMask_loop (length ip0) n).
Proof.
  intros [n [((a & b & c0 & d & ->) & R & [= ->]) | (L0 & R & [= ->])]] L.
  - exfalso. rewrite CIDRMask_loop_eq in L by lia.
    change (Z.to_nat (32 / 8)) with 4%nat in L.
    destruct (length_4 _ (CIDRMask_loop_length 4 n)) as (m0 & m1 & m2 & m3 & Em).
    rewrite Em in L. cbn [net.IPNet_IP] in L. rewrite Mask_IPv4 in L. discriminate L.
  - exists n. split; [exact L0|]. split; [exact R|].
    rewrite CIDRMask_loop_eq by lia. change (Z.to_nat (128 / 8)) with 16%nat.
    rewrite Mask_16 by (rewrite ?CIDRMask_loop_length; auto). rewrite L0. reflexivity.
Qed.

(** On a network of 16-byte addresses (not IPv4-mapped) whose first byte
    is zero, [requestVPNIP] never returns an address. *)
Lemma requestVPNIP_unusable (ip0 : net.IP) (cidr : net.IPNet) (c : Cluster) :
  parsedNetwork ip0 (Some cidr) ->
  VPNCIDR c = Some cidr ->
  length (net.IPNet_IP cidr) = 16%nat ->
  net.To4 (net.IPNet_IP cidr) = [] ->
  net.at_ (net.IPNet_IP cidr) 0 = Byte.x00 ->
  Z.of_nat (length (VPNPeers c)) < maxInt ->
  requestVPNIP c
  = if big.SetBytes (net.IPNet_IP cidr) + Z.of_nat (length (VPNPeers c)) + 1 <? 256
    then Panicked
    else Normal ((EmptyString, Some (exhausted cidr)), c).
Proof.
  intros P HC L T Z0 Hn. pose proof (parsedNetwork_wellFormed _ _ P) as W.
  pose proof (zero_first_value _ L Z0) as Nz.
  pose proof (SetBytes_range (net.IPNet_IP cidr)) as Rn.
  destruct (parsed_16 _ _ P L) as (n & L0 & R & Ec).
  pose proof (fun x => Contains_prefix ip0 x n) as Cp. cbv zeta in Cp.
  pose proof (masked_value ip0 n) as V.
  rewrite <- Ec in Cp. rewrite L0 in Cp, V. specialize (V R).
  replace (map (fun p => byte_and (fst p) (snd p))
               (combine ip0 (net.CIDRMask_loop 16 n)))
    with (net.IPNet_IP cidr) in V by (rewrite Ec, L0; reflexivity).
  assert (Tn : net.To4 (map (fun p => byte_and (fst p) (snd p))
                            (combine ip0 (net.CIDRMask_loop 16 n))) = []).
  { replace (map (fun p => byte_and (fst p) (snd p))
                 (combine ip0 (net.CIDRMask_loop 16 n)))
      with (net.IPNet_IP cidr) by (rewrite Ec, L0; reflexivity).
    exact T. }
  clear Ec.
  rewrite (requestVPNIP_assigned c cidr HC).
  unfold assignedSlice, big.Add, big.NewInt.
  assert (T16 : net.To16 (net.IPNet_IP cidr) = net.IPNet_IP cidr)
    by (unfold net.To16; rewrite L; reflexivity).
  rewrite T16, int64_small by lia.
  set (N := big.SetBytes (net.IPNet_IP cidr)) in *.
  set (k := Z.of_nat (length (VPNPeers c)) + 1).
  assert (Hk : 1 <= k < 2 ^ 63) by (unfold k, maxInt in *; lia).
  replace (N + Z.of_nat (length (VPNPeers c)) + 1) with (N + k)
    by (unfold k, big.Int; lia).
  rewrite Bytes_short by (unfold big.Int in *; lia).
  destruct (Z.ltb_spec (N + k) 256) as [Small|Big]; [reflexivity|].
  set (B := big.Bytes (N + k)).
  assert (Lb : (length B <= 16)%nat).
  { apply Bytes_length_le. change (256 ^ Z.of_nat 16) with (2 ^ 128).
    change (2 ^ 120) with 1329227995784915872903807060280344576 in Nz.
    change (2 ^ 63) with 9223372036854775808 in Hk.
    change (2 ^ 128) with 340282366920938463463374607431768211456.
    unfold big.Int in *. lia. }
  assert (C : net.Contains cidr
                (if (length B =? net.IPv6len)%nat then B else skipn 2 B) = false).
  { change net.IPv6len with 16%nat.
    destruct (Nat.eqb_spec (length B) 16) as [E16|N16].
    - (* the sum has sixteen bytes: it left the prefix *)
      destruct (net.Contains cidr B) eqn:C; [exfalso | reflexivity].
      assert (Hi : 2 ^ 120 <= N + k).
      { pose proof (Bytes_canonical (N + k)) as Cb. fold B in Cb.
        assert (Ne : B <> []) by (intros X; rewrite X in E16; discriminate E16).
        pose proof (canonical_lower B Cb Ne) as Lo. rewrite E16 in Lo.
        unfold B in Lo. rewrite SetBytes_Bytes in Lo by (unfold big.Int in *; lia).
        exact Lo. }
      assert (Tb : net.To4 B = [])
        by (apply canonical_16_To4; [exact E16 | apply Bytes_canonical]).
      apply (Cp B E16 (or_intror (conj eq_refl (conj Tn Tb))) R) in C.
      unfold B in C. rewrite SetBytes_Bytes in C by (unfold big.Int in *; lia).
      change (8 * Z.of_nat 16) with 128 in *.
      set (h := 128 - n) in *. set (q := big.SetBytes ip0 / 2 ^ h) in *.
      assert (Pp : 0 < 2 ^ h) by (apply Z.pow_pos_nonneg; unfold h; lia).
      assert (Kh : k < 2 ^ h).
      { assert (D : N + k = k + q * 2 ^ h) by (unfold big.Int in *; lia).
        rewrite D, Z.div_add in C by lia.
        assert (K0 : k / 2 ^ h = 0) by lia.
        apply Z.div_small_iff in K0; lia. }
      destruct (Z.le_gt_cases h 120) as [Le|Gt].
      + assert (E : 2 ^ 120 = 2 ^ h * 2 ^ (120 - h))
          by (rewrite <- pow2_split by (unfold h; lia); f_equal; lia).
        assert (Qp : 0 < 2 ^ (120 - h)) by (apply Z.pow_pos_nonneg; lia).
        rewrite E in Hi, Nz. rewrite V in Hi, Nz.
        assert (q < 2 ^ (120 - h)) by (unfold big.Int in *; nia).
        unfold big.Int in *. nia.
      + assert (2 ^ 120 <= 2 ^ h) by (apply Z.pow_le_mono_r; lia).
        assert (q = 0) by (unfold big.Int in *; nia).
        change (2 ^ 63) with 9223372036854775808 in Hk.
        change (2 ^ 120) with 1329227995784915872903807060280344576 in Hi.
        unfold big.Int in *. subst q. lia.
    - (* fewer bytes: the slice is too short to be an address of the network *)
      destruct (net.Contains cidr (skipn 2 B)) eqn:C; [exfalso | reflexivity].
      apply Contains_length in C. rewrite (networkNumber_length cidr W), T in C.
      assert (Ls : length (skipn 2 B) = (length B - 2)%nat) by apply length_skipn.
      destruct (Nat.eq_dec (length (skipn 2 B)) 4) as [E4|N4].
      + rewrite (To4_of_4 _ E4) in C. destruct (skipn 2 B); cbn in *; lia.
      + rewrite To4_other in C by lia. lia. }
  change net.IPv6len with 16%nat in *.
  match goal with
  | |- context [net.Contains ?a ?b] => replace (net.Contains a b) with false by (symmetry; exact C)
  end.
  reflexivity.
Qed.

Section Unusable.

Variable newCertificateAuthorities : CertificateAuthorities + error.
Variable newEtcdServer : list string -> EtcdServer + error.
Variable newKubeAPIServer : list string -> KubeAPIServer + error.
Variable Key_String : wgtypes.Key -> string.
Variable Key_PublicKey : wgtypes.Key -> wgtypes.Key.

Local Abbreviation NewCluster :=
  (cluster.NewCluster newCertificateAuthorities newEtcdServer newKubeAPIServer
     Key_String Key_PublicKey).

(** A network of IPv6 addresses (not IPv4-mapped) whose first byte is zero
    cannot be used.  Whatever the number of peers, [requestVPNIP] returns
    no address: it panics when the network address plus that number plus
    one is below 256, and otherwise fails with the error that names the
    network.  [NewCluster] never returns a cluster for a string that parses
    to such a network. *)
Theorem zero_first_byte_network_unusable (vpnCIDR : string) (ip0 : net.IP)
    (cidr : net.IPNet) :
  net.ParseCIDR vpnCIDR = (ip0, Some cidr, None) ->
  length (net.IPNet_IP cidr) = 16%nat ->
  net.To4 (net.IPNet_IP cidr) = [] ->
  net.at_ (net.IPNet_IP cidr) 0 = Byte.x00 ->
  (forall c,
      VPNCIDR c = Some cidr -> Z.of_nat (length (VPNPeers c)) < maxInt ->
      requestVPNIP c
      = if big.SetBytes (net.IPNet_IP cidr) + Z.of_nat (length (VPNPeers c)) + 1 <? 256
        then Panicked
        else Normal ((EmptyString, Some (exhausted cidr)), c))
  /\ forall clusterName sans1 sans2 generated c,
       NewCluster clusterName vpnCIDR sans1 sans2 generated <> Normal (Some c, None).
Proof.
  intros P L T Z0. pose proof (ParseCIDR_parsed _ _ _ P) as PN. split.
  - intros c HC Hn. exact (requestVPNIP_unusable ip0 cidr c PN HC L T Z0 Hn).
  - intros clusterName sans1 sans2 generated c H.
    apply NewCluster_success in H.
    destruct H as (ip & cidr' & cas & etcd & api & HP & _ & _ & _ & _ & G).
    rewrite P in HP. injection HP as <- <-.
    set (e0 := mkCluster clusterName (Some cas) (Some etcd) (Some api) [] [] (Some cidr) [])
      in G.
    destruct (fun E => GenerateVPNPeer_success _ _ _ _ e0 c cidr E G) as (a & ? & S & _ & _);
      [reflexivity|].
    pose proof (requestVPNIP_assigned e0 cidr eq_refl) as A. rewrite S in A.
    rewrite (requestVPNIP_unusable ip0 cidr e0 PN eq_refl L T Z0) in A
      by (cbn; unfold maxInt; lia).
    destruct (_ <? 256); discriminate A.
Qed.

End Unusable.

(** ** The theorems above on concrete clusters *)

Lemma GenerateVPNPeer_cases_witness :
  GenerateVPNPeer printKey publicKey "worker" ([Byte.x2a], None) (emptyCluster "demo" [])
  = Normal (None, emptyCluster "demo" [mkVPNPeer "worker" "10.0.0.1/32" "1" "2"])
  /\ GenerateVPNPeer printKey publicKey "worker" ([Byte.x2a], None) threePeers
     = Normal (Some (Errorf "not enough IP addresses to assign in the %q CIDR"
                            "10.0.0.0/30"),
               threePeers).
Proof.
  split.
  - rewrite (GenerateVPNPeer_cases printKey publicKey "10.0.0.0/30"
               (net.IPv4 Byte.x0a Byte.x00 Byte.x00 Byte.x00)
               (net.mkIPNet [Byte.x0a; Byte.x00; Byte.x00; Byte.x00]
                            [Byte.xff; Byte.xff; Byte.xff; Byte.xfc])).
    + vm_compute. reflexivity.
    + vm_compute. reflexivity.
    + vm_compute. reflexivity.
    + left. reflexivity.
    + vm_compute. reflexivity.
  - rewrite (GenerateVPNPeer_cases printKey publicKey "10.0.0.0/30"
               (net.IPv4 Byte.x0a Byte.x00 Byte.x00 Byte.x00)
               (net.mkIPNet [Byte.x0a; Byte.x00; Byte.x00; Byte.x00]
                            [Byte.xff; Byte.xff; Byte.xff; Byte.xfc])).
    + vm_compute. reflexivity.
    + vm_compute. reflexivity.
    + vm_compute. reflexivity.
    + left. reflexivity.
    + vm_compute. reflexivity.
Defined.

Lemma NewCluster_cases_witness :
  newDemoCluster "10.0.0.0/32"
  = Normal (None, Some (Errorf "not enough IP addresses to assign in the %q CIDR"
                               "10.0.0.0/32")).
Proof.
  unfold newDemoCluster, someKey.
  rewrite (NewCluster_cases (inl someAuthorities) someEtcdServer someKubeAPIServer
             printKey publicKey "demo" "10.0.0.0/32" [] []
             (net.IPv4 Byte.x0a Byte.x00 Byte.x00 Byte.x00)
             (net.mkIPNet [Byte.x0a; Byte.x00; Byte.x00; Byte.x00]
                          [Byte.xff; Byte.xff; Byte.xff; Byte.xff])
             someAuthorities
             (mkEtcdServer someCertificate "cert" "key" [])
             (mkKubeAPIServer someCertificate "cert" "key" "public" "private" [])).
  - vm_compute. reflexivity.
  - vm_compute. reflexivity.
  - left. reflexivity.
  - reflexivity.
  - reflexivity.
  - reflexivity.
Defined.

Lemma generated_cluster_fixed_witness :
  exists c0 c,
    newDemoCluster "10.0.0.0/16" = Normal (Some c0, None)
    /\ grown printKey publicKey c0 ["worker"%string] c
    /\ Name c = "demo"%string
    /\ VPNCIDR c = snd (fst (net.ParseCIDR "10.0.0.0/16"))
    /\ map VPNPeer_Name (VPNPeers c) = ["control-plane-ingress"%string; "worker"%string].
Proof.
  destruct (newDemoCluster "10.0.0.0/16") as [[[c0|] [e|]]|] eqn:N;
    try (vm_compute in N; discriminate N).
  destruct (GenerateVPNPeer printKey publicKey "worker" someKey c0)
    as [[[e|] c1]|] eqn:G;
    try (vm_compute in N; injection N as <-; vm_compute in G; discriminate G).
  exists c0, c1. split; [reflexivity|].
  assert (Gr : grown printKey publicKey c0 ["worker"%string] c1)
    by exact (grown_snoc _ _ c0 [] c0 "worker" someKey c1 (grown_nil _ _ c0) G).
  split; [exact Gr|].
  destruct (generated_cluster_fixed (inl someAuthorities) someEtcdServer someKubeAPIServer
              printKey publicKey "demo" "10.0.0.0/16" [] [] someKey c0 c1
              ["worker"%string] N Gr)
    as (ip & cidr & cas & etcd & api & first & added & P & _ & _ & _ & En & _ & _ & _ & _
        & _ & Ec & _ & Ep & Ef & Ea).
  split; [exact En|]. split; [rewrite Ec, P; reflexivity|].
  rewrite Ep. cbn [map]. rewrite Ef, Ea. reflexivity.
Defined.

Lemma generated_peer_addresses_witness :
  exists c0 c,
    newDemoCluster "10.0.0.0/30" = Normal (Some c0, None)
    /\ grown printKey publicKey c0 ["worker"%string] c
    /\ (forall i peer, nth_error (VPNPeers c) i = Some peer ->
          VPNPeer_Address peer
          = net.IP_String
              (networkPlus (net.mkIPNet [Byte.x0a; Byte.x00; Byte.x00; Byte.x00]
                                        [Byte.xff; Byte.xff; Byte.xff; Byte.xfc])
                           (Z.of_nat i + 1))
            +++ "/32"
          /\ net.Contains (net.mkIPNet [Byte.x0a; Byte.x00; Byte.x00; Byte.x00]
                                       [Byte.xff; Byte.xff; Byte.xff; Byte.xfc])
                (networkPlus (net.mkIPNet [Byte.x0a; Byte.x00; Byte.x00; Byte.x00]
                                          [Byte.xff; Byte.xff; Byte.xff; Byte.xfc])
                             (Z.of_nat i + 1))
             = true)
    /\ Z.of_nat (length (VPNPeers c)) < 4.
Proof.
  destruct (newDemoCluster "10.0.0.0/30") as [[[c0|] [e|]]|] eqn:N;
    try (vm_compute in N; discriminate N).
  destruct (GenerateVPNPeer printKey publicKey "worker" someKey c0)
    as [[[e|] c1]|] eqn:G;
    try (vm_compute in N; injection N as <-; vm_compute in G; discriminate G).
  exists c0, c1. split; [reflexivity|].
  assert (Gr : grown printKey publicKey c0 ["worker"%string] c1)
    by exact (grown_snoc _ _ c0 [] c0 "worker" someKey c1 (grown_nil _ _ c0) G).
  split; [exact Gr|].
  assert (P : net.ParseCIDR "10.0.0.0/30"
              = (net.IPv4 Byte.x0a Byte.x00 Byte.x00 Byte.x00,
                 Some (net.mkIPNet [Byte.x0a; Byte.x00; Byte.x00; Byte.x00]
                                   [Byte.xff; Byte.xff; Byte.xff; Byte.xfc]),
                 None))
    by (vm_compute; reflexivity).
  exact (generated_peer_addresses (inl someAuthorities) someEtcdServer someKubeAPIServer
           printKey publicKey "demo" "10.0.0.0/30" [] [] someKey _ _
           c0 c1 ["worker"%string] N Gr P (or_introl eq_refl)).
Defined.

Lemma GenerateVPNPeer_then_VPNPeer_witness :
  exists c',
    GenerateVPNPeer printKey publicKey "worker" someKey (emptyCluster "demo" [])
    = Normal (None, c')
    /\ Cluster_VPNPeer "worker" c'
       = Normal ((Some (mkVPNPeer "worker" "10.0.0.1/32" "1" "2"), None), c').
Proof.
  destruct (GenerateVPNPeer printKey publicKey "worker" someKey (emptyCluster "demo" []))
    as [[[e|] c1]|] eqn:G; try (vm_compute in G; discriminate G).
  exists c1. split; [reflexivity|].
  destruct (GenerateVPNPeer_then_VPNPeer printKey publicKey "worker" someKey
              (emptyCluster "demo" []) c1 G) as (new & Ep & _ & _ & Hn & _).
  rewrite Hn by (intros q []).
  vm_compute in G. injection G as <-. cbn in Ep. injection Ep as <-. reflexivity.
Defined.

Lemma Export_VPNCIDR_parses_witness :
  exists c0 c v,
    newDemoCluster "10.0.0.0/16" = Normal (Some c0, None)
    /\ grown printKey publicKey c0 ["worker"%string] c
    /\ Export c = Normal (v, c)
    /\ snd (fst (net.ParseCIDR
                   (clusterv1alpha1.Spec_VPNCIDR (clusterv1alpha1.Cluster_Spec v))))
       = VPNCIDR c.
Proof.
  destruct (newDemoCluster "10.0.0.0/16") as [[[c0|] [e|]]|] eqn:N;
    try (vm_compute in N; discriminate N).
  destruct (GenerateVPNPeer printKey publicKey "worker" someKey c0)
    as [[[e|] c1]|] eqn:G;
    try (vm_compute in N; injection N as <-; vm_compute in G; discriminate G).
  assert (Gr : grown printKey publicKey c0 ["worker"%string] c1)
    by exact (grown_snoc _ _ c0 [] c0 "worker" someKey c1 (grown_nil _ _ c0) G).
  destruct (Export_VPNCIDR_parses (inl someAuthorities) someEtcdServer someKubeAPIServer
              printKey publicKey "demo" "10.0.0.0/16" [] [] someKey c0 c1
              ["worker"%string] N Gr) as (v & cidr & Ex & Ec & _ & Pb).
  exists c0, c1, v. split; [reflexivity|]. split; [exact Gr|]. split; [exact Ex|].
  destruct Pb as [ip Pb].
  - left. vm_compute in N. injection N as <-. vm_compute in G. injection G as <-.
    cbn in Ec. injection Ec as <-. reflexivity.
  - rewrite Pb, Ec. reflexivity.
Defined.

Lemma NewCluster_rejects_witness :
  newDemoCluster "10.0.0.0" = Normal (None, Some (ParseError "CIDR address" "10.0.0.0"))
  /\ newDemoCluster "10.0.0.0/33"
     = Normal (None, Some (ParseError "CIDR address" "10.0.0.0/33"))
  /\ newDemoCluster "10.0.0.0/32"
     = Normal (None, Some (Errorf "not enough IP addresses to assign in the %q CIDR"
                                  "10.0.0.0/32")).
Proof.
  destruct (NewCluster_rejects (inl someAuthorities) someEtcdServer someKubeAPIServer
              printKey publicKey "demo" [] [] someKey) as (R1 & R2 & R3).
  split; [|split].
  - apply (R1 "10.0.0.0"%string). reflexivity.
  - apply (R2 Byte.x0a Byte.x00 Byte.x00 Byte.x00 33). lia.
  - apply (R3 Byte.x0a Byte.x00 Byte.x00 Byte.x00 someAuthorities
             (mkEtcdServer someCertificate "cert" "key" [])
             (mkKubeAPIServer someCertificate "cert" "key" "public" "private" []));
      reflexivity.
Defined.

Lemma zero_first_byte_network_unusable_witness :
  requestVPNIP (clusterOn "64:ff9b::/96" "demo" [])
  = Normal ((EmptyString,
             Some (Errorf "not enough IP addresses to assign in the %q CIDR" "64:ff9b::/96")),
            clusterOn "64:ff9b::/96" "demo" [])
  /\ forall c, newDemoCluster "64:ff9b::/96" <> Normal (Some c, None).
Proof.
  destruct (zero_first_byte_network_unusable (inl someAuthorities) someEtcdServer
              someKubeAPIServer printKey publicKey "64:ff9b::/96"
              [Byte.x00; Byte.x64; Byte.xff; Byte.x9b; Byte.x00; Byte.x00; Byte.x00; Byte.x00;
               Byte.x00; Byte.x00; Byte.x00; Byte.x00; Byte.x00; Byte.x00; Byte.x00; Byte.x00]
              (net.mkIPNet
                 [Byte.x00; Byte.x64; Byte.xff; Byte.x9b; Byte.x00; Byte.x00; Byte.x00;
                  Byte.x00; Byte.x00; Byte.x00; Byte.x00; Byte.x00; Byte.x00; Byte.x00;
                  Byte.x00; Byte.x00]
                 [Byte.xff; Byte.xff; Byte.xff; Byte.xff; Byte.xff; Byte.xff; Byte.xff;
                  Byte.xff; Byte.xff; Byte.xff; Byte.xff; Byte.xff; Byte.x00; Byte.x00;
                  Byte.x00; Byte.x00]))
    as [R N].
  - vm_compute. reflexivity.
  - reflexivity.
  - vm_compute. reflexivity.
  - reflexivity.
  - split.
    + rewrite R; [vm_compute; reflexivity | vm_compute; reflexivity | vm_compute; reflexivity].
    + intros c. unfold newDemoCluster. exact (N _ _ _ _ c).
Defined.

Lemma control_plane_ingress_found_witness :
  exists c0 c,
    newDemoCluster "10.0.0.0/16" = Normal (Some c0, None)
    /\ grown printKey publicKey c0 ["control-plane-ingress"%string] c
    /\ Cluster_VPNPeer "control-plane-ingress" c
       = Normal ((Some (mkVPNPeer "control-plane-ingress" "10.0.0.1/32" "1" "2"), None), c).
Proof.
  destruct (newDemoCluster "10.0.0.0/16") as [[[c0|] [e|]]|] eqn:N;
    try (vm_compute in N; discriminate N).
  destruct (GenerateVPNPeer printKey publicKey "control-plane-ingress" someKey c0)
    as [[[e|] c1]|] eqn:G;
    try (vm_compute in N; injection N as <-; vm_compute in G; discriminate G).
  exists c0, c1. split; [reflexivity|].
  assert (Gr : grown printKey publicKey c0 ["control-plane-ingress"%string] c1)
    by exact (grown_snoc _ _ c0 [] c0 "control-plane-ingress" someKey c1
                (grown_nil _ _ c0) G).
  split; [exact Gr|].
  destruct (control_plane_ingress_found (inl someAuthorities) someEtcdServer
              someKubeAPIServer printKey publicKey "demo" "10.0.0.0/16" [] [] someKey
              c0 c1 ["control-plane-ingress"%string] N Gr) as (first & Ef & L).
  rewrite L. vm_compute in N. injection N as <-. cbn in Ef. injection Ef as <-.
  reflexivity.
Defined.

Lemma Map_Specs_outcomes_witness :
  Map_Specs (Some (External "no kind is registered")) encodeName
    [("demo"%string, emptyCluster "demo" [])]
  = Normal (EmptyString, None)
  /\ Map_Specs None encodeName
       [("demo"%string, emptyCluster "demo" []);
        ("bare"%string, mkCluster "bare" None None None [] [] None [])]
     = Panicked.
Proof.
  split.
  - destruct (Map_Specs_outcomes (Some (External "no kind is registered")) encodeName
                [("demo"%string, emptyCluster "demo" [])]) as (_ & U & _).
    exact (U _ eq_refl).
  - destruct (Map_Specs_outcomes None encodeName
                [("demo"%string, emptyCluster "demo" []);
                 ("bare"%string, mkCluster "bare" None None None [] [] None [])])
      as (_ & _ & P).
    apply P; [reflexivity|].
    exists "bare"%string, (mkCluster "bare" None None None [] [] None []).
    split; [right; left; reflexivity | left; reflexivity].
Defined.
